(** * A shallow embedding of the blog generator (cmd: [blog generate])

    The development follows [main.go]: Go strings are byte strings
    ([string] of 8-bit [ascii]), errors are a sum type, and the
    effects of a run (file reads, directory listings, file writes,
    template executions, notices on standard output) are collected in
    a trace.  What the Go standard library and the third-party
    packages compute ([time], [sort.Slice], [goldmark], [yaml],
    [encoding/xml] escaping, map iteration order) is taken through an
    interface, with a concrete instance at the end of the definitions
    that is used to run the model on examples. *)

From Stdlib Require Import Ascii.
From stdpp Require Import base option list sorting strings gmap fin_maps.

Local Open Scope Z_scope.

(** ** Byte strings *)

Module Str.

Definition len (s : string) : nat := String.length s.

(** [s[i]] when [i] is in range. *)
Definition at_ (s : string) (i : nat) : option ascii := String.get i s.

(** [s[i:]] *)
Definition from (s : string) (i : nat) : string :=
  String.substring i (len s - i) s.

(** [s[:i]] *)
Definition upto (s : string) (i : nat) : string :=
  String.substring 0 i s.

(** [strings.HasSuffix]: [len(s) >= len(suffix) &&
    s[len(s)-len(suffix):] == suffix]. *)
Definition HasSuffix (s suffix : string) : bool :=
  bool_decide (len suffix ≤ len s)%nat &&
  bool_decide (from s (len s - len suffix) = suffix).

(** [strings.TrimSuffix]. *)
Definition TrimSuffix (s suffix : string) : string :=
  if HasSuffix s suffix then upto s (len s - len suffix) else s.

Definition is_byte (c : ascii) (o : option ascii) : bool :=
  bool_decide (o = Some c).

(** [strings.Join(elems, sep)]. *)
Fixpoint Join (elems : list string) (sep : string) : string :=
  match elems with
  | [] => ""
  | [e] => e
  | e :: rest => e +:+ sep +:+ Join rest sep
  end.

(** [strings.Split(s, "/")]: the text between the slashes. *)
Fixpoint SplitSlash (s : string) : list string :=
  match s with
  | "" => [""]
  | String c s' =>
      if bool_decide (c = "/"%char) then "" :: SplitSlash s'
      else match SplitSlash s' with
           | x :: xs => String c x :: xs
           | [] => [String c ""]
           end
  end.

End Str.

(** ** Slug derivation *)

(** [deriveSlug] of [main.go]:
<<
  name := strings.TrimSuffix(filename, ".md")
  if len(name) > 11 && name[4] == '-' && name[7] == '-' && name[10] == '-' {
      name = name[11:]
  }
  return name
>> *)
Definition hyphen : ascii := "-"%char.

Definition hasDashes (name : string) : bool :=
  bool_decide (11 < Str.len name)%nat
  && Str.is_byte hyphen (Str.at_ name 4)
  && Str.is_byte hyphen (Str.at_ name 7)
  && Str.is_byte hyphen (Str.at_ name 10).

Definition deriveSlug (filename : string) : string :=
  let name := Str.TrimSuffix filename ".md" in
  if hasDashes name then Str.from name 11 else name.

Definition is_digit (o : option ascii) : bool :=
  match o with
  | Some c => bool_decide (48 ≤ nat_of_ascii c ≤ 57)%nat
  | None => false
  end.


(** ** Paths: [path/filepath] on a Unix system *)

Module filepath.

(** One step of [Clean] over the components of a path, the cleaned
    components so far kept in reverse: empty and [.] components
    vanish, [..] removes the component before it, a leading [..]
    stays in a relative path and vanishes in a rooted one. *)
Definition step (rooted : bool) (stack : list string) (c : string)
    : list string :=
  if bool_decide (c = "") || bool_decide (c = ".") then stack
  else if bool_decide (c = "..") then
    match stack with
    | x :: stack' =>
        if bool_decide (x = "..") then c :: stack else stack'
    | [] => if rooted then [] else [c]
    end
  else c :: stack.

Definition Clean (path : string) : string :=
  let rooted := Str.is_byte "/"%char (Str.at_ path 0) in
  let body :=
    Str.Join (reverse (foldl (step rooted) [] (Str.SplitSlash path))) "/" in
  if rooted then "/" +:+ body
  else if bool_decide (body = "") then "." else body.

(** [filepath.Join]: leading empty elements are dropped, the rest
    is joined with the separator and cleaned; no element at all
    gives the empty path. *)
Fixpoint Join (elem : list string) : string :=
  match elem with
  | [] => ""
  | e :: rest =>
      if bool_decide (e = "") then Join rest
      else Clean (Str.Join elem "/")
  end.

End filepath.

(** ** Errors *)

(** A Go [(T, error)] pair: the value, or the error's message. *)
Inductive result (A : Type) : Type :=
| Ok (a : A)
| Err (msg : string).
Arguments Ok {A} a.
Arguments Err {A} msg.

(** [fmt.Errorf("<context>: %w", err)] *)
Definition wrapErr {A} (context : string) (r : result A) : result A :=
  match r with
  | Ok a => Ok a
  | Err msg => Err (context +:+ ": " +:+ msg)
  end.

(** ** The [time] package *)

Class GoTime := {
  Time : Type;
  (** the zero value of [time.Time] *)
  zeroTime : Time;
  (** the instant of a time value, which [After] compares *)
  instant : Time → Z;
  (** [t.Year()] *)
  Year : Time → Z;
  (** [t.Format(time.RFC1123Z)] *)
  FormatRFC1123Z : Time → string;
  (** [time.Parse("2006-01-02", s)] *)
  ParseDate : string → result Time;
}.

(** [t.After(u)] *)
Definition After `{GoTime} (t u : Time) : bool :=
  bool_decide (instant u < instant t).

(** ** The data model of [main.go] *)

Definition contentDir : string := "posts".
Definition templateDir : string := "templates".
Definition staticDir : string := "static".
Definition outputDir : string := "docs".
Definition postsPerPage : nat := 5.
Definition postsInFeed : nat := 20.

Record SiteConfig := {
  cfg_Title : string;
  cfg_URL : string;
  cfg_Description : string;
}.

Record RSSItem := {
  item_Title : string;
  item_Link : string;
  item_Description : string;
  item_PubDate : string;
  item_GUID : string;
}.

Record RSSChannel := {
  chan_Title : string;
  chan_Link : string;
  chan_Description : string;
  chan_LastBuild : string;
  chan_Items : list RSSItem;
}.

Record RSSFeed := {
  feed_Version : string;
  feed_Channel : RSSChannel;
}.

Section Model.
Context `{GoTime}.

Record Post := {
  Title : string;
  Slug : string;
  Date : Time;
  Description : string;
  Content : string;
  URL : string;
}.

Record HomePage := { home_Site : SiteConfig; home_Posts : list Post }.

Record PostPage := { page_Site : SiteConfig; page_Post : Post }.

Record YearGroup := { yg_Year : Z; yg_Posts : list Post }.

Record ArchivePage := { arch_Site : SiteConfig; arch_Years : list YearGroup }.

(** What a template is executed on. *)
Inductive PageContext :=
| CtxHome (c : HomePage)
| CtxPost (c : PostPage)
| CtxArchive (c : ArchivePage).

(** A value of the front matter, a Go [interface{}], by its dynamic
    type.  The program asserts [bool], [string] and [time.Time]. *)
Inductive Value :=
| VBool (b : bool)
| VString (s : string)
| VTime (t : Time)
| VInt (n : Z)
| VNil.

(** A parsed template is known by what executing it on a context
    answers: [None] on success, the error otherwise.  The HTML text
    it writes is not modelled; the trace keeps the context. *)
Definition Template : Type := PageContext → option string.

Record DirEntry := { Name : string; IsDir : bool }.

(** ** What the program calls and does not define *)

Class GoLib := {
  (** [sort.Slice], on the elements rather than on their indices *)
  sortSlice : ∀ {A : Type}, (A → A → bool) → list A → list A;
  (** the order in which [for k, v := range m] visits a map *)
  rangeMap : ∀ {V : Type}, gmap Z V → list (Z * V);
  (** [md.Convert] followed by [meta.Get]: the HTML of the body and
      the front matter *)
  mdConvert : string → result (string * gmap string Value);
  (** [yaml.Unmarshal] into a zero [SiteConfig] *)
  yamlUnmarshal : string → result SiteConfig;
  (** [xml.EscapeText] *)
  xmlEscape : string → string;
  (** the [%q] verb of [fmt] *)
  quote : string → string;
  (** the [%d] verb of [fmt] *)
  itoa : nat → string;
}.

(** The file system and the outcome of each operation on it. *)
Record World := {
  ReadFile : string → result string;
  ReadDir : string → result (list DirEntry);
  Stat : string → option string;
  MkdirAll : string → option string;
  RemoveAll : string → option string;
  Create : string → option string;
  WriteString : string → string → option string;
  Encode : string → option string;
  WriteFile : string → string → option string;
  CopyDir : string → string → option string;
  ParseFiles : list string → result Template;
}.

(** ** Effects *)

Inductive Event :=
| EvReadFile (path : string)
| EvReadDir (path : string)
| EvStat (path : string)
| EvMkdirAll (path : string)
| EvRemoveAll (path : string)
| EvParseFiles (paths : list string)
| EvCreate (path : string)
| EvExecute (path : string) (template : string) (ctx : PageContext)
| EvWriteString (path : string) (data : string)
| EvEncode (path : string) (feed : RSSFeed)
| EvWriteFile (path : string) (data : string)
| EvCopyDir (src dst : string)
| EvPrint (text : string).

(** A computation: the effects it had, in order, and its outcome. *)
Definition IO (A : Type) : Type := list Event * result A.

#[export] Instance IO_ret : MRet IO := λ A a, ([], Ok a).

#[export] Instance IO_bind : MBind IO := λ A B k m,
  match m with
  | (t, Ok a) => let '(t', r) := k a in (t ++ t', r)
  | (t, Err msg) => (t, Err msg)
  end.

Definition trace {A} (m : IO A) : list Event := m.1.
Definition outcome {A} (m : IO A) : result A := m.2.

(** an operation that answers a value *)
Definition call {A} (e : Event) (r : result A) : IO A := ([e], r).

(** an operation that answers only an error, or none *)
Definition op (e : Event) (r : option string) : IO unit :=
  ([e], match r with None => Ok () | Some msg => Err msg end).

Definition wrap {A} (context : string) (m : IO A) : IO A :=
  (m.1, wrapErr context m.2).

Definition Println (s : string) : IO unit :=
  op (EvPrint (s +:+ "
")) None.

Definition Printf (s : string) : IO unit := op (EvPrint s) None.

Definition nl : string := "
".

Context `{GoLib}.

Definition readFile (w : World) (path : string) : IO string :=
  call (EvReadFile path) (ReadFile w path).

Definition readDir (w : World) (path : string) : IO (list DirEntry) :=
  call (EvReadDir path) (ReadDir w path).

Definition mkdirAll (w : World) (path : string) : IO unit :=
  op (EvMkdirAll path) (MkdirAll w path).

Definition create (w : World) (path : string) : IO unit :=
  op (EvCreate path) (Create w path).

(** ** [loadConfig] *)

Definition loadConfig (w : World) : IO SiteConfig :=
  data ← wrap "reading site.yml" (readFile w "site.yml");
  cfg ← wrap "parsing site.yml" (([], yamlUnmarshal data) : IO SiteConfig);
  let cfg :=
    if bool_decide (cfg_Title cfg = "")
    then {| cfg_Title := "My Blog"; cfg_URL := cfg_URL cfg;
            cfg_Description := cfg_Description cfg |}
    else cfg in
  let cfg :=
    if bool_decide (cfg_URL cfg = "")
    then {| cfg_Title := cfg_Title cfg; cfg_URL := "https://example.com";
            cfg_Description := cfg_Description cfg |}
    else cfg in
  mret cfg.

(** ** [cleanDir] *)

Fixpoint removeEntries (w : World) (dir : string) (entries : list DirEntry)
    : IO unit :=
  match entries with
  | [] => mret ()
  | entry :: rest =>
      let path := filepath.Join [dir; Name entry] in
      op (EvRemoveAll path) (RemoveAll w path);;
      removeEntries w dir rest
  end.

Definition cleanDir (w : World) (dir : string) : IO unit :=
  mkdirAll w dir;;
  entries ← readDir w dir;
  removeEntries w dir entries.

(** ** [parseTemplates] *)

Definition pages : list string := ["home.html"; "post.html"; "archive.html"].

Fixpoint parseTemplatesLoop (w : World) (baseFile : string)
    (pages : list string) (templates : gmap string Template)
    : IO (gmap string Template) :=
  match pages with
  | [] => mret templates
  | page :: rest =>
      let pageFile := filepath.Join [templateDir; page] in
      let files := [baseFile; pageFile] in
      t ← wrap ("parsing " +:+ page)
            (call (EvParseFiles files) (ParseFiles w files));
      parseTemplatesLoop w baseFile rest (<[page := t]> templates)
  end.

Definition parseTemplates (w : World) : IO (gmap string Template) :=
  let baseFile := filepath.Join [templateDir; "base.html"] in
  parseTemplatesLoop w baseFile pages ∅.

(** [templates[name].Execute(f, ctx)], [f] the file created at
    [path].  A name that is not a key gives a nil template, on
    which the call cannot succeed. *)
Definition Execute (templates : gmap string Template) (name path : string)
    (ctx : PageContext) : IO unit :=
  match templates !! name with
  | Some t => op (EvExecute path name ctx) (t ctx)
  | None => ([], Err "nil template")
  end.

(** ** [parsePost] *)

(** [if draft, ok := metaData["draft"]; ok { if d, ok := draft.(bool); ok && d ...] *)
Definition isDraft (metaData : gmap string Value) : bool :=
  match metaData !! "draft" with
  | Some (VBool d) => d
  | _ => false
  end.

(** [s, _ := metaData[key].(string)] *)
Definition stringField (metaData : gmap string Value) (key : string) : string :=
  match metaData !! key with
  | Some (VString s) => s
  | _ => ""
  end.

Definition dateField (metaData : gmap string Value) : result Time :=
  match metaData !! "date" with
  | Some (VString d) =>
      wrapErr ("parsing date " +:+ quote d) (ParseDate d)
  | Some (VTime d) => Ok d
  | _ => Ok zeroTime
  end.

Definition parsePost (w : World) (filename : string) : IO (option Post) :=
  source ← readFile w (filepath.Join [contentDir; filename]);
  '(html, metaData) ← wrap "converting markdown"
                        (([], mdConvert source) : IO _);
  if isDraft metaData then
    Printf ("Skipping draft: " +:+ filename +:+ nl);;
    mret None
  else
    let title := stringField metaData "title" in
    let title := if bool_decide (title = "") then "Untitled" else title in
    let description := stringField metaData "description" in
    date ← (([], dateField metaData) : IO Time);
    let slug := deriveSlug filename in
    mret (Some {| Title := title;
                  Slug := slug;
                  Date := date;
                  Description := description;
                  Content := html;
                  URL := "/posts/" +:+ slug +:+ "/" |}).

(** ** [parsePosts] *)

Definition skipped (entry : DirEntry) : bool :=
  IsDir entry || negb (Str.HasSuffix (Name entry) ".md").

Fixpoint parsePostsLoop (w : World) (entries : list DirEntry)
    (posts : list Post) : IO (list Post) :=
  match entries with
  | [] => mret posts
  | entry :: rest =>
      if skipped entry then parsePostsLoop w rest posts
      else
        post ← wrap ("parsing " +:+ Name entry) (parsePost w (Name entry));
        match post with
        | Some post => parsePostsLoop w rest (posts ++ [post])
        | None => parsePostsLoop w rest posts
        end
  end.

Definition parsePosts (w : World) : IO (list Post) :=
  entries ← wrap "reading content dir" (readDir w contentDir);
  parsePostsLoop w entries [].

(** ** [generatePostPages] *)

Definition postDir (slug : string) : string :=
  filepath.Join [outputDir; "posts"; slug].

Definition postPath (slug : string) : string :=
  filepath.Join [postDir slug; "index.html"].

Fixpoint generatePostPages (w : World) (templates : gmap string Template)
    (site : SiteConfig) (posts : list Post) : IO unit :=
  match posts with
  | [] => mret ()
  | post :: rest =>
      mkdirAll w (postDir (Slug post));;
      create w (postPath (Slug post));;
      wrap ("executing post template for " +:+ Slug post)
        (Execute templates "post.html" (postPath (Slug post))
           (CtxPost {| page_Site := site; page_Post := post |}));;
      Printf ("Generated: posts/" +:+ Slug post +:+ "/index.html" +:+ nl);;
      generatePostPages w templates site rest
  end.

(** ** [generateHomePage] *)

(** [recent := posts; if len(recent) > postsPerPage { recent = recent[:postsPerPage] }] *)
Definition capped (n : nat) (posts : list Post) : list Post :=
  if bool_decide (n < length posts)%nat then take n posts else posts.

Definition generateHomePage (w : World) (templates : gmap string Template)
    (site : SiteConfig) (posts : list Post) : IO unit :=
  let recent := capped postsPerPage posts in
  let path := filepath.Join [outputDir; "index.html"] in
  create w path;;
  wrap "executing home template"
    (Execute templates "home.html" path
       (CtxHome {| home_Site := site; home_Posts := recent |}));;
  Println "Generated: index.html".

(** ** [generateArchivePage] *)

(** [yearMap[year] = append(yearMap[year], post)] for each post *)
Definition groupByYear (posts : list Post) : gmap Z (list Post) :=
  foldl (λ yearMap post,
           let year := Year (Date post) in
           <[year := default [] (yearMap !! year) ++ [post]]> yearMap)
        ∅ posts.

Definition archiveYears (posts : list Post) : list YearGroup :=
  let yearMap := groupByYear posts in
  let years :=
    (λ kv, {| yg_Year := kv.1; yg_Posts := kv.2 |}) <$> rangeMap yearMap in
  sortSlice (λ a b, bool_decide (yg_Year b < yg_Year a)) years.

Definition generateArchivePage (w : World) (templates : gmap string Template)
    (site : SiteConfig) (posts : list Post) : IO unit :=
  let years := archiveYears posts in
  let dir := filepath.Join [outputDir; "archive"] in
  mkdirAll w dir;;
  let path := filepath.Join [dir; "index.html"] in
  create w path;;
  wrap "executing archive template"
    (Execute templates "archive.html" path
       (CtxArchive {| arch_Site := site; arch_Years := years |}));;
  Println "Generated: archive/index.html".

(** ** [generateRSSFeed] *)

Definition feedItem (site : SiteConfig) (post : Post) : RSSItem :=
  {| item_Title := Title post;
     item_Link := cfg_URL site +:+ URL post;
     item_Description := Description post;
     item_PubDate := FormatRFC1123Z (Date post);
     item_GUID := cfg_URL site +:+ URL post |}.

(** The value that [generateRSSFeed] hands to the encoder. *)
Definition buildFeed (site : SiteConfig) (posts : list Post) : RSSFeed :=
  let feedPosts := capped postsInFeed posts in
  let items := feedItem site <$> feedPosts in
  let lastBuild :=
    match posts with
    | first :: _ => FormatRFC1123Z (Date first)
    | [] => ""
    end in
  {| feed_Version := "2.0";
     feed_Channel :=
       {| chan_Title := cfg_Title site;
          chan_Link := cfg_URL site;
          chan_Description := cfg_Description site;
          chan_LastBuild := lastBuild;
          chan_Items := items |} |}.

Definition dq : string := String "034"%char "".

(** [xml.Header] *)
Definition xmlHeader : string :=
  "<?xml version=" +:+ dq +:+ "1.0" +:+ dq +:+
  " encoding=" +:+ dq +:+ "UTF-8" +:+ dq +:+ "?>" +:+ nl.

Definition generateRSSFeed (w : World) (site : SiteConfig)
    (posts : list Post) : IO unit :=
  let feed := buildFeed site posts in
  let path := filepath.Join [outputDir; "feed.xml"] in
  create w path;;
  op (EvWriteString path xmlHeader) (WriteString w path xmlHeader);;
  wrap "encoding RSS" (op (EvEncode path feed) (Encode w path));;
  Println "Generated: feed.xml".

(** ** What the encoder writes

    [encoding/xml] on the three feed structs, as their field tags
    direct it: a field tagged [xml:"name"] becomes an element of
    that name holding the escaped text, a field tagged [,attr] an
    attribute, a slice one element per member.  A field is left out
    only when its tag says [,omitempty] and its value is empty. *)

Local Unset Elimination Schemes.
Inductive XML :=
| Elem (name : string) (attrs : list (string * string)) (kids : list XML)
| CharData (text : string).
Local Set Elimination Schemes.

Definition field (name : string) (omitempty : bool) (value : string)
    : list XML :=
  if omitempty && bool_decide (value = "") then []
  else [Elem name [] [CharData value]].

(** [RSSItem]: no tag has [omitempty]. *)
Definition marshalItem (it : RSSItem) : XML :=
  Elem "item" []
    (field "title" false (item_Title it)
     ++ field "link" false (item_Link it)
     ++ field "description" false (item_Description it)
     ++ field "pubDate" false (item_PubDate it)
     ++ field "guid" false (item_GUID it)).

(** [RSSChannel]: no tag has [omitempty]. *)
Definition marshalChannel (ch : RSSChannel) : XML :=
  Elem "channel" []
    (field "title" false (chan_Title ch)
     ++ field "link" false (chan_Link ch)
     ++ field "description" false (chan_Description ch)
     ++ field "lastBuildDate" false (chan_LastBuild ch)
     ++ (marshalItem <$> chan_Items ch)).

Definition marshalFeed (feed : RSSFeed) : XML :=
  Elem "rss" [("version", feed_Version feed)]
    [marshalChannel (feed_Channel feed)].

Definition isElem (x : XML) : bool :=
  match x with Elem _ _ _ => true | CharData _ => false end.

Fixpoint indent (depth : nat) : string :=
  match depth with
  | O => ""
  | S d => "  " +:+ indent d
  end.

Definition renderAttr (a : string * string) : string :=
  " " +:+ a.1 +:+ "=" +:+ dq +:+ xmlEscape a.2 +:+ dq.

(** The encoder after [enc.Indent("", "  ")]: each start tag but
    the first on a line of its own, an end tag on a line of its own
    when its element holds elements. *)
Fixpoint render (depth : nat) (x : XML) : string :=
  match x with
  | CharData text => xmlEscape text
  | Elem name attrs kids =>
      "<" +:+ name +:+ Str.Join (renderAttr <$> attrs) "" +:+ ">"
      +:+ (fix renderKids (ks : list XML) : string :=
             match ks with
             | [] => ""
             | k :: ks' =>
                 (if isElem k then nl +:+ indent (S depth) else "")
                 +:+ render (S depth) k +:+ renderKids ks'
             end) kids
      +:+ (if existsb isElem kids then nl +:+ indent depth else "")
      +:+ "</" +:+ name +:+ ">"
  end.

(** The bytes of [feed.xml] after a run that wrote [feed]. *)
Definition feedDocument (feed : RSSFeed) : string :=
  xmlHeader +:+ render 0 (marshalFeed feed).

(** ** [copyStaticFiles]

    The walk over the static directory is one operation of the
    world here: [copyDir] touches nothing that the pages or the feed
    are made of. *)
Definition copyStaticFiles (w : World) : IO unit :=
  op (EvStat staticDir) None;;
  match Stat w staticDir with
  | None =>
      wrap "copying static files"
        (op (EvCopyDir staticDir outputDir) (CopyDir w staticDir outputDir))
  | Some _ => mret ()
  end.

(** ** [runGenerate] *)

Definition byDate (a b : Post) : bool := After (Date a) (Date b).

Definition runGenerate (w : World) : IO unit :=
  site ← loadConfig w;
  wrap "cleaning output dir" (cleanDir w outputDir);;
  tmpl ← wrap "parsing templates" (parseTemplates w);
  posts ← wrap "parsing posts" (parsePosts w);
  let posts := sortSlice byDate posts in
  Printf ("Found " +:+ itoa (length posts) +:+ " posts" +:+ nl);;
  wrap "generating post pages" (generatePostPages w tmpl site posts);;
  wrap "generating home page" (generateHomePage w tmpl site posts);;
  wrap "generating archive page" (generateArchivePage w tmpl site posts);;
  wrap "generating RSS feed" (generateRSSFeed w site posts);;
  wrap "copying static files" (copyStaticFiles w);;
  let marker := filepath.Join [outputDir; ".nojekyll"] in
  wrap "writing .nojekyll" (op (EvWriteFile marker "") (WriteFile w marker ""));;
  Println "Site generated successfully!".

End Model.

(** ** The laws of the library

    [sort.Slice] returns the elements it was given, and in an order
    in which no element is before one that [less] puts before it,
    when [less] is a strict weak order (what the package asks of it);
    ranging over a map visits every key once, in some order. *)

Record StrictWeak {A} (less : A → A → bool) : Prop := {
  sw_asym : ∀ a b, less a b = true → less b a = false;
  sw_negtrans : ∀ a b c, less a b = false → less b c = false → less a c = false;
}.

Record GoLibLaws `{GoLib} : Prop := {
  sortSlice_perm : ∀ A (less : A → A → bool) l, sortSlice less l ≡ₚ l;
  sortSlice_sorted : ∀ A (less : A → A → bool) l,
    StrictWeak less →
    StronglySorted (λ a b, less b a = false) (sortSlice less l);
  rangeMap_perm : ∀ V (m : gmap Z V), rangeMap m ≡ₚ map_to_list m;
}.
Arguments GoLibLaws {_} _.

(** ** A concrete library, to run the model

    Times are calendar days at midnight UTC, which is what
    [time.Parse("2006-01-02", s)] answers. *)

Module Civil.

Record date := { year : Z; month : Z; day : Z }.

Definition leap (y : Z) : bool :=
  (y mod 4 =? 0) && (negb (y mod 100 =? 0) || (y mod 400 =? 0)).

Definition daysIn (y m : Z) : Z :=
  if m =? 2 then (if leap y then 29 else 28)
  else if (m =? 4) || (m =? 6) || (m =? 9) || (m =? 11) then 30
  else 31.

(** days since 1970-01-01 *)
Definition days (d : date) : Z :=
  let y := if month d <=? 2 then year d - 1 else year d in
  let era := y / 400 in
  let yoe := y - era * 400 in
  let mp := (month d + 9) mod 12 in
  let doy := (153 * mp + 2) / 5 + day d - 1 in
  let doe := yoe * 365 + yoe / 4 - yoe / 100 + doy in
  era * 146097 + doe - 719468.

Definition seconds (d : date) : Z := days d * 86400.

Definition weekdayName (d : date) : string :=
  nth (Z.to_nat ((days d + 4) mod 7))
      ["Sun"; "Mon"; "Tue"; "Wed"; "Thu"; "Fri"; "Sat"] "".

Definition monthName (d : date) : string :=
  nth (Z.to_nat (month d - 1))
      ["Jan"; "Feb"; "Mar"; "Apr"; "May"; "Jun";
       "Jul"; "Aug"; "Sep"; "Oct"; "Nov"; "Dec"] "".

Definition digitChar (n : Z) : string :=
  String (ascii_of_nat (48 + Z.to_nat (n mod 10))) "".

(** the last [width] decimal digits of [n], with leading zeros *)
Fixpoint padded (width : nat) (n : Z) : string :=
  match width with
  | O => ""
  | S width' => padded width' (n / 10) +:+ digitChar n
  end.

(** [n] in decimal *)
Fixpoint decimal (fuel : nat) (n : Z) : string :=
  match fuel with
  | O => ""
  | S fuel' =>
      (if n <? 10 then "" else decimal fuel' (n / 10)) +:+ digitChar n
  end.

Definition format (d : date) : string :=
  weekdayName d +:+ ", " +:+ padded 2 (day d) +:+ " " +:+ monthName d
  +:+ " " +:+ padded 4 (year d) +:+ " 00:00:00 +0000".

Definition digit (c : ascii) : option Z :=
  let n := nat_of_ascii c in
  if bool_decide (48 ≤ n ≤ 57)%nat then Some (Z.of_nat n - 48) else None.

Fixpoint number (acc : Z) (cs : list ascii) : option Z :=
  match cs with
  | [] => Some acc
  | c :: cs' => d ← digit c; number (10 * acc + d) cs'
  end.

Definition parse (s : string) : result date :=
  match String.list_ascii_of_string s with
  | [y1; y2; y3; y4; h1; m1; m2; h2; d1; d2] =>
      match number 0 [y1; y2; y3; y4], number 0 [m1; m2], number 0 [d1; d2] with
      | Some y, Some m, Some d =>
          if bool_decide (h1 = "-"%char) && bool_decide (h2 = "-"%char) then
            if (1 <=? m) && (m <=? 12) then
              if (1 <=? d) && (d <=? daysIn y m)
              then Ok {| year := y; month := m; day := d |}
              else Err "day out of range"
            else Err "month out of range"
          else Err "cannot parse"
      | _, _, _ => Err "cannot parse"
      end
  | _ => Err "cannot parse"
  end.

Definition time : GoTime :=
  {| Time := date;
     zeroTime := {| year := 1; month := 1; day := 1 |};
     instant := seconds;
     Year := year;
     FormatRFC1123Z := format;
     ParseDate := parse |}.

End Civil.

Module Demo.

#[local] Existing Instance Civil.time.

(** [xml.EscapeText] on the characters it rewrites in text that is
    valid UTF-8 without control characters other than these. *)
Fixpoint escape (s : string) : string :=
  match s with
  | "" => ""
  | String c s' =>
      (if bool_decide (c = "&"%char) then "&amp;"
       else if bool_decide (c = "<"%char) then "&lt;"
       else if bool_decide (c = ">"%char) then "&gt;"
       else if bool_decide (c = "034"%char) then "&#34;"
       else if bool_decide (c = "'"%char) then "&#39;"
       else if bool_decide (c = "009"%char) then "&#x9;"
       else if bool_decide (c = "010"%char) then "&#xA;"
       else if bool_decide (c = "013"%char) then "&#xD;"
       else String c "") +:+ escape s'
  end.

Definition meta (title date : string) (draft : option Value)
    : gmap string Value :=
  let m : gmap string Value :=
    <["title" := VString title]> (<["date" := VString date]> ∅) in
  match draft with
  | Some v => <["draft" := v]> m
  | None => m
  end.

(** The content files of the examples, by their text: what the
    Markdown converter answers on each. *)
Definition convert (source : string) : result (string * gmap string Value) :=
  if bool_decide (source = "winter") then
    Ok ("<p>Winter</p>", meta "Winter" "2023-12-01" None)
  else if bool_decide (source = "new year") then
    Ok ("<p>New year</p>", meta "New Year" "2024-01-01" (Some (VBool false)))
  else if bool_decide (source = "summer") then
    Ok ("<p>Summer</p>", meta "Summer" "2024-06-01" None)
  else if bool_decide (source = "secret") then
    Ok ("<p>Secret</p>", meta "Secret" "2024-07-01" (Some (VBool true)))
  else if bool_decide (source = "quoted") then
    Ok ("<p>Quoted</p>", meta "Quoted" "2022-03-04" (Some (VString "true")))
  else if bool_decide (source = "undated") then
    Ok ("<p>Undated</p>", ∅)
  else Err "cannot convert".

(** The configuration files of the examples, by their text. *)
Definition unmarshal (data : string) : result SiteConfig :=
  if bool_decide (data = "title: Demo") then
    Ok {| cfg_Title := "Demo"; cfg_URL := ""; cfg_Description := "" |}
  else if bool_decide (data = "") then
    Ok {| cfg_Title := ""; cfg_URL := ""; cfg_Description := "" |}
  else Err "yaml: cannot unmarshal".

Definition lib : GoLib :=
  {| sortSlice := λ A less,
       @merge_sort A (λ a b, less b a = false)
         (λ a b, decide (less b a = false));
     rangeMap := λ V m, map_to_list m;
     mdConvert := convert;
     yamlUnmarshal := unmarshal;
     xmlEscape := escape;
     quote := λ s, dq +:+ s +:+ dq;
     itoa := λ n, Civil.decimal (S n) (Z.of_nat n) |}.

#[local] Existing Instance lib.

Definition file (name : string) : DirEntry := {| Name := name; IsDir := false |}.
Definition dir (name : string) : DirEntry := {| Name := name; IsDir := true |}.

Definition files : list (string * string) :=
  [("posts/2023-12-01-winter.md", "winter");
   ("posts/2024-01-01-new-year.md", "new year");
   ("posts/2024-06-01-summer.md", "summer");
   ("posts/2024-07-01-secret.md", "secret");
   ("posts/2024-08-01-summer.md", "summer");
   ("posts/quoted.md", "quoted");
   ("posts/undated.md", "undated");
   ("posts/images", "winter");
   ("posts/notes.txt", "secret")].

Definition lookupFile (path : string) : result string :=
  match list_find (λ kv, kv.1 = path) files with
  | Some (_, (_, text)) => Ok text
  | None => Err ("open " +:+ path +:+ ": no such file or directory")
  end.

(** A site whose content directory lists [entries] and whose
    configuration file reads as [config]; every template parses and
    executes, every write succeeds, there is no static directory. *)
Definition world (config : result string) (entries : list DirEntry) : World :=
  {| ReadFile := λ path,
       if bool_decide (path = "site.yml") then config else lookupFile path;
     ReadDir := λ path,
       if bool_decide (path = contentDir) then Ok entries else Ok [];
     Stat := λ _, Some "no such file or directory";
     MkdirAll := λ _, None;
     RemoveAll := λ _, None;
     Create := λ _, None;
     WriteString := λ _ _, None;
     Encode := λ _, None;
     WriteFile := λ _ _, None;
     CopyDir := λ _ _, None;
     ParseFiles := λ _, Ok (λ _, None) |}.

Definition entries : list DirEntry :=
  [file "2023-12-01-winter.md"; file "2024-01-01-new-year.md";
   file "2024-06-01-summer.md"; file "2024-07-01-secret.md";
   dir "images"; file "notes.txt"; file "quoted.md"].

Definition site : World := world (Ok "title: Demo") entries.

(** the posts that [parsePosts] collects in [site], in the order of
    the listing *)
Definition posts : list Post :=
  Eval vm_compute in
    match (parsePosts site).2 with
    | Ok collected => collected
    | Err _ => []
    end.

(** the same site without [site.yml] *)
Definition unconfigured : World :=
  world (Err "open site.yml: no such file or directory") entries.

(** a site with two content files of the same slug *)
Definition twins : World :=
  world (Ok "title: Demo")
    [file "2024-06-01-summer.md"; file "2024-08-01-summer.md"].

(** the collection, sorted as [runGenerate] sorts it *)
Definition sorted : list Post := Eval vm_compute in sortSlice byDate posts.

Definition config : SiteConfig :=
  {| cfg_Title := "Demo"; cfg_URL := "https://example.com";
     cfg_Description := "" |}.

End Demo.

(** ** What a run shows, and what the properties speak of *)

Section Observations.
Context `{GoLib}.

(** a template was executed on this context *)
Definition executed (tr : list Event) (ctx : PageContext) : Prop :=
  ∃ path name, EvExecute path name ctx ∈ tr.

(** this feed was handed to the encoder *)
Definition encoded (tr : list Event) (feed : RSSFeed) : Prop :=
  ∃ path, EvEncode path feed ∈ tr.

Definition postsOfContext (ctx : PageContext) : list Post :=
  match ctx with
  | CtxHome c => home_Posts c
  | CtxPost c => [page_Post c]
  | CtxArchive c => arch_Years c ≫= yg_Posts
  end.

(** the post is on a page of the run *)
Definition published (tr : list Event) (post : Post) : Prop :=
  ∃ ctx, executed tr ctx ∧ post ∈ postsOfContext ctx.

(** the item is in a feed of the run *)
Definition syndicated (tr : list Event) (item : RSSItem) : Prop :=
  ∃ feed, encoded tr feed ∧ item ∈ chan_Items (feed_Channel feed).

(** the paths of the per-post pages, one for each page written *)
Definition pagePaths (tr : list Event) : list string :=
  omap (λ e, match e with
             | EvExecute path _ (CtxPost _) => Some path
             | _ => None
             end) tr.

(** the effects of a run on the output tree *)
Definition isOutput (e : Event) : bool :=
  match e with
  | EvMkdirAll _ | EvRemoveAll _ | EvCreate _ | EvExecute _ _ _
  | EvWriteString _ _ | EvEncode _ _ | EvWriteFile _ _ | EvCopyDir _ _ => true
  | EvReadFile _ | EvReadDir _ | EvStat _ | EvParseFiles _ | EvPrint _ => false
  end.

Definition outputs (tr : list Event) : list Event :=
  List.filter isOutput tr.

(** the front matter of the content file [name], when the file can
    be read and converted *)
Definition frontMatter (w : World) (name : string)
    : option (gmap string Value) :=
  match ReadFile w (filepath.Join [contentDir; name]) with
  | Ok source =>
      match mdConvert source with
      | Ok (_, metaData) => Some metaData
      | Err _ => None
      end
  | Err _ => None
  end.

(** the posts that [parsePosts] collects: the non-draft posts *)
Definition collection (w : World) (posts : list Post) : Prop :=
  outcome (parsePosts w) = Ok posts.

(** the post that [parsePost] builds from a content file of the
    directory whose front matter does not say [draft: true] *)
Definition builtFrom (w : World) (entry : DirEntry) (post : Post) : Prop :=
  skipped entry = false
  ∧ (∃ metaData, frontMatter w (Name entry) = Some metaData
                 ∧ metaData !! "draft" ≠ Some (VBool true))
  ∧ outcome (parsePost w (Name entry)) = Ok (Some post).

(** the same world with another listing of the content directory *)
Definition setEntries (w : World) (entries : list DirEntry) : World :=
  {| ReadFile := ReadFile w;
     ReadDir := λ path,
       if bool_decide (path = contentDir) then Ok entries else ReadDir w path;
     Stat := Stat w;
     MkdirAll := MkdirAll w;
     RemoveAll := RemoveAll w;
     Create := Create w;
     WriteString := WriteString w;
     Encode := Encode w;
     WriteFile := WriteFile w;
     CopyDir := CopyDir w;
     ParseFiles := ParseFiles w |}.

(** the content files of a listing that are not drafts: entries
    that are not skipped and whose front matter does not say
    [draft: true] *)
Definition contributes (w : World) (entry : DirEntry) : bool :=
  negb (skipped entry)
  && match frontMatter w (Name entry) with
     | Some metaData => negb (isDraft metaData)
     | None => false
     end.

(** the content files of a listing whose front matter says
    [draft: true] *)
Definition draftFile (w : World) (entry : DirEntry) : bool :=
  negb (skipped entry)
  && match frontMatter w (Name entry) with
     | Some metaData => isDraft metaData
     | None => false
     end.

(** a template execution or an encoding of the feed *)
Definition isRender (e : Event) : bool :=
  match e with
  | EvExecute _ _ _ | EvEncode _ _ => true
  | _ => false
  end.

Definition quiet (e : Event) : Prop := isRender e = false.

(** the operation behind an event *)
Inductive Kind :=
| KReadFile | KReadDir | KStat | KMkdirAll | KRemoveAll | KParseFiles
| KCreate | KExecute | KWriteString | KEncode | KWriteFile | KCopyDir
| KPrint.

#[export] Instance Kind_eq_dec : EqDecision Kind.
Proof. solve_decision. Defined.

Definition kind (e : Event) : Kind :=
  match e with
  | EvReadFile _ => KReadFile
  | EvReadDir _ => KReadDir
  | EvStat _ => KStat
  | EvMkdirAll _ => KMkdirAll
  | EvRemoveAll _ => KRemoveAll
  | EvParseFiles _ => KParseFiles
  | EvCreate _ => KCreate
  | EvExecute _ _ _ => KExecute
  | EvWriteString _ _ => KWriteString
  | EvEncode _ _ => KEncode
  | EvWriteFile _ _ => KWriteFile
  | EvCopyDir _ _ => KCopyDir
  | EvPrint _ => KPrint
  end.

(** every event of the trace is of one of these kinds *)
Definition only (kinds : list Kind) (tr : list Event) : Prop :=
  Forall (λ e, kind e ∈ kinds) tr.

(** two computations with the same outcome and the same effects on
    the output tree *)
Definition sameOutput {A} (m1 m2 : IO A) : Prop :=
  outcome m1 = outcome m2 ∧ outputs (trace m1) = outputs (trace m2).

(** the contexts that the home page and the archive page are
    executed on *)
Definition homeContext (site : SiteConfig) (posts : list Post) : PageContext :=
  CtxHome {| home_Site := site; home_Posts := capped postsPerPage posts |}.

Definition archiveContext (site : SiteConfig) (posts : list Post)
    : PageContext :=
  CtxArchive {| arch_Site := site; arch_Years := archiveYears posts |}.

Definition postContext (site : SiteConfig) (post : Post) : PageContext :=
  CtxPost {| page_Site := site; page_Post := post |}.

(** the renderings of a site with the posts [sorted]: a page for
    each post, the home page, the archive page, the feed *)
Definition renderOf (site : SiteConfig) (sorted : list Post) (e : Event)
    : Prop :=
  (∃ post, post ∈ sorted
           ∧ e = EvExecute (postPath (Slug post)) "post.html"
                   (postContext site post))
  ∨ e = EvExecute (filepath.Join [outputDir; "index.html"]) "home.html"
          (homeContext site sorted)
  ∨ e = EvExecute
          (filepath.Join [filepath.Join [outputDir; "archive"]; "index.html"])
          "archive.html" (archiveContext site sorted)
  ∨ e = EvEncode (filepath.Join [outputDir; "feed.xml"]) (buildFeed site sorted).

(** a configuration with the defaults for an empty title or URL *)
Definition withDefaults (cfg : SiteConfig) : SiteConfig :=
  {| cfg_Title :=
       if bool_decide (cfg_Title cfg = "") then "My Blog" else cfg_Title cfg;
     cfg_URL :=
       if bool_decide (cfg_URL cfg = "") then "https://example.com"
       else cfg_URL cfg;
     cfg_Description := cfg_Description cfg |}.

(** the post record that [parsePost] fills in *)
Definition mkPost (filename html : string) (metaData : gmap string Value)
    (date : Time) : Post :=
  let title := stringField metaData "title" in
  {| Title := if bool_decide (title = "") then "Untitled" else title;
     Slug := deriveSlug filename;
     Date := date;
     Description := stringField metaData "description";
     Content := html;
     URL := "/posts/" +:+ deriveSlug filename +:+ "/" |}.

(** the post is dated in the calendar year [year] *)
Definition inYear (year : Z) (post : Post) : Prop :=
  Year (Date post) = year.

#[export] Instance inYear_dec year post : Decision (inYear year post).
Proof. unfold inYear. apply _. Defined.

(** the years of the groups go down *)
Definition yearsDescend (a b : YearGroup) : Prop := yg_Year b < yg_Year a.

Definition byYear (a b : YearGroup) : bool :=
  bool_decide (yg_Year b < yg_Year a).

Definition mkGroup (kv : Z * list Post) : YearGroup :=
  {| yg_Year := kv.1; yg_Posts := kv.2 |}.

(** "most recent first" *)
Definition notOlder (a b : Post) : Prop :=
  instant (Date b) ≤ instant (Date a).

End Observations.

(** The shape of a file name that has a prefix to remove, in two
    readings.  [isDashPrefix]: eleven bytes with a hyphen at offsets
    4, 7 and 10.  [isDatePrefix]: the same with decimal digits at the
    other eight offsets, a prefix that looks like a calendar date. *)
Definition isDashPrefix (prefix : string) : bool :=
  bool_decide (Str.len prefix = 11%nat)
  && Str.is_byte hyphen (Str.at_ prefix 4)
  && Str.is_byte hyphen (Str.at_ prefix 7)
  && Str.is_byte hyphen (Str.at_ prefix 10).

Definition isDatePrefix (prefix : string) : bool :=
  isDashPrefix prefix
  && forallb (λ i, is_digit (Str.at_ prefix i)) [0; 1; 2; 3; 5; 6; 8; 9]%nat.

(** The slug rule for one file name, given the shape of the prefix:
    a name [prefix ++ rest ++ ".md"] with a prefix of the shape and a
    remainder that is not empty has the slug [rest]; a name whose
    stem is not of that form has its stem as slug. *)
Definition slugRule (shape : string → bool) (filename : string) : Prop :=
  (∀ prefix rest,
     shape prefix = true → rest ≠ "" →
     filename = prefix +:+ rest +:+ ".md" →
     deriveSlug filename = rest)
  ∧ ((¬ ∃ prefix rest,
        shape prefix = true ∧ rest ≠ ""
        ∧ Str.TrimSuffix filename ".md" = prefix +:+ rest) →
     deriveSlug filename = Str.TrimSuffix filename ".md").

(** A name that is one component of a path: not empty, not [.] or
    [..], and without a slash. *)
Fixpoint noSlash (s : string) : bool :=
  match s with
  | "" => true
  | String c s' => negb (bool_decide (c = "/"%char)) && noSlash s'
  end.

Definition plainName (s : string) : bool :=
  negb (bool_decide (s = "")) && negb (bool_decide (s = "."))
  && negb (bool_decide (s = "..")) && noSlash s.

(** Three statements of the specification that the code does not
    keep, as the specification has them. *)

Section AsWritten.
Context `{GoLib}.

(** C6 as written: a configuration file that cannot be read is
    made up for by the default title and URL. *)
Definition defaultsWhenUnreadable (w : World) : Prop :=
  (∃ msg, ReadFile w "site.yml" = Err msg) →
  ∃ site, outcome (loadConfig w) = Ok site
          ∧ cfg_Title site = "My Blog"
          ∧ cfg_URL site = "https://example.com".

(** C7 as written: as many distinct page paths as content files
    that are not drafts. *)
Definition onePathPerFile (w : World) : Prop :=
  ∀ entries,
    ReadDir w contentDir = Ok entries →
    outcome (runGenerate w) = Ok () →
    length (remove_dups (pagePaths (trace (runGenerate w))))
    = length (List.filter (contributes w) entries).

(** [strings.Contains] *)
Definition Contains (s sub : string) : Prop :=
  ∃ before after, s = before +:+ sub +:+ after.

(** C8 as written: the "last build" date of the feed is the date
    of the first post, and the document of a feed without posts
    has no such element. *)
Definition lastBuildOrAbsent (site : SiteConfig) (sorted : list Post) : Prop :=
  let feed := buildFeed site sorted in
  (∀ first rest, sorted = first :: rest →
     chan_LastBuild (feed_Channel feed) = FormatRFC1123Z (Date first))
  ∧ (sorted = [] → ¬ Contains (feedDocument feed) "<lastBuildDate>").

End AsWritten.

(** * The other commands: [new], [clean], [init] *)

(** ** [slugify] *)

(** [strings.ToLower], which maps by Unicode case. *)
Class GoStrings := {
  ToLower : string → string;
}.

(** a byte that the expression [[^a-z0-9]] does not match *)
Definition isSlugByte (c : ascii) : bool :=
  let n := nat_of_ascii c in
  bool_decide (97 ≤ n ≤ 122)%nat || bool_decide (48 ≤ n ≤ 57)%nat.

(** [regexp.MustCompile(`[^a-z0-9]+`).ReplaceAllString(s, "-")]: each
    maximal run of bytes other than [a-z0-9] becomes one hyphen.  A
    character outside ASCII is a run of such bytes, so that the bytes
    can stand for the characters.  [inRun] says that the byte before
    was replaced. *)
Fixpoint replaceRuns (inRun : bool) (s : string) : string :=
  match s with
  | "" => ""
  | String c s' =>
      if isSlugByte c then String c (replaceRuns false s')
      else if inRun then replaceRuns true s'
      else String hyphen (replaceRuns true s')
  end.

(** [strings.Trim(s, "-")], from the left and from the right *)
Fixpoint trimLeft (s : string) : string :=
  match s with
  | "" => ""
  | String c s' => if bool_decide (c = hyphen) then trimLeft s' else s
  end.

Fixpoint trimRight (s : string) : string :=
  match s with
  | "" => ""
  | String c s' =>
      let t := trimRight s' in
      if bool_decide (c = hyphen) && bool_decide (t = "") then ""
      else String c t
  end.

Definition slugify `{GoStrings} (s : string) : string :=
  trimRight (trimLeft (replaceRuns false (ToLower s))).

(** Lower-case letters and digits in groups, one hyphen between two
    groups: no other byte, no hyphen first or last, no two hyphens in
    a row.  [afterHyphen] says that a hyphen may not come next. *)
Fixpoint slugShapeFrom (afterHyphen : bool) (s : string) : bool :=
  match s with
  | "" => negb afterHyphen
  | String c s' =>
      if isSlugByte c then slugShapeFrom false s'
      else bool_decide (c = hyphen) && negb afterHyphen && slugShapeFrom true s'
  end.

Definition slugShape (s : string) : bool :=
  bool_decide (s = "") || slugShapeFrom true s.

(** the same without the conditions on the first and the last byte *)
Fixpoint hyphensApart (afterHyphen : bool) (s : string) : bool :=
  match s with
  | "" => true
  | String c s' =>
      if isSlugByte c then hyphensApart false s'
      else bool_decide (c = hyphen) && negb afterHyphen && hyphensApart true s'
  end.

(** a date flag of the form that [new] proposes: ten bytes, hyphens
    after the year and the month *)
Definition isDateFlag (date : string) : bool :=
  bool_decide (Str.len date = 10%nat)
  && Str.is_byte hyphen (Str.at_ date 4)
  && Str.is_byte hyphen (Str.at_ date 7).

(** ** [runNew] *)

(** the flags of [new], as [fs.Parse] leaves them *)
Record NewFlags := {
  flag_title : string;
  flag_date : string;
  flag_description : string;
  flag_url : string;
  flag_stdin : bool;
}.

(** What the machine answers to [new] and [init]: [convertURL] and
    [convertStdin], which run [curl] and [pandoc], and [os.Stat] with
    [IsDir] of what it found. *)
Record Host := {
  ConvertURL : string → result string;
  ConvertStdin : result string;
  StatIsDir : string → result bool;
}.

(** [fmt.Sprintf("%s-%s.md", date, slug)] *)
Definition newFileName (date slug : string) : string :=
  date +:+ "-" +:+ slug +:+ ".md".

(** the text that [runNew] collects in its buffer *)
Definition newFileText (title date description body : string) : string :=
  "---" +:+ nl
  +:+ "title: " +:+ dq +:+ title +:+ dq +:+ nl
  +:+ "date: " +:+ date +:+ nl
  +:+ (if bool_decide (description = "") then ""
       else "description: " +:+ dq +:+ description +:+ dq +:+ nl)
  +:+ "---" +:+ nl
  +:+ (if bool_decide (body = "") then "" else nl +:+ body +:+ nl).

Section Commands.
Context `{GoTime} `{GoStrings}.

Definition newBody (host : Host) (flags : NewFlags) : IO string :=
  if negb (bool_decide (flag_url flags = "")) then
    wrap "converting URL" (([], ConvertURL host (flag_url flags)) : IO string)
  else if flag_stdin flags then
    wrap "converting stdin" (([], ConvertStdin host) : IO string)
  else mret "".

Definition runNew (w : World) (host : Host) (flags : NewFlags) : IO unit :=
  if bool_decide (flag_title flags = "") then ([], Err "--title is required")
  else
    let slug := slugify (flag_title flags) in
    let filename := newFileName (flag_date flags) slug in
    let path := filepath.Join [contentDir; filename] in
    body ← newBody host flags;
    let text :=
      newFileText (flag_title flags) (flag_date flags)
        (flag_description flags) body in
    wrap "creating content dir" (mkdirAll w contentDir);;
    wrap "writing post" (op (EvWriteFile path text) (WriteFile w path text));;
    Println path.

(** ** [runClean] *)

Definition runClean (w : World) : IO unit :=
  wrap "cleaning output dir" (cleanDir w outputDir);;
  Println "Cleaned output directory".

(** ** [runInit] *)

(** The texts that [runInit] writes into the templates and the style
    sheet.  They are literals of the program that nothing here reads;
    the configuration and the ignore file are spelled out. *)
Record Scaffold := {
  baseHTML : string;
  homeHTML : string;
  postHTML : string;
  archiveHTML : string;
  styleCSS : string;
}.

Definition siteYml : string :=
  "title: " +:+ dq +:+ "My Blog" +:+ dq +:+ nl
  +:+ "url: " +:+ dq +:+ "https://example.com" +:+ dq +:+ nl
  +:+ "description: " +:+ dq +:+ "A blog about things" +:+ dq +:+ nl.

Definition gitignore : string := ".env" +:+ nl +:+ ".DS_Store" +:+ nl.

(** [for _, e := range entries]: the first entry that is neither
    [.git] nor [.DS_Store] ends the command. *)
Fixpoint checkEmpty (target : string) (entries : list DirEntry) : IO unit :=
  match entries with
  | [] => mret ()
  | e :: rest =>
      if bool_decide (Name e = ".git") || bool_decide (Name e = ".DS_Store")
      then checkEmpty target rest
      else ([], Err (target +:+ " is not empty"))
  end.

Fixpoint makeDirs (w : World) (dirs : list string) : IO unit :=
  match dirs with
  | [] => mret ()
  | dir :: rest =>
      wrap ("creating " +:+ dir) (mkdirAll w dir);;
      makeDirs w rest
  end.

Definition writeFile (w : World) (path data : string) : IO unit :=
  op (EvWriteFile path data) (WriteFile w path data).

Fixpoint writeEmpty (w : World) (paths : list string) : IO unit :=
  match paths with
  | [] => mret ()
  | path :: rest => writeFile w path "";; writeEmpty w rest
  end.

Definition runInit (w : World) (host : Host) (texts : Scaffold)
    (args : list string) : IO unit :=
  let target := match args with [] => "." | arg :: _ => arg end in
  op (EvStat target) None;;
  match StatIsDir host target with
  | Ok isDir =>
      if negb isDir then
        ([], Err (target +:+ " exists and is not a directory")) : IO unit
      else
        entries ← wrap ("reading " +:+ target) (readDir w target);
        checkEmpty target entries
  | Err _ => mret ()
  end;;
  makeDirs w [filepath.Join [target; "posts"];
              filepath.Join [target; "docs"];
              filepath.Join [target; "templates"];
              filepath.Join [target; "static"; "css"]];;
  writeFile w (filepath.Join [target; "site.yml"]) siteYml;;
  writeEmpty w [filepath.Join [target; "posts"; ".gitkeep"];
                filepath.Join [target; "docs"; ".gitkeep"]];;
  writeFile w (filepath.Join [target; ".gitignore"]) gitignore;;
  writeFile w (filepath.Join [target; "templates"; "base.html"]) (baseHTML texts);;
  writeFile w (filepath.Join [target; "templates"; "home.html"]) (homeHTML texts);;
  writeFile w (filepath.Join [target; "templates"; "post.html"]) (postHTML texts);;
  writeFile w (filepath.Join [target; "templates"; "archive.html"])
    (archiveHTML texts);;
  writeFile w (filepath.Join [target; "static"; "css"; "style.css"])
    (styleCSS texts);;
  Printf ("Created blog at " +:+ target +:+ nl);;
  Println "";;
  Println "Next steps:";;
  (if bool_decide (target = ".") then mret ()
   else Printf ("  cd " +:+ target +:+ nl));;
  Println "  Edit site.yml with your blog details";;
  Println ("  blog new --title " +:+ dq +:+ "My First Post" +:+ dq);;
  Println "  blog generate";;
  Println "  blog serve".

End Commands.

(** An instance of [strings.ToLower] for ASCII text. *)
Module Ascii7.

Definition lower (c : ascii) : ascii :=
  let n := nat_of_ascii c in
  if bool_decide (65 ≤ n ≤ 90)%nat then ascii_of_nat (n + 32) else c.

Fixpoint toLower (s : string) : string :=
  match s with
  | "" => ""
  | String c s' => String (lower c) (toLower s')
  end.

Definition strings : GoStrings := {| ToLower := toLower |}.

(** a machine without network and without standard input, on which
    nothing exists yet *)
Definition host : Host :=
  {| ConvertURL := λ _, Err "curl failed";
     ConvertStdin := Err "pandoc failed";
     StatIsDir := λ _, Err "no such file or directory" |}.

Definition flags : NewFlags :=
  {| flag_title := "Hello, World!";
     flag_date := "2026-02-19";
     flag_description := "";
     flag_url := "";
     flag_stdin := false |}.

Definition texts : Scaffold :=
  {| baseHTML := "base"; homeHTML := "home"; postHTML := "post";
     archiveHTML := "archive"; styleCSS := "style" |}.

End Ascii7.

(** ** What the properties of the commands speak of *)

Section Stages.
Context `{GoLib}.

(** the run rendered the whole site: a page for every post of the
    sorted collection, the home page, the archive page and the feed *)
Definition rendered (w : World) : Prop :=
  ∃ site posts,
    outcome (loadConfig w) = Ok site ∧ collection w posts
    ∧ let sorted := sortSlice byDate posts in
      let tr := trace (runGenerate w) in
      (∀ post, post ∈ sorted → executed tr (postContext site post))
      ∧ executed tr (homeContext site sorted)
      ∧ executed tr (archiveContext site sorted)
      ∧ encoded tr (buildFeed site sorted)
      ∧ pagePaths tr = (λ post, postPath (Slug post)) <$> sorted.

(** the entry is passed over, or its file is parsed without error *)
Definition parses (w : World) (entry : DirEntry) : Prop :=
  skipped entry = true ∨ ∃ post, outcome (parsePost w (Name entry)) = Ok post.

End Stages.

(** the contexts that [loadConfig] and [runGenerate] give to the
    errors of their steps *)
Definition generateSteps : list string :=
  ["reading site.yml"; "parsing site.yml"; "cleaning output dir";
   "parsing templates"; "parsing posts"; "generating post pages";
   "generating home page"; "generating archive page"; "generating RSS feed";
   "copying static files"; "writing .nojekyll"].

(** the names that [runInit] accepts in the directory it fills *)
Definition tolerated (entry : DirEntry) : Prop :=
  Name entry = ".git" ∨ Name entry = ".DS_Store".

(** Sites and machines on which a step fails or an edge is met. *)
Module Cases.

#[local] Existing Instance Civil.time.
#[local] Existing Instance Demo.lib.

(** a site with a content file that cannot be read *)
Definition broken : World :=
  Demo.world (Ok "title: Demo")
    [Demo.file "2023-12-01-winter.md"; Demo.file "missing.md";
     Demo.file "2024-06-01-summer.md"].

(** a site whose only content file is a draft *)
Definition blank : World :=
  Demo.world (Ok "title: Demo") [Demo.file "2024-07-01-secret.md"].

(** the example site after a run: the output directory has entries *)
Definition built : World :=
  {| ReadFile := ReadFile Demo.site;
     ReadDir := λ path,
       if bool_decide (path = outputDir)
       then Ok [Demo.file "index.html"; Demo.dir "posts"; Demo.file ".gitkeep"]
       else ReadDir Demo.site path;
     Stat := λ _, None;
     MkdirAll := MkdirAll Demo.site;
     RemoveAll := RemoveAll Demo.site;
     Create := Create Demo.site;
     WriteString := WriteString Demo.site;
     Encode := Encode Demo.site;
     WriteFile := WriteFile Demo.site;
     CopyDir := CopyDir Demo.site;
     ParseFiles := ParseFiles Demo.site |}.

(** the example site where the page of one post cannot be created *)
Definition guarded : World :=
  {| ReadFile := ReadFile Demo.site;
     ReadDir := ReadDir Demo.site;
     Stat := Stat Demo.site;
     MkdirAll := MkdirAll Demo.site;
     RemoveAll := RemoveAll Demo.site;
     Create := λ path,
       if bool_decide (path = "docs/posts/new-year/index.html")
       then Some "permission denied" else None;
     WriteString := WriteString Demo.site;
     Encode := Encode Demo.site;
     WriteFile := WriteFile Demo.site;
     CopyDir := CopyDir Demo.site;
     ParseFiles := ParseFiles Demo.site |}.

(** a converter that takes the text of a file for its date *)
Definition sloppy : GoLib :=
  {| sortSlice := λ A less,
       @merge_sort A (λ a b, less b a = false)
         (λ a b, decide (less b a = false));
     rangeMap := λ V m, map_to_list m;
     mdConvert := λ source, Ok ("", Demo.meta "Late" source None);
     yamlUnmarshal := Demo.unmarshal;
     xmlEscape := Demo.escape;
     quote := λ s, dq +:+ s +:+ dq;
     itoa := λ n, Civil.decimal (S n) (Z.of_nat n) |}.

(** a site with one content file, whose date is not a date *)
Definition misdated : World :=
  Demo.world (Ok "title: Demo") [Demo.file "quoted.md"].

(** a machine on which every path is a directory *)
Definition crowded : Host :=
  {| ConvertURL := λ _, Err "curl failed";
     ConvertStdin := Err "pandoc failed";
     StatIsDir := λ _, Ok true |}.

(** the flags of [new --title ... --url ...] *)
Definition fetch : NewFlags :=
  {| flag_title := "Fetched";
     flag_date := "2026-02-19";
     flag_description := "";
     flag_url := "https://example.com/page";
     flag_stdin := false |}.

End Cases.

(** * Properties *)

Arguments filepath.Join : simpl never.

Module StrFacts.
Import Str.

Lemma len_app a b : len (a +:+ b) = (len a + len b)%nat.
Proof. unfold len. induction a as [|c a IH]; simpl; [done | by rewrite IH]. Qed.

Lemma substring_all s : String.substring 0 (len s) s = s.
Proof. unfold len. induction s as [|c s IH]; simpl; [done | by rewrite IH]. Qed.

Lemma substring_app_l a b : String.substring 0 (len a) (a +:+ b) = a.
Proof.
  unfold len. induction a as [|c a IH]; simpl.
  - by destruct b.
  - by rewrite IH.
Qed.

Lemma substring_app_r a b n :
  String.substring (len a) n (a +:+ b) = String.substring 0 n b.
Proof. unfold len. induction a as [|c a IH]; simpl; done. Qed.

Lemma from_app a b : from (a +:+ b) (len a) = b.
Proof.
  unfold from. rewrite len_app, substring_app_r.
  replace (len a + len b - len a)%nat with (len b) by lia.
  apply substring_all.
Qed.

Lemma upto_app a b : upto (a +:+ b) (len a) = a.
Proof. apply substring_app_l. Qed.

Lemma at_app_l a b i : (i < len a)%nat → at_ (a +:+ b) i = at_ a i.
Proof.
  unfold at_, len. revert i. induction a as [|c a IH]; simpl; intros i Hi.
  - lia.
  - destruct i as [|i]; [done |]. apply IH. lia.
Qed.

Lemma HasSuffix_app a b : HasSuffix (a +:+ b) b = true.
Proof.
  unfold HasSuffix. rewrite len_app.
  replace (len a + len b - len b)%nat with (len a) by lia.
  rewrite from_app. rewrite !bool_decide_eq_true_2; [done | done | lia].
Qed.

Lemma TrimSuffix_app a b : TrimSuffix (a +:+ b) b = a.
Proof.
  unfold TrimSuffix. rewrite HasSuffix_app, len_app.
  replace (len a + len b - len b)%nat with (len a) by lia.
  apply upto_app.
Qed.

Lemma app_assoc a b c : (a +:+ b) +:+ c = a +:+ (b +:+ c).
Proof.
  induction a as [|x a IH]; [done |].
  change (String x ((a +:+ b) +:+ c) = String x (a +:+ (b +:+ c))).
  by rewrite IH.
Qed.

Lemma len_0 s : len s = 0%nat → s = "".
Proof. by destruct s. Qed.

Lemma app_cons c a b : String c a +:+ b = String c (a +:+ b).
Proof. done. Qed.

Lemma app_nil_l b : "" +:+ b = b.
Proof. done. Qed.

Lemma app_nil_r a : a +:+ "" = a.
Proof.
  induction a as [|c a IH]; [done |]. by rewrite app_cons, IH.
Qed.

End StrFacts.

(** ** C1: the slug of a file name *)

Section Slug.
Import Str StrFacts.

Lemma substring_split s n :
  (n ≤ len s)%nat →
  s = String.substring 0 n s +:+ String.substring n (len s - n) s.
Proof.
  unfold len. revert n. induction s as [|c s IH]; intros n Hn.
  - simpl in Hn. by replace n with 0%nat by lia.
  - destruct n as [|n].
    + simpl. rewrite app_nil_l. f_equal. symmetry. apply substring_all.
    + simpl in *. rewrite app_cons. f_equal. apply IH. lia.
Qed.

Lemma upto_from s n : (n ≤ len s)%nat → s = upto s n +:+ from s n.
Proof. apply substring_split. Qed.

Lemma len_upto s n : (n ≤ len s)%nat → len (upto s n) = n.
Proof.
  unfold upto, len. revert n. induction s as [|c s IH]; intros n Hn.
  - simpl in Hn. by replace n with 0%nat by lia.
  - destruct n as [|n]; [done |]. simpl in *. f_equal. apply IH. lia.
Qed.

Lemma app_inv_len a b a' b' :
  a +:+ b = a' +:+ b' → len a = len a' → a = a' ∧ b = b'.
Proof.
  revert a'. induction a as [|c a IH]; intros [|c' a'] Heq Hlen;
    try discriminate Hlen.
  - by rewrite !app_nil_l in Heq.
  - rewrite !app_cons in Heq. injection Heq as -> Heq.
    injection Hlen as Hlen. destruct (IH _ Heq Hlen) as [-> ->]. done.
Qed.

Lemma at_upto s n i : (i < n ≤ len s)%nat → at_ (upto s n) i = at_ s i.
Proof.
  intros [Hi Hn]. rewrite (upto_from s n Hn) at 2.
  symmetry. apply at_app_l. rewrite len_upto; lia.
Qed.

Lemma hasDashes_app prefix rest :
  isDashPrefix prefix = true → rest ≠ "" →
  hasDashes (prefix +:+ rest) = true.
Proof.
  unfold isDashPrefix, hasDashes. intros Hp Hrest.
  repeat (apply andb_true_iff in Hp as [Hp ?]).
  apply bool_decide_eq_true_1 in Hp.
  rewrite len_app, !at_app_l by lia.
  repeat (apply andb_true_iff; split); try done.
  apply bool_decide_eq_true_2.
  destruct rest; [done |]. unfold len in *. simpl. lia.
Qed.

Lemma hasDashes_split name :
  hasDashes name = true →
  isDashPrefix (upto name 11) = true ∧ from name 11 ≠ ""
  ∧ name = upto name 11 +:+ from name 11.
Proof.
  unfold hasDashes, isDashPrefix. intros Hd.
  repeat (apply andb_true_iff in Hd as [Hd ?]).
  apply bool_decide_eq_true_1 in Hd.
  assert (Hsplit := upto_from name 11 ltac:(lia)).
  split; [| split; [| done]].
  - rewrite !at_upto by lia.
    repeat (apply andb_true_iff; split); try done.
    apply bool_decide_eq_true_2, len_upto. lia.
  - intros Hempty. rewrite Hempty, app_nil_r in Hsplit.
    apply (f_equal len) in Hsplit. rewrite len_upto in Hsplit; lia.
Qed.

Lemma isDatePrefix_dash prefix :
  isDatePrefix prefix = true → isDashPrefix prefix = true.
Proof. unfold isDatePrefix. by intros [? _]%andb_true_iff. Qed.

Lemma deriveSlug_prefixed prefix rest :
  isDashPrefix prefix = true → rest ≠ "" →
  deriveSlug (prefix +:+ rest +:+ ".md") = rest.
Proof.
  intros Hp Hrest. unfold deriveSlug.
  rewrite <- app_assoc, TrimSuffix_app, (hasDashes_app _ _ Hp Hrest).
  unfold isDashPrefix in Hp. repeat (apply andb_true_iff in Hp as [Hp _]).
  apply bool_decide_eq_true_1 in Hp. rewrite <- Hp. apply from_app.
Qed.

(** C1, as the code has it: the prefix that is removed is any
    eleven bytes with hyphens at offsets 4, 7 and 10, before a
    remainder that is not empty; every other stem is the slug. *)
Theorem deriveSlug_dash_prefix (filename : string) :
  slugRule isDashPrefix filename.
Proof.
  split.
  - intros prefix rest Hp Hrest ->. by apply deriveSlug_prefixed.
  - intros Hno. unfold deriveSlug.
    destruct (hasDashes (TrimSuffix filename ".md")) eqn:Hd; [| done].
    destruct (hasDashes_split _ Hd) as (Hp & Hrest & Hsplit).
    destruct Hno. eauto.
Qed.

(** The first half of the rule holds for date-looking prefixes too:
    a file named [YYYY-MM-DD-rest.md] has the slug [rest]. *)
Lemma deriveSlug_date_prefix prefix rest :
  isDatePrefix prefix = true → rest ≠ "" →
  deriveSlug (prefix +:+ rest +:+ ".md") = rest.
Proof. intros Hp. apply deriveSlug_prefixed, isDatePrefix_dash, Hp. Qed.

(** C1, as it is written, fails on a stem whose prefix has the
    hyphens and no digits: the stem has no date-looking prefix, and
    the slug is not the stem. *)
Lemma deriveSlug_not_date_rule :
  ¬ slugRule isDatePrefix "abcd-ef-gh-rest.md".
Proof.
  intros [_ Hstem].
  assert (Hslug : deriveSlug "abcd-ef-gh-rest.md" = "rest") by reflexivity.
  rewrite Hslug in Hstem.
  assert (Hno : "rest" = TrimSuffix "abcd-ef-gh-rest.md" ".md");
    [| discriminate Hno].
  apply Hstem. intros (prefix & rest & Hp & _ & Heq).
  change (TrimSuffix "abcd-ef-gh-rest.md" ".md")
    with ("abcd-ef-gh-" +:+ "rest") in Heq.
  assert (Hlen : len prefix = 11%nat).
  { apply isDatePrefix_dash in Hp. unfold isDashPrefix in Hp.
    repeat (apply andb_true_iff in Hp as [Hp _]).
    by apply bool_decide_eq_true_1 in Hp. }
  symmetry in Heq. apply app_inv_len in Heq as [-> _]; [| done].
  discriminate Hp.
Qed.

Lemma deriveSlug_dash_prefix_witness :
  deriveSlug "2026-02-19-hello-world.md" = "hello-world"
  ∧ deriveSlug "notes.md" = "notes".
Proof.
  split.
  - destruct (deriveSlug_dash_prefix "2026-02-19-hello-world.md") as [Hdate _].
    apply (Hdate "2026-02-19-" "hello-world"); [reflexivity | discriminate | reflexivity].
  - destruct (deriveSlug_dash_prefix "notes.md") as [_ Hstem].
    apply Hstem. intros (prefix & rest & Hp & _ & Heq).
    unfold isDashPrefix in Hp. repeat (apply andb_true_iff in Hp as [Hp _]).
    apply bool_decide_eq_true_1 in Hp.
    apply (f_equal len) in Heq. rewrite len_app, Hp in Heq.
    vm_compute in Heq. lia.
Defined.

End Slug.

(** ** Computations and their traces *)

Section IOFacts.
Context `{GoTime}.

Lemma trace_bind {A B} (m : IO A) (k : A → IO B) :
  trace (m ≫= k)
  = trace m ++ match outcome m with Ok a => trace (k a) | Err _ => [] end.
Proof.
  destruct m as [t [a | msg]]; unfold trace, outcome, mbind, IO_bind; simpl.
  - by destruct (k a).
  - by rewrite app_nil_r.
Qed.

Lemma outcome_bind {A B} (m : IO A) (k : A → IO B) :
  outcome (m ≫= k)
  = match outcome m with Ok a => outcome (k a) | Err msg => Err msg end.
Proof.
  destruct m as [t [a | msg]]; unfold trace, outcome, mbind, IO_bind; simpl.
  - by destruct (k a).
  - done.
Qed.

Lemma bind_ext {A B} (m1 m2 : IO A) (k1 k2 : A → IO B) :
  m1 = m2 → (∀ a, outcome m1 = Ok a → k1 a = k2 a) → m1 ≫= k1 = m2 ≫= k2.
Proof.
  intros <- Hk. destruct m1 as [t [a | msg]]; [| done].
  unfold mbind, IO_bind. by rewrite (Hk a).
Qed.

Lemma io_eq {A} (m1 m2 : IO A) :
  trace m1 = trace m2 → outcome m1 = outcome m2 → m1 = m2.
Proof. destruct m1, m2. unfold trace, outcome. simpl. congruence. Qed.

Lemma trace_wrap {A} context (m : IO A) : trace (wrap context m) = trace m.
Proof. done. Qed.

Lemma outcome_wrap {A} context (m : IO A) :
  outcome (wrap context m) = wrapErr context (outcome m).
Proof. done. Qed.

Lemma wrapErr_Ok {A} context (r : result A) a :
  wrapErr context r = Ok a ↔ r = Ok a.
Proof. destruct r; simpl; split; congruence. Qed.

Lemma trace_ret {A} (a : A) : trace (mret a : IO A) = [].
Proof. done. Qed.

Lemma outcome_ret {A} (a : A) : outcome (mret a : IO A) = Ok a.
Proof. done. Qed.

Lemma trace_op e r : trace (op e r) = [e].
Proof. done. Qed.

Lemma trace_call {A} e (r : result A) : trace (call e r) = [e].
Proof. done. Qed.

Lemma outcome_call {A} e (r : result A) : outcome (call e r) = r.
Proof. done. Qed.

Lemma outcome_bind_Ok {A B} (m : IO A) (k : A → IO B) b :
  outcome (m ≫= k) = Ok b ↔ ∃ a, outcome m = Ok a ∧ outcome (k a) = Ok b.
Proof.
  rewrite outcome_bind. destruct (outcome m) as [a | msg]; split.
  - eauto.
  - by intros (a' & [= ->] & ?).
  - done.
  - by intros (a' & [=] & _).
Qed.

Lemma trace_bind_Ok {A B} (m : IO A) (k : A → IO B) a :
  outcome m = Ok a → trace (m ≫= k) = trace m ++ trace (k a).
Proof. intros Hm. by rewrite trace_bind, Hm. Qed.

Lemma elem_of_trace_bind {A B} (m : IO A) (k : A → IO B) e :
  e ∈ trace (m ≫= k)
  ↔ e ∈ trace m ∨ ∃ a, outcome m = Ok a ∧ e ∈ trace (k a).
Proof.
  rewrite trace_bind, elem_of_app. destruct (outcome m) as [a | msg]; split.
  - intros [? | ?]; eauto.
  - intros [? | (a' & [= ->] & ?)]; eauto.
  - intros [? | []%elem_of_nil]; eauto.
  - intros [? | (a' & [=] & _)]; eauto.
Qed.

Lemma Forall_trace_bind {A B} (P : Event → Prop) (m : IO A) (k : A → IO B) :
  Forall P (trace m) → (∀ a, outcome m = Ok a → Forall P (trace (k a))) →
  Forall P (trace (m ≫= k)).
Proof.
  intros Hm Hk. rewrite trace_bind. apply Forall_app. split; [done |].
  destruct (outcome m); [by apply Hk | constructor].
Qed.

End IOFacts.

(** Splits a goal about every event of a computation into goals about
    its steps. *)
Ltac forall_trace :=
  unfold only; cbv zeta;
  repeat lazymatch goal with
    | |- Forall _ (trace (_ ≫= _)) =>
        apply Forall_trace_bind; [| intros ? ?; cbv zeta]
    | |- Forall _ (trace (wrap _ _)) => rewrite trace_wrap
    | |- Forall _ (trace (op _ _)) => rewrite trace_op; apply Forall_singleton
    | |- Forall _ (trace (call _ _)) => rewrite trace_call; apply Forall_singleton
    | |- Forall _ (trace (mret _)) => apply Forall_nil_2
    | |- Forall _ (trace ([], _)) => apply Forall_nil_2
    end.

(** ** Reading the content directory *)

Section Parsing.
Context `{GoLib}.
Implicit Types (w : World) (entry : DirEntry) (post : Post).

Lemma isDraft_true (metaData : gmap string Value) :
  isDraft metaData = true ↔ metaData !! "draft" = Some (VBool true).
Proof.
  unfold isDraft. destruct (metaData !! "draft") as [[[] | | | |] |];
    simpl; split; (done || congruence).
Qed.

Lemma isDraft_false (metaData : gmap string Value) :
  isDraft metaData = false ↔ metaData !! "draft" ≠ Some (VBool true).
Proof.
  rewrite <- isDraft_true. destruct (isDraft metaData); split; congruence.
Qed.

(** [parsePost] by cases on what the file holds. *)
Lemma parsePost_cases w filename :
  let path := filepath.Join [contentDir; filename] in
  parsePost w filename =
    match ReadFile w path with
    | Err msg => ([EvReadFile path], Err msg)
    | Ok source =>
        match mdConvert source with
        | Err msg => ([EvReadFile path], Err ("converting markdown: " +:+ msg))
        | Ok (html, metaData) =>
            if isDraft metaData then
              ([EvReadFile path;
                EvPrint ("Skipping draft: " +:+ filename +:+ nl)], Ok None)
            else
              match dateField metaData with
              | Ok date =>
                  ([EvReadFile path],
                   Ok (Some (mkPost filename html metaData date)))
              | Err msg => ([EvReadFile path], Err msg)
              end
        end
    end.
Proof.
  intros path. unfold parsePost, readFile, call. fold path.
  unfold mbind, IO_bind, wrap, mret, IO_ret. simpl.
  destruct (ReadFile w path) as [source | msg]; [| done].
  destruct (mdConvert source) as [[html metaData] | msg]; simpl; [| done].
  destruct (isDraft metaData); simpl; [done |].
  destruct (dateField metaData); done.
Qed.

Lemma parsePost_skip w filename :
  outcome (parsePost w filename) = Ok None
  ↔ ∃ metaData, frontMatter w filename = Some metaData
                ∧ metaData !! "draft" = Some (VBool true).
Proof.
  rewrite parsePost_cases. unfold frontMatter. simpl.
  destruct (ReadFile w _) as [source | msg].
  2: { split; [done | by intros (? & [=] & _)]. }
  destruct (mdConvert source) as [[html metaData] | msg].
  2: { split; [done | by intros (? & [=] & _)]. }
  destruct (isDraft metaData) eqn:Hd.
  - apply isDraft_true in Hd. split; eauto.
  - apply isDraft_false in Hd. split.
    + destruct (dateField metaData); done.
    + intros (? & [= <-] & ?). done.
Qed.

Lemma parsePost_post w filename post :
  outcome (parsePost w filename) = Ok (Some post)
  ↔ ∃ source html metaData date,
      ReadFile w (filepath.Join [contentDir; filename]) = Ok source
      ∧ mdConvert source = Ok (html, metaData)
      ∧ metaData !! "draft" ≠ Some (VBool true)
      ∧ dateField metaData = Ok date
      ∧ post = mkPost filename html metaData date.
Proof.
  rewrite parsePost_cases. simpl.
  destruct (ReadFile w _) as [source | msg].
  2: { split; [done | by intros (? & ? & ? & ? & [=] & _)]. }
  destruct (mdConvert source) as [[html metaData] | msg] eqn:Hc.
  2: { split; [done |]. intros (? & ? & ? & ? & [= <-] & Hc' & _).
       congruence. }
  destruct (isDraft metaData) eqn:Hd.
  - apply isDraft_true in Hd. split; [done |].
    intros (? & ? & ? & ? & [= <-] & Hc' & Hnd & _).
    rewrite Hc in Hc'. by injection Hc' as <- <-.
  - apply isDraft_false in Hd.
    destruct (dateField metaData) as [date | msg] eqn:Hdate; split.
    + intros [= <-]. eauto 10.
    + intros (? & ? & ? & ? & [= <-] & Hc' & _ & Hdate' & ->).
      rewrite Hc in Hc'. injection Hc' as <- <-.
      unfold outcome. simpl. congruence.
    + done.
    + intros (? & ? & ? & ? & [= <-] & Hc' & _ & Hdate' & _).
      rewrite Hc in Hc'. injection Hc' as <- <-. congruence.
Qed.

Lemma frontMatter_Some w filename metaData :
  frontMatter w filename = Some metaData
  ↔ ∃ source html,
      ReadFile w (filepath.Join [contentDir; filename]) = Ok source
      ∧ mdConvert source = Ok (html, metaData).
Proof.
  unfold frontMatter. destruct (ReadFile w _) as [source | msg].
  2: { split; [done | by intros (? & ? & [=] & _)]. }
  destruct (mdConvert source) as [[html md] | msg] eqn:Hc; split.
  - intros [= <-]. eauto.
  - intros (? & ? & [= <-] & Hc'). congruence.
  - done.
  - intros (? & ? & [= <-] & Hc'). congruence.
Qed.

Lemma parsePost_builtFrom w entry post :
  skipped entry = false →
  outcome (parsePost w (Name entry)) = Ok (Some post) →
  builtFrom w entry post ∧ contributes w entry = true.
Proof.
  intros Hs Hp. pose proof Hp as Hp'.
  apply parsePost_post in Hp' as (source & html & md & date & Hr & Hc & Hd & _).
  assert (Hfm : frontMatter w (Name entry) = Some md).
  { apply frontMatter_Some. eauto. }
  split.
  - split; [done |]. split; [eauto | done].
  - unfold contributes. rewrite Hs, Hfm. simpl.
    apply isDraft_false in Hd. by rewrite Hd.
Qed.

Lemma parsePost_None_contributes w entry :
  outcome (parsePost w (Name entry)) = Ok None →
  contributes w entry = false.
Proof.
  intros (md & Hfm & Hd%isDraft_true)%parsePost_skip.
  unfold contributes. rewrite Hfm, Hd. apply andb_false_r.
Qed.

Lemma parsePostsLoop_cons w entry rest acc :
  parsePostsLoop w (entry :: rest) acc =
    if skipped entry then parsePostsLoop w rest acc
    else
      post ← wrap ("parsing " +:+ Name entry) (parsePost w (Name entry));
      match post with
      | Some post => parsePostsLoop w rest (acc ++ [post])
      | None => parsePostsLoop w rest acc
      end.
Proof. done. Qed.

(** The posts that the loop adds are those of the entries that
    contribute, in the order of the listing. *)
Lemma parsePostsLoop_Ok w entries acc posts :
  outcome (parsePostsLoop w entries acc) = Ok posts →
  ∃ new, posts = acc ++ new
         ∧ Forall2 (builtFrom w) (List.filter (contributes w) entries) new.
Proof.
  revert acc. induction entries as [|entry rest IH]; intros acc.
  - intros [= <-]. exists []. by rewrite app_nil_r.
  - rewrite parsePostsLoop_cons. cbn [List.filter].
    destruct (skipped entry) eqn:Hs.
    + intros Hok. unfold contributes at 1. rewrite Hs. simpl. by apply IH.
    + rewrite outcome_bind, outcome_wrap.
      destruct (outcome (parsePost w (Name entry))) as [[post |] | msg] eqn:Hp;
        simpl; [| | done].
      * intros (new & -> & Hnew)%IH.
        destruct (parsePost_builtFrom _ _ _ Hs Hp) as [Hb ->].
        exists (post :: new). rewrite <- app_assoc. split; [done |].
        by constructor.
      * rewrite (parsePost_None_contributes _ _ Hp). apply IH.
Qed.

Lemma parsePosts_Ok w posts :
  collection w posts →
  ∃ entries, ReadDir w contentDir = Ok entries
             ∧ Forall2 (builtFrom w) (List.filter (contributes w) entries) posts.
Proof.
  unfold collection, parsePosts. rewrite outcome_bind, outcome_wrap.
  unfold readDir. rewrite outcome_call.
  destruct (ReadDir w contentDir) as [entries | msg]; simpl; [| done].
  intros (new & -> & Hnew)%parsePostsLoop_Ok. eauto.
Qed.

End Parsing.

(** ** The pages and the feed of a collection *)

(** Takes apart [H : e ∈ trace m] along the steps of [m]. *)
Ltac trace_inv H :=
  unfold mkdirAll, create, readFile, readDir, Println, Printf in H;
  cbv zeta in H;
  repeat lazymatch type of H with
    | _ ∈ trace (_ ≫= _) =>
        apply elem_of_trace_bind in H as [H | (? & ? & H)]; cbv zeta in H
    | _ ∈ trace ([], _) => unfold trace in H; simpl in H
    | _ ∈ trace (wrap _ _) => rewrite trace_wrap in H
    | _ ∈ trace (op _ _) => rewrite trace_op in H
    | _ ∈ trace (call _ _) => rewrite trace_call in H
    | _ ∈ trace (mret _) => rewrite trace_ret in H
    | _ ∈ [_] => rewrite list_elem_of_singleton in H
    | _ ∈ [] => rewrite elem_of_nil in H; destruct H
    end.

(** Membership of a kind in a list of kinds, and its contrary. *)
Ltac kind_in :=
  lazymatch goal with
  | |- kind _ ∈ _ =>
      simpl; repeat first [apply list_elem_of_here | apply list_elem_of_further]
  end.

Ltac kind_out :=
  let Hin := fresh in
  intros Hin; repeat (apply elem_of_cons in Hin as [Hin | Hin]; [discriminate Hin |]);
  by apply elem_of_nil in Hin.

Section Generators.
Context `{GoLib}.
Implicit Types (w : World) (templates : gmap string Template)
  (site : SiteConfig) (posts : list Post).

Lemma capped_take n posts : capped n posts = take n posts.
Proof.
  unfold capped. case_bool_decide; [done |]. by rewrite take_ge by lia.
Qed.

Lemma length_capped n posts : length (capped n posts) = (n `min` length posts)%nat.
Proof. rewrite capped_take. apply length_take. Qed.

Lemma trace_Execute templates name path ctx e :
  e ∈ trace (Execute templates name path ctx) → e = EvExecute path name ctx.
Proof.
  unfold Execute. destruct (templates !! name).
  - rewrite trace_op. by intros ->%list_elem_of_singleton.
  - by intros []%elem_of_nil.
Qed.

Lemma outcome_Execute templates name path ctx :
  outcome (Execute templates name path ctx) = Ok () →
  trace (Execute templates name path ctx) = [EvExecute path name ctx].
Proof. unfold Execute. by destruct (templates !! name). Qed.

Lemma generatePostPages_cons w templates site post rest :
  generatePostPages w templates site (post :: rest) =
    (mkdirAll w (postDir (Slug post));;
     create w (postPath (Slug post));;
     wrap ("executing post template for " +:+ Slug post)
       (Execute templates "post.html" (postPath (Slug post))
          (CtxPost {| page_Site := site; page_Post := post |}));;
     Printf ("Generated: posts/" +:+ Slug post +:+ "/index.html" +:+ nl);;
     generatePostPages w templates site rest).
Proof. done. Qed.

(** Every event of [generatePostPages] belongs to one of the posts. *)
Lemma generatePostPages_events w templates site posts e :
  e ∈ trace (generatePostPages w templates site posts) →
  ∃ post, post ∈ posts
    ∧ (e = EvMkdirAll (postDir (Slug post))
       ∨ e = EvCreate (postPath (Slug post))
       ∨ e = EvExecute (postPath (Slug post)) "post.html"
               (CtxPost {| page_Site := site; page_Post := post |})
       ∨ e = EvPrint ("Generated: posts/" +:+ Slug post +:+ "/index.html" +:+ nl)).
Proof.
  induction posts as [|post rest IH].
  - by intros []%elem_of_nil.
  - rewrite generatePostPages_cons. intros He.
    apply elem_of_trace_bind in He as [He | (? & _ & He)].
    { trace_inv He. exists post. split; [left | auto]. }
    apply elem_of_trace_bind in He as [He | (? & _ & He)].
    { trace_inv He. exists post. split; [left | auto]. }
    apply elem_of_trace_bind in He as [He | (? & _ & He)].
    { rewrite trace_wrap in He. apply trace_Execute in He.
      exists post. split; [left | auto]. }
    apply elem_of_trace_bind in He as [He | (? & _ & He)].
    { trace_inv He. exists post. split; [left | auto]. }
    destruct (IH He) as (post' & Hin & Hcases).
    exists post'. split; [by right | done].
Qed.

(** When it succeeds, it has written one page for each post, at
    the path of the post's slug, in the order of the posts. *)
Lemma generatePostPages_Ok w templates site posts :
  outcome (generatePostPages w templates site posts) = Ok () →
  pagePaths (trace (generatePostPages w templates site posts))
    = (λ post, postPath (Slug post)) <$> posts
  ∧ ∀ post, post ∈ posts →
      executed (trace (generatePostPages w templates site posts))
        (CtxPost {| page_Site := site; page_Post := post |}).
Proof.
  induction posts as [|post rest IH].
  { intros _. split; [done |]. by intros ? []%elem_of_nil. }
  rewrite generatePostPages_cons.
  intros ([] & Hmk & Hok)%outcome_bind_Ok.
  apply outcome_bind_Ok in Hok as ([] & Hcr & Hok).
  apply outcome_bind_Ok in Hok as ([] & Hex & Hok).
  apply outcome_bind_Ok in Hok as ([] & Hpr & Hok).
  rewrite (trace_bind_Ok _ _ _ Hmk), (trace_bind_Ok _ _ _ Hcr),
    (trace_bind_Ok _ _ _ Hex), (trace_bind_Ok _ _ _ Hpr).
  rewrite outcome_wrap in Hex. apply wrapErr_Ok in Hex.
  apply outcome_Execute in Hex. rewrite trace_wrap, Hex.
  destruct (IH Hok) as [IHpaths IHexec]. split.
  - unfold mkdirAll, create, Printf. rewrite !trace_op.
    cbn [app pagePaths omap list_omap]. fold (pagePaths (trace (generatePostPages w templates site rest))).
    by rewrite IHpaths.
  - intros post' [-> | Hin]%elem_of_cons.
    + exists (postPath (Slug post)), "post.html".
      rewrite !elem_of_app. right. right. left. by left.
    + destruct (IHexec _ Hin) as (path & name & Hev).
      exists path, name. rewrite !elem_of_app. auto.
Qed.

Lemma generateHomePage_events w templates site posts e :
  e ∈ trace (generateHomePage w templates site posts) →
  isRender e = true →
  e = EvExecute (filepath.Join [outputDir; "index.html"]) "home.html"
        (homeContext site posts).
Proof.
  unfold generateHomePage. intros He Hr.
  apply elem_of_trace_bind in He as [He | (? & _ & He)].
  { trace_inv He. by subst. }
  apply elem_of_trace_bind in He as [He | (? & _ & He)].
  { rewrite trace_wrap in He. by apply trace_Execute in He. }
  trace_inv He. by subst.
Qed.

Lemma generateHomePage_Ok w templates site posts :
  outcome (generateHomePage w templates site posts) = Ok () →
  executed (trace (generateHomePage w templates site posts))
    (homeContext site posts)
  ∧ pagePaths (trace (generateHomePage w templates site posts)) = [].
Proof.
  unfold generateHomePage.
  intros ([] & Hcr & Hok)%outcome_bind_Ok.
  apply outcome_bind_Ok in Hok as ([] & Hex & Hok).
  rewrite (trace_bind_Ok _ _ _ Hcr), (trace_bind_Ok _ _ _ Hex).
  rewrite outcome_wrap in Hex. apply wrapErr_Ok in Hex.
  apply outcome_Execute in Hex. rewrite trace_wrap, Hex. split; [| done].
  eexists _, _. rewrite !elem_of_app. right. left. by left.
Qed.

Lemma generateArchivePage_events w templates site posts e :
  e ∈ trace (generateArchivePage w templates site posts) →
  isRender e = true →
  e = EvExecute
        (filepath.Join [filepath.Join [outputDir; "archive"]; "index.html"])
        "archive.html" (archiveContext site posts).
Proof.
  unfold generateArchivePage. intros He Hr.
  apply elem_of_trace_bind in He as [He | (? & _ & He)].
  { trace_inv He. by subst. }
  apply elem_of_trace_bind in He as [He | (? & _ & He)].
  { trace_inv He. by subst. }
  apply elem_of_trace_bind in He as [He | (? & _ & He)].
  { rewrite trace_wrap in He. by apply trace_Execute in He. }
  trace_inv He. by subst.
Qed.

Lemma generateArchivePage_Ok w templates site posts :
  outcome (generateArchivePage w templates site posts) = Ok () →
  executed (trace (generateArchivePage w templates site posts))
    (archiveContext site posts)
  ∧ pagePaths (trace (generateArchivePage w templates site posts)) = [].
Proof.
  unfold generateArchivePage.
  intros ([] & Hmk & Hok)%outcome_bind_Ok.
  apply outcome_bind_Ok in Hok as ([] & Hcr & Hok).
  apply outcome_bind_Ok in Hok as ([] & Hex & Hok).
  rewrite (trace_bind_Ok _ _ _ Hmk), (trace_bind_Ok _ _ _ Hcr),
    (trace_bind_Ok _ _ _ Hex).
  rewrite outcome_wrap in Hex. apply wrapErr_Ok in Hex.
  apply outcome_Execute in Hex. rewrite trace_wrap, Hex. split; [| done].
  eexists _, _. rewrite !elem_of_app. right. right. left. by left.
Qed.

Lemma generateRSSFeed_events w site posts e :
  e ∈ trace (generateRSSFeed w site posts) →
  isRender e = true →
  e = EvEncode (filepath.Join [outputDir; "feed.xml"]) (buildFeed site posts).
Proof.
  unfold generateRSSFeed. intros He Hr.
  apply elem_of_trace_bind in He as [He | (? & _ & He)].
  { trace_inv He. by subst. }
  apply elem_of_trace_bind in He as [He | (? & _ & He)].
  { trace_inv He. by subst. }
  apply elem_of_trace_bind in He as [He | (? & _ & He)].
  { trace_inv He. by subst. }
  trace_inv He. by subst.
Qed.

Lemma generateRSSFeed_Ok w site posts :
  outcome (generateRSSFeed w site posts) = Ok () →
  encoded (trace (generateRSSFeed w site posts)) (buildFeed site posts)
  ∧ pagePaths (trace (generateRSSFeed w site posts)) = [].
Proof.
  unfold generateRSSFeed.
  intros ([] & Hcr & Hok)%outcome_bind_Ok.
  apply outcome_bind_Ok in Hok as ([] & Hws & Hok).
  apply outcome_bind_Ok in Hok as ([] & Hen & Hok).
  rewrite (trace_bind_Ok _ _ _ Hcr), (trace_bind_Ok _ _ _ Hws),
    (trace_bind_Ok _ _ _ Hen).
  split; [| done].
  eexists. rewrite !elem_of_app. right. right. left.
  rewrite trace_wrap, trace_op. by left.
Qed.

(** ** The steps that render nothing *)

Lemma quiet_pagePaths tr : Forall quiet tr → pagePaths tr = [].
Proof.
  induction 1 as [|e tr He _ IH]; [done |].
  unfold pagePaths in *. cbn [omap list_omap]. rewrite IH.
  destruct e; done.
Qed.

Lemma only_loadConfig w : only [KReadFile] (trace (loadConfig w)).
Proof. unfold loadConfig, readFile. forall_trace; kind_in. Qed.

Lemma only_removeEntries w dir entries :
  only [KMkdirAll; KReadDir; KRemoveAll] (trace (removeEntries w dir entries)).
Proof.
  induction entries as [|entry rest IH]; [constructor |].
  change (removeEntries w dir (entry :: rest))
    with (op (EvRemoveAll (filepath.Join [dir; Name entry]))
            (RemoveAll w (filepath.Join [dir; Name entry]));;
          removeEntries w dir rest).
  forall_trace; first [kind_in | apply IH].
Qed.

Lemma only_cleanDir w dir :
  only [KMkdirAll; KReadDir; KRemoveAll] (trace (cleanDir w dir)).
Proof.
  unfold cleanDir, mkdirAll, readDir.
  forall_trace; first [kind_in | apply only_removeEntries].
Qed.

Lemma only_parseTemplatesLoop w baseFile pages templates :
  only [KParseFiles] (trace (parseTemplatesLoop w baseFile pages templates)).
Proof.
  revert templates. induction pages as [|page rest IH]; intros templates;
    [constructor |].
  change (parseTemplatesLoop w baseFile (page :: rest) templates)
    with (t ← wrap ("parsing " +:+ page)
                 (call (EvParseFiles [baseFile; filepath.Join [templateDir; page]])
                    (ParseFiles w [baseFile; filepath.Join [templateDir; page]]));
          parseTemplatesLoop w baseFile rest (<[page := t]> templates)).
  forall_trace; first [kind_in | apply IH].
Qed.

Lemma only_parseTemplates w : only [KParseFiles] (trace (parseTemplates w)).
Proof. apply only_parseTemplatesLoop. Qed.

Lemma only_parsePost w filename :
  only [KReadDir; KReadFile; KPrint] (trace (parsePost w filename)).
Proof.
  rewrite parsePost_cases. simpl.
  repeat case_match; unfold trace; simpl; repeat constructor; kind_in.
Qed.

Lemma only_parsePostsLoop w entries acc :
  only [KReadDir; KReadFile; KPrint] (trace (parsePostsLoop w entries acc)).
Proof.
  revert acc. induction entries as [|entry rest IH]; intros acc;
    [constructor |].
  rewrite parsePostsLoop_cons. destruct (skipped entry); [apply IH |].
  forall_trace; first [apply only_parsePost | case_match; apply IH].
Qed.

Lemma only_parsePosts w :
  only [KReadDir; KReadFile; KPrint] (trace (parsePosts w)).
Proof.
  unfold parsePosts, readDir.
  forall_trace; first [kind_in | apply only_parsePostsLoop].
Qed.

Lemma only_copyStaticFiles w :
  only [KStat; KCopyDir] (trace (copyStaticFiles w)).
Proof.
  unfold copyStaticFiles.
  forall_trace; first [kind_in | case_match; forall_trace; kind_in].
Qed.

Lemma only_Execute templates name path ctx :
  only [KMkdirAll; KCreate; KExecute; KPrint]
    (trace (Execute templates name path ctx)).
Proof. unfold Execute. case_match; forall_trace; kind_in. Qed.

Lemma only_generatePostPages w templates site posts :
  only [KMkdirAll; KCreate; KExecute; KPrint]
    (trace (generatePostPages w templates site posts)).
Proof.
  induction posts as [|post rest IH]; [constructor |].
  rewrite generatePostPages_cons. unfold mkdirAll, create, Printf.
  forall_trace; first [kind_in | apply only_Execute | apply IH].
Qed.

Lemma only_generateHomePage w templates site posts :
  only [KMkdirAll; KCreate; KExecute; KPrint]
    (trace (generateHomePage w templates site posts)).
Proof.
  unfold generateHomePage, create, Println.
  forall_trace; first [kind_in | apply only_Execute].
Qed.

Lemma only_generateArchivePage w templates site posts :
  only [KMkdirAll; KCreate; KExecute; KPrint]
    (trace (generateArchivePage w templates site posts)).
Proof.
  unfold generateArchivePage, mkdirAll, create, Println.
  forall_trace; first [kind_in | apply only_Execute].
Qed.

Lemma only_generateRSSFeed w site posts :
  only [KCreate; KWriteString; KEncode; KPrint]
    (trace (generateRSSFeed w site posts)).
Proof.
  unfold generateRSSFeed, create, Println. forall_trace; kind_in.
Qed.

(** A trace without executions and encodings renders nothing. *)
Lemma only_quiet kinds tr :
  only kinds tr → KExecute ∉ kinds → KEncode ∉ kinds → Forall quiet tr.
Proof.
  intros Honly Hx He. eapply Forall_impl; [exact Honly |].
  intros e Hin. destruct e; try done; simpl in Hin; done.
Qed.

Lemma quiet_loadConfig w : Forall quiet (trace (loadConfig w)).
Proof. eapply only_quiet; [apply only_loadConfig | kind_out ..]. Qed.

Lemma quiet_cleanDir w dir : Forall quiet (trace (cleanDir w dir)).
Proof. eapply only_quiet; [apply only_cleanDir | kind_out ..]. Qed.

Lemma quiet_parseTemplates w : Forall quiet (trace (parseTemplates w)).
Proof. eapply only_quiet; [apply only_parseTemplates | kind_out ..]. Qed.

Lemma quiet_parsePosts w : Forall quiet (trace (parsePosts w)).
Proof. eapply only_quiet; [apply only_parsePosts | kind_out ..]. Qed.

Lemma quiet_copyStaticFiles w : Forall quiet (trace (copyStaticFiles w)).
Proof. eapply only_quiet; [apply only_copyStaticFiles | kind_out ..]. Qed.

End Generators.

(** ** The run as a whole *)

Section Run.
Context `{GoLib}.
Implicit Types (w : World) (site : SiteConfig) (posts : list Post).

Lemma quiet_absurd (tr : list Event) e :
  Forall quiet tr → e ∈ tr → isRender e = true → False.
Proof.
  rewrite Forall_forall. intros Hq He Hr. specialize (Hq _ He).
  unfold quiet in Hq. congruence.
Qed.

Lemma pagePaths_app (tr1 tr2 : list Event) :
  pagePaths (tr1 ++ tr2) = pagePaths tr1 ++ pagePaths tr2.
Proof. apply omap_app. Qed.

Lemma executed_app_l (tr1 tr2 : list Event) ctx :
  executed tr1 ctx → executed (tr1 ++ tr2) ctx.
Proof.
  intros (path & name & He). exists path, name. apply elem_of_app. auto.
Qed.

Lemma executed_app_r (tr1 tr2 : list Event) ctx :
  executed tr2 ctx → executed (tr1 ++ tr2) ctx.
Proof.
  intros (path & name & He). exists path, name. apply elem_of_app. auto.
Qed.

Lemma encoded_app_l (tr1 tr2 : list Event) feed :
  encoded tr1 feed → encoded (tr1 ++ tr2) feed.
Proof. intros (path & He). exists path. apply elem_of_app. auto. Qed.

Lemma encoded_app_r (tr1 tr2 : list Event) feed :
  encoded tr2 feed → encoded (tr1 ++ tr2) feed.
Proof. intros (path & He). exists path. apply elem_of_app. auto. Qed.

(** Whatever a run renders, it renders from the configuration it
    loaded and the collection it parsed, sorted. *)
Lemma runGenerate_render w e :
  e ∈ trace (runGenerate w) → isRender e = true →
  ∃ site posts,
    outcome (loadConfig w) = Ok site ∧ collection w posts
    ∧ renderOf site (sortSlice byDate posts) e.
Proof.
  unfold runGenerate. intros He Hr.
  apply elem_of_trace_bind in He as [He | (site & Hsite & He)].
  { destruct (quiet_absurd _ _ (quiet_loadConfig w) He Hr). }
  apply elem_of_trace_bind in He as [He | (? & _ & He)].
  { rewrite trace_wrap in He.
    destruct (quiet_absurd _ _ (quiet_cleanDir w _) He Hr). }
  apply elem_of_trace_bind in He as [He | (tmpl & _ & He)].
  { rewrite trace_wrap in He.
    destruct (quiet_absurd _ _ (quiet_parseTemplates w) He Hr). }
  apply elem_of_trace_bind in He as [He | (posts & Hposts & He)].
  { rewrite trace_wrap in He.
    destruct (quiet_absurd _ _ (quiet_parsePosts w) He Hr). }
  rewrite outcome_wrap in Hposts. apply wrapErr_Ok in Hposts.
  exists site, posts. split; [done |]. split; [done |]. cbv zeta in He.
  apply elem_of_trace_bind in He as [He | (? & _ & He)].
  { trace_inv He. by subst. }
  apply elem_of_trace_bind in He as [He | (? & _ & He)].
  { rewrite trace_wrap in He.
    apply generatePostPages_events in He as (post & Hin & Hcases).
    left. exists post. split; [done |].
    destruct Hcases as [-> | [-> | [-> | ->]]]; done. }
  apply elem_of_trace_bind in He as [He | (? & _ & He)].
  { rewrite trace_wrap in He. right. left.
    by apply (generateHomePage_events w tmpl). }
  apply elem_of_trace_bind in He as [He | (? & _ & He)].
  { rewrite trace_wrap in He. right. right. left.
    by apply (generateArchivePage_events w tmpl). }
  apply elem_of_trace_bind in He as [He | (? & _ & He)].
  { rewrite trace_wrap in He. right. right. right.
    by apply (generateRSSFeed_events w). }
  apply elem_of_trace_bind in He as [He | (? & _ & He)].
  { rewrite trace_wrap in He.
    destruct (quiet_absurd _ _ (quiet_copyStaticFiles w) He Hr). }
  apply elem_of_trace_bind in He as [He | (? & _ & He)].
  { trace_inv He. by subst. }
  trace_inv He. by subst.
Qed.

(** A run that succeeds has rendered every page and the feed. *)
Lemma runGenerate_Ok w :
  outcome (runGenerate w) = Ok () →
  ∃ site posts,
    outcome (loadConfig w) = Ok site ∧ collection w posts
    ∧ let sorted := sortSlice byDate posts in
      let tr := trace (runGenerate w) in
      (∀ post, post ∈ sorted → executed tr (postContext site post))
      ∧ executed tr (homeContext site sorted)
      ∧ executed tr (archiveContext site sorted)
      ∧ encoded tr (buildFeed site sorted)
      ∧ pagePaths tr = (λ post, postPath (Slug post)) <$> sorted.
Proof.
  unfold runGenerate.
  intros (site & Hsite & Hok)%outcome_bind_Ok.
  rewrite (trace_bind_Ok _ _ _ Hsite).
  apply outcome_bind_Ok in Hok as ([] & Hclean & Hok).
  rewrite (trace_bind_Ok _ _ _ Hclean).
  apply outcome_bind_Ok in Hok as (tmpl & Htmpl & Hok).
  rewrite (trace_bind_Ok _ _ _ Htmpl).
  apply outcome_bind_Ok in Hok as (posts & Hposts & Hok).
  rewrite (trace_bind_Ok _ _ _ Hposts).
  cbv zeta in Hok. cbv zeta.
  set (sorted := sortSlice byDate posts) in *.
  apply outcome_bind_Ok in Hok as ([] & Hfound & Hok).
  rewrite (trace_bind_Ok _ _ _ Hfound).
  apply outcome_bind_Ok in Hok as ([] & Hpages & Hok).
  rewrite (trace_bind_Ok _ _ _ Hpages).
  apply outcome_bind_Ok in Hok as ([] & Hhome & Hok).
  rewrite (trace_bind_Ok _ _ _ Hhome).
  apply outcome_bind_Ok in Hok as ([] & Harch & Hok).
  rewrite (trace_bind_Ok _ _ _ Harch).
  apply outcome_bind_Ok in Hok as ([] & Hfeed & Hok).
  rewrite (trace_bind_Ok _ _ _ Hfeed).
  apply outcome_bind_Ok in Hok as ([] & Hstatic & Hok).
  rewrite (trace_bind_Ok _ _ _ Hstatic).
  apply outcome_bind_Ok in Hok as ([] & Hmarker & Hok).
  rewrite (trace_bind_Ok _ _ _ Hmarker).
  rewrite outcome_wrap in Hposts; apply wrapErr_Ok in Hposts.
  rewrite outcome_wrap in Hpages; apply wrapErr_Ok in Hpages.
  rewrite outcome_wrap in Hhome; apply wrapErr_Ok in Hhome.
  rewrite outcome_wrap in Harch; apply wrapErr_Ok in Harch.
  rewrite outcome_wrap in Hfeed; apply wrapErr_Ok in Hfeed.
  rewrite !trace_wrap.
  destruct (generatePostPages_Ok _ _ _ _ Hpages) as [Hpaths Hexec].
  destruct (generateHomePage_Ok _ _ _ _ Hhome) as [Hhx Hhp].
  destruct (generateArchivePage_Ok _ _ _ _ Harch) as [Hax Hap].
  destruct (generateRSSFeed_Ok _ _ _ Hfeed) as [Hfx Hfp].
  exists site, posts. split; [done |]. split; [done |].
  split; [| split; [| split; [| split]]].
  - intros post Hin. do 5 apply executed_app_r. apply executed_app_l.
    by apply Hexec.
  - do 6 apply executed_app_r. by apply executed_app_l.
  - do 7 apply executed_app_r. by apply executed_app_l.
  - do 8 apply encoded_app_r. by apply encoded_app_l.
  - rewrite !pagePaths_app, Hpaths, Hhp, Hap, Hfp.
    rewrite (quiet_pagePaths _ (quiet_loadConfig w)),
      (quiet_pagePaths _ (quiet_cleanDir w _)),
      (quiet_pagePaths _ (quiet_parseTemplates w)),
      (quiet_pagePaths _ (quiet_parsePosts w)),
      (quiet_pagePaths _ (quiet_copyStaticFiles w)).
    unfold Printf, Println. rewrite !trace_op. simpl.
    by rewrite app_nil_r.
Qed.

End Run.

(** ** The sorted collection *)

Section Sorting.
Context `{GoLib}.
Hypothesis laws : GoLibLaws _.
Implicit Types (posts : list Post).

Lemma StronglySorted_mono {A} (R1 R2 : relation A) (l : list A) :
  (∀ a b, R1 a b → R2 a b) → StronglySorted R1 l → StronglySorted R2 l.
Proof.
  intros Himpl. induction 1 as [|a l _ IH Hall]; constructor; [done |].
  eapply Forall_impl; [exact Hall |]. auto.
Qed.

Lemma StronglySorted_filter {A} (R : relation A) (P : A → Prop)
    `{!∀ x, Decision (P x)} (l : list A) :
  StronglySorted R l → StronglySorted R (filter P l).
Proof.
  induction 1 as [|a l _ IH Hall]; [constructor |].
  rewrite filter_cons. case_decide; [| done]. constructor; [done |].
  apply Forall_forall. intros b [_ Hb]%list_elem_of_filter.
  rewrite Forall_forall in Hall. auto.
Qed.

Lemma byDate_strict_weak : StrictWeak byDate.
Proof.
  split; unfold byDate, After; intros *;
    rewrite ?bool_decide_eq_true, ?bool_decide_eq_false; lia.
Qed.

Lemma byDate_false a b : byDate b a = false ↔ notOlder a b.
Proof.
  unfold byDate, After, notOlder. rewrite bool_decide_eq_false. lia.
Qed.

Lemma sorted_perm posts : sortSlice byDate posts ≡ₚ posts.
Proof. apply (sortSlice_perm laws). Qed.

Lemma sorted_length posts : length (sortSlice byDate posts) = length posts.
Proof. by rewrite sorted_perm. Qed.

Lemma sorted_notOlder posts : StronglySorted notOlder (sortSlice byDate posts).
Proof.
  eapply StronglySorted_mono;
    [| apply (sortSlice_sorted laws), byDate_strict_weak].
  intros a b. apply byDate_false.
Qed.

Lemma elem_of_sorted posts post : post ∈ sortSlice byDate posts ↔ post ∈ posts.
Proof. by rewrite sorted_perm. Qed.

(** The first [n] of a sorted list are not older than the others. *)
Lemma take_most_recent n (sorted : list Post) :
  StronglySorted notOlder sorted →
  StronglySorted notOlder (take n sorted)
  ∧ ∀ a b, a ∈ take n sorted → b ∈ drop n sorted → notOlder a b.
Proof.
  intros Hs. rewrite <- (take_drop n sorted) in Hs.
  apply StronglySorted_app in Hs as (Hcross & Htake & _). split; [done |].
  intros a b Ha Hb. by apply Hcross.
Qed.

End Sorting.

(** ** The archive *)

Section Archive.
Context `{GoLib}.
Hypothesis laws : GoLibLaws _.
Implicit Types (posts : list Post) (year : Z) (group : YearGroup).

Lemma groupByYear_snoc posts post :
  groupByYear (posts ++ [post])
  = <[Year (Date post) :=
        default [] (groupByYear posts !! Year (Date post)) ++ [post]]>
      (groupByYear posts).
Proof. unfold groupByYear. by rewrite foldl_snoc. Qed.

(** The map holds, for each year, the posts of that year in the
    order of the collection, and no empty list. *)
Lemma groupByYear_lookup posts year :
  groupByYear posts !! year
  = match filter (inYear year) posts with
    | [] => None
    | yearPosts => Some yearPosts
    end.
Proof.
  induction posts as [|post posts IH] using rev_ind; [done |].
  rewrite groupByYear_snoc, filter_app.
  destruct (decide (Year (Date post) = year)) as [<- | Hne].
  - rewrite lookup_insert_eq, IH, filter_cons_True by reflexivity.
    rewrite filter_nil. destruct (filter _ posts); done.
  - rewrite lookup_insert_ne, IH, filter_cons_False by done.
    by rewrite filter_nil, app_nil_r.
Qed.

Lemma groupByYear_Some posts year yearPosts :
  groupByYear posts !! year = Some yearPosts
  ↔ yearPosts = filter (inYear year) posts ∧ yearPosts ≠ [].
Proof.
  rewrite groupByYear_lookup. destruct (filter _ posts) eqn:Hf; split.
  - done.
  - by intros [-> ?].
  - by intros [= <-].
  - by intros [-> _].
Qed.

Lemma archiveYears_perm posts :
  archiveYears posts ≡ₚ mkGroup <$> map_to_list (groupByYear posts).
Proof.
  unfold archiveYears. cbv zeta.
  rewrite (sortSlice_perm laws). by rewrite (rangeMap_perm laws).
Qed.

(** A group of the archive: a year in which some post is dated,
    with the posts of that year in the order of the collection. *)
Lemma elem_of_archiveYears posts group :
  group ∈ archiveYears posts
  ↔ yg_Posts group = filter (inYear (yg_Year group)) posts
    ∧ yg_Posts group ≠ [].
Proof.
  rewrite archiveYears_perm, list_elem_of_fmap. split.
  - intros ([year yearPosts] & -> & Hin).
    apply elem_of_map_to_list in Hin. by apply groupByYear_Some in Hin.
  - intros Hg. exists (yg_Year group, yg_Posts group). split.
    + by destruct group.
    + apply elem_of_map_to_list. by apply groupByYear_Some.
Qed.

Lemma archiveYears_NoDup posts : NoDup (yg_Year <$> archiveYears posts).
Proof.
  rewrite archiveYears_perm, <- list_fmap_compose.
  apply (NoDup_fst_map_to_list (groupByYear posts)).
Qed.

Lemma byYear_strict_weak : StrictWeak byYear.
Proof.
  split; unfold byYear; intros *;
    rewrite ?bool_decide_eq_true, ?bool_decide_eq_false; lia.
Qed.

Lemma StronglySorted_strict (groups : list YearGroup) :
  NoDup (yg_Year <$> groups) →
  StronglySorted (λ a b, byYear b a = false) groups →
  StronglySorted yearsDescend groups.
Proof.
  intros Hnd Hs. induction Hs as [|a l _ IH Hall]; constructor.
  - apply IH. by apply NoDup_cons in Hnd as [_ ?].
  - apply NoDup_cons in Hnd as [Hnotin _].
    apply Forall_forall. intros b Hb.
    rewrite Forall_forall in Hall. specialize (Hall _ Hb).
    unfold byYear in Hall. apply bool_decide_eq_false in Hall.
    assert (yg_Year a ≠ yg_Year b).
    { intros Heq. apply Hnotin. rewrite Heq. by apply list_elem_of_fmap_2. }
    unfold yearsDescend. lia.
Qed.

Lemma archiveYears_descend posts :
  StronglySorted yearsDescend (archiveYears posts).
Proof.
  apply StronglySorted_strict; [apply archiveYears_NoDup |].
  apply (sortSlice_sorted laws), byYear_strict_weak.
Qed.

(** Taken together, the groups hold each post of the collection as
    often as the collection does. *)
Lemma groupByYear_concat posts :
  mjoin ((map_to_list (groupByYear posts)).*2) ≡ₚ posts.
Proof.
  induction posts as [|post posts IH] using rev_ind.
  - unfold groupByYear. simpl. by rewrite map_to_list_empty.
  - rewrite groupByYear_snoc.
    set (m := groupByYear posts) in *. set (y := Year (Date post)).
    destruct (m !! y) as [old |] eqn:Hy; simpl.
    + assert (Hm : old ++ mjoin ((map_to_list (delete y m)).*2) ≡ₚ posts).
      { by rewrite <- IH, <- (map_to_list_delete m y old Hy). }
      rewrite <- (insert_delete_eq m).
      rewrite map_to_list_insert by apply lookup_delete_eq.
      rewrite fmap_cons, <- Hm. simpl.
      rewrite <- !app_assoc. f_equiv. apply Permutation_app_comm.
    + rewrite map_to_list_insert by done. rewrite fmap_cons. simpl.
      rewrite IH. apply (Permutation_app_comm [post] posts).
Qed.

Lemma archiveYears_concat posts :
  archiveYears posts ≫= yg_Posts ≡ₚ posts.
Proof.
  rewrite archiveYears_perm, list_fmap_bind.
  etransitivity; [| apply groupByYear_concat].
  rewrite list_join_bind, list_fmap_bind.
  by rewrite (list_bind_ext (yg_Posts ∘ mkGroup) (id ∘ snd) _ _ (λ _, eq_refl) eq_refl).
Qed.

Lemma archiveYears_subseteq posts post :
  post ∈ archiveYears posts ≫= yg_Posts ↔ post ∈ posts.
Proof. by rewrite archiveYears_concat. Qed.

(** Each post is in the group of its year and in no other. *)
Lemma archiveYears_unique posts post :
  post ∈ posts →
  ∃ group, group ∈ archiveYears posts ∧ post ∈ yg_Posts group
    ∧ ∀ group', group' ∈ archiveYears posts → post ∈ yg_Posts group' →
        group' = group.
Proof.
  intros Hin.
  set (group := {| yg_Year := Year (Date post);
                   yg_Posts := filter (inYear (Year (Date post))) posts |}).
  assert (Hpost : post ∈ yg_Posts group).
  { simpl. apply list_elem_of_filter. split; [reflexivity | done]. }
  exists group. split; [| split; [done |]].
  - apply elem_of_archiveYears. split; [done |].
    intros Hnil. rewrite Hnil in Hpost. by apply elem_of_nil in Hpost.
  - intros group' [Hposts' _]%elem_of_archiveYears Hin'.
    rewrite Hposts' in Hin'. apply list_elem_of_filter in Hin' as [Hy _].
    unfold inYear in Hy. destruct group' as [year' posts']. simpl in *.
    subst. done.
Qed.

End Archive.

(** ** The concrete library keeps the laws *)

Section DemoLaws.
#[local] Existing Instance Civil.time.

Lemma demo_laws : GoLibLaws Demo.lib.
Proof.
  split.
  - intros A less l. apply merge_sort_Permutation.
  - intros A less l [Hasym Hneg].
    apply StronglySorted_merge_sort.
    + intros a b c Hab Hbc. exact (Hneg c b a Hbc Hab).
    + intros a b. destruct (less b a) eqn:Hba; [| by left].
      right. by apply Hasym.
  - done.
Qed.

End DemoLaws.

(** ** C3 and C4: the home page and the feed *)

Section HomeAndFeed.
Context `{GoLib}.
Implicit Types (w : World) (site : SiteConfig) (posts : list Post).

Lemma collection_unique w posts posts' :
  collection w posts → collection w posts' → posts = posts'.
Proof. unfold collection. congruence. Qed.

Lemma executed_home w home :
  executed (trace (runGenerate w)) (CtxHome home) →
  ∃ site posts, outcome (loadConfig w) = Ok site ∧ collection w posts
    ∧ CtxHome home = homeContext site (sortSlice byDate posts).
Proof.
  intros (path & name & He).
  destruct (runGenerate_render w _ He eq_refl)
    as (site & posts & Hsite & Hposts & Hr).
  exists site, posts. split; [done |]. split; [done |].
  destruct Hr as [(post & _ & Heq) | [Heq | [Heq | Heq]]];
    by simplify_eq.
Qed.

Lemma executed_archive w archive :
  executed (trace (runGenerate w)) (CtxArchive archive) →
  ∃ site posts, outcome (loadConfig w) = Ok site ∧ collection w posts
    ∧ CtxArchive archive = archiveContext site (sortSlice byDate posts).
Proof.
  intros (path & name & He).
  destruct (runGenerate_render w _ He eq_refl)
    as (site & posts & Hsite & Hposts & Hr).
  exists site, posts. split; [done |]. split; [done |].
  destruct Hr as [(post & _ & Heq) | [Heq | [Heq | Heq]]];
    by simplify_eq.
Qed.

Lemma executed_post w page :
  executed (trace (runGenerate w)) (CtxPost page) →
  ∃ site posts, outcome (loadConfig w) = Ok site ∧ collection w posts
    ∧ page_Site page = site ∧ page_Post page ∈ sortSlice byDate posts.
Proof.
  intros (path & name & He).
  destruct (runGenerate_render w _ He eq_refl)
    as (site & posts & Hsite & Hposts & Hr).
  exists site, posts. split; [done |]. split; [done |].
  destruct Hr as [(post & Hin & Heq) | [Heq | [Heq | Heq]]];
    by simplify_eq.
Qed.

Lemma encoded_feed w feed :
  encoded (trace (runGenerate w)) feed →
  ∃ site posts, outcome (loadConfig w) = Ok site ∧ collection w posts
    ∧ feed = buildFeed site (sortSlice byDate posts).
Proof.
  intros (path & He).
  destruct (runGenerate_render w _ He eq_refl)
    as (site & posts & Hsite & Hposts & Hr).
  exists site, posts. split; [done |]. split; [done |].
  destruct Hr as [(post & _ & Heq) | [Heq | [Heq | Heq]]];
    by simplify_eq.
Qed.

(** C3.  The home page of a run lists min(5, n) of the n posts of
    the collection, most recent first, and no post that it leaves
    out is more recent than one that it lists; a run that succeeds
    has a home page. *)
Theorem home_lists_most_recent w posts :
  GoLibLaws _ → collection w posts →
  (outcome (runGenerate w) = Ok () →
   ∃ home, executed (trace (runGenerate w)) (CtxHome home))
  ∧ ∀ home, executed (trace (runGenerate w)) (CtxHome home) →
      length (home_Posts home) = (5 `min` length posts)%nat
      ∧ StronglySorted notOlder (home_Posts home)
      ∧ ∃ others, home_Posts home ++ others ≡ₚ posts
          ∧ ∀ a b, a ∈ home_Posts home → b ∈ others → notOlder a b.
Proof.
  intros laws Hposts. split.
  - intros (site & posts' & _ & _ & Hrun)%runGenerate_Ok.
    destruct Hrun as (_ & Hhome & _). eexists. exact Hhome.
  - intros home (site & posts' & _ & Hposts' & Heq)%executed_home.
    rewrite <- (collection_unique _ _ _ Hposts Hposts') in Heq.
    injection Heq as ->. simpl. rewrite capped_take.
    destruct (take_most_recent postsPerPage _ (sorted_notOlder laws posts))
      as [Hsorted Hcross].
    split; [| split; [done |]].
    + by rewrite length_take, (sorted_length laws).
    + exists (drop postsPerPage (sortSlice byDate posts)).
      split; [| done]. by rewrite take_drop, (sorted_perm laws).
Qed.

(** C4.  The feed of a run has min(20, n) items for the n posts of
    the collection: the items of the first posts of the sorted
    collection, in its order; a run that succeeds has a feed. *)
Theorem feed_items_are_sorted_prefix w posts :
  GoLibLaws _ → collection w posts →
  let sorted := sortSlice byDate posts in
  sorted ≡ₚ posts ∧ StronglySorted notOlder sorted
  ∧ (outcome (runGenerate w) = Ok () →
     ∃ feed, encoded (trace (runGenerate w)) feed)
  ∧ ∀ feed, encoded (trace (runGenerate w)) feed →
      ∃ site, outcome (loadConfig w) = Ok site
        ∧ chan_Items (feed_Channel feed) = feedItem site <$> take 20 sorted
        ∧ length (chan_Items (feed_Channel feed)) = (20 `min` length posts)%nat.
Proof.
  intros laws Hposts sorted.
  split; [apply (sorted_perm laws) |].
  split; [apply (sorted_notOlder laws) |]. split.
  - intros (site & posts' & _ & _ & Hrun)%runGenerate_Ok.
    destruct Hrun as (_ & _ & _ & Hfeed & _). eexists. exact Hfeed.
  - intros feed (site & posts' & Hsite & Hposts' & ->)%encoded_feed.
    rewrite <- (collection_unique _ _ _ Hposts Hposts').
    exists site. split; [done |]. simpl. rewrite capped_take.
    split; [done |].
    by rewrite length_fmap, length_take, (sorted_length laws).
Qed.

End HomeAndFeed.

(** ** C5: the archive page *)

Section ArchivePage.
Context `{GoLib}.
Implicit Types (w : World) (posts : list Post).

(** C5.  The groups of the archive page of a run partition the
    collection: together they hold every post as often as the
    collection does, and a post is in the group of its year and in no
    other; a group holds the posts dated in its year, all of them and
    in the order of the sorted collection, and is not empty; the years
    go strictly down.  A run that succeeds has an archive page. *)
Theorem archive_groups_partition_by_year w posts :
  GoLibLaws _ → collection w posts →
  let sorted := sortSlice byDate posts in
  (outcome (runGenerate w) = Ok () →
   ∃ archive, executed (trace (runGenerate w)) (CtxArchive archive))
  ∧ ∀ archive, executed (trace (runGenerate w)) (CtxArchive archive) →
      let groups := arch_Years archive in
      groups ≫= yg_Posts ≡ₚ posts
      ∧ (∀ post, post ∈ posts →
           ∃ group, group ∈ groups ∧ post ∈ yg_Posts group
             ∧ ∀ group', group' ∈ groups → post ∈ yg_Posts group' →
                 group' = group)
      ∧ (∀ group, group ∈ groups →
           yg_Posts group = filter (inYear (yg_Year group)) sorted
           ∧ yg_Posts group ≠ []
           ∧ yg_Posts group `sublist_of` sorted
           ∧ StronglySorted notOlder (yg_Posts group))
      ∧ StronglySorted yearsDescend groups.
Proof.
  intros laws Hposts sorted. split.
  { intros (site & posts' & _ & _ & Hrun)%runGenerate_Ok.
    destruct Hrun as (_ & _ & Harchive & _). eexists. exact Harchive. }
  intros archive (site & posts' & _ & Hposts' & Heq)%executed_archive.
  rewrite <- (collection_unique _ _ _ Hposts Hposts') in Heq.
  injection Heq as ->. simpl. fold sorted.
  split; [| split; [| split]].
  - unfold sorted. by rewrite (archiveYears_concat laws), (sorted_perm laws).
  - intros post Hin. apply (archiveYears_unique laws).
    by apply (elem_of_sorted laws).
  - intros group [Hfilter Hne]%(elem_of_archiveYears laws).
    split; [done |]. split; [done |]. rewrite Hfilter.
    split; [apply sublist_filter |].
    apply StronglySorted_filter, (sorted_notOlder laws).
  - apply (archiveYears_descend laws).
Qed.

End ArchivePage.

(** ** C2: drafts *)

Section Drafts.
Context `{GoLib}.
Implicit Types (w : World) (posts : list Post) (entry : DirEntry).

Lemma elem_of_capped n posts post : post ∈ capped n posts → post ∈ posts.
Proof. rewrite capped_take. apply subseteq_take. Qed.

(** A post on a page of the run is a post of the collection. *)
Lemma published_collection w post :
  GoLibLaws _ → published (trace (runGenerate w)) post →
  ∃ posts, collection w posts ∧ post ∈ posts.
Proof.
  intros laws (ctx & (path & name & He) & Hin).
  destruct (runGenerate_render w _ He eq_refl)
    as (site & posts & _ & Hposts & Hr).
  exists posts. split; [done |]. apply (elem_of_sorted laws).
  destruct Hr as [(post' & Hin' & Heq) | [Heq | [Heq | Heq]]];
    simplify_eq;
    cbn [postsOfContext homeContext archiveContext postContext
         home_Posts page_Post arch_Years] in Hin.
  - rewrite list_elem_of_singleton in Hin. by subst.
  - by apply elem_of_capped in Hin.
  - exact (proj1 (archiveYears_subseteq laws _ _) Hin).
Qed.

(** An item of the feed of the run is the item of a post of the
    collection. *)
Lemma syndicated_collection w item :
  GoLibLaws _ → syndicated (trace (runGenerate w)) item →
  ∃ site posts post, collection w posts ∧ post ∈ posts
    ∧ item = feedItem site post.
Proof.
  intros laws (feed & (site & posts & _ & Hposts & ->)%encoded_feed & Hin).
  simpl in Hin. apply list_elem_of_fmap in Hin as (post & -> & Hin).
  exists site, posts, post. split; [done |]. split; [| done].
  apply (elem_of_sorted laws). by apply elem_of_capped in Hin.
Qed.

Lemma Forall2_elem_of_r {A B} (R : A → B → Prop) (l : list A) (k : list B) y :
  Forall2 R l k → y ∈ k → ∃ x, x ∈ l ∧ R x y.
Proof.
  induction 1 as [|x y' l k HR _ IH]; [by intros ?%elem_of_nil |].
  intros [-> | Hin]%elem_of_cons.
  - exists x. split; [left | done].
  - destruct (IH Hin) as (x' & ? & ?). exists x'. split; [by right | done].
Qed.

(** A post of the collection was built from a content file of the
    directory that is not a draft. *)
Lemma collection_builtFrom w posts post :
  collection w posts → post ∈ posts →
  ∃ entries entry, ReadDir w contentDir = Ok entries ∧ entry ∈ entries
    ∧ builtFrom w entry post.
Proof.
  intros (entries & Hdir & Hall)%parsePosts_Ok Hin.
  destruct (Forall2_elem_of_r _ _ _ _ Hall Hin) as (entry & Hentry & Hb).
  exists entries, entry. split; [done |]. split; [| done].
  apply list_elem_of_In in Hentry. apply filter_In in Hentry as [Hentry _].
  by apply list_elem_of_In.
Qed.

(** *** A draft file has no part in what the run writes *)

Lemma outputs_app (tr1 tr2 : list Event) :
  outputs (tr1 ++ tr2) = outputs tr1 ++ outputs tr2.
Proof. apply List.filter_app. Qed.

Lemma sameOutput_refl {A} (m : IO A) : sameOutput m m.
Proof. done. Qed.

Lemma sameOutput_bind {A B} (m1 m2 : IO A) (k1 k2 : A → IO B) :
  sameOutput m1 m2 →
  (∀ a, outcome m1 = Ok a → sameOutput (k1 a) (k2 a)) →
  sameOutput (m1 ≫= k1) (m2 ≫= k2).
Proof.
  intros [Hout Htr] Hk. split.
  - rewrite !outcome_bind, <- Hout.
    destruct (outcome m1) as [a |]; [| done]. by apply Hk.
  - rewrite !trace_bind, !outputs_app, <- Hout, Htr. f_equal.
    destruct (outcome m1) as [a |]; [| done]. by apply Hk.
Qed.

Lemma sameOutput_wrap {A} context (m1 m2 : IO A) :
  sameOutput m1 m2 → sameOutput (wrap context m1) (wrap context m2).
Proof.
  intros [Hout Htr]. split; [| done]. by rewrite !outcome_wrap, Hout.
Qed.

Lemma outputs_parsePosts w : outputs (trace (parsePosts w)) = [].
Proof.
  pose proof (only_parsePosts w) as Honly. unfold only in Honly.
  induction Honly as [|e tr He _ IH]; [done |].
  unfold outputs in *. simpl. rewrite IH.
  destruct e; try done; exfalso; revert He; kind_out.
Qed.

Lemma parsePostsLoop_setEntries w entries l acc :
  parsePostsLoop (setEntries w entries) l acc = parsePostsLoop w l acc.
Proof.
  revert acc. induction l as [|entry rest IH]; intros acc; [done |].
  rewrite !parsePostsLoop_cons. destruct (skipped entry); [apply IH |].
  change (parsePost (setEntries w entries) (Name entry))
    with (parsePost w (Name entry)).
  destruct (wrap _ (parsePost w (Name entry))) as [t [[post |] | msg]];
    unfold mbind, IO_bind; by rewrite ?IH.
Qed.

Lemma draftFile_skip w entry :
  draftFile w entry = true →
  skipped entry = false ∧ outcome (parsePost w (Name entry)) = Ok None.
Proof.
  unfold draftFile. intros [Hs Hd]%andb_true_iff.
  split; [by apply negb_true_iff |].
  destruct (frontMatter w (Name entry)) as [metaData |] eqn:Hfm; [| done].
  apply parsePost_skip. exists metaData. by rewrite <- isDraft_true.
Qed.

Lemma parsePostsLoop_without_draft w before entry after acc :
  draftFile w entry = true →
  outcome (parsePostsLoop w (before ++ entry :: after) acc)
  = outcome (parsePostsLoop w (before ++ after) acc).
Proof.
  intros [Hs Hp]%draftFile_skip. revert acc.
  induction before as [|entry' before IH]; intros acc; simpl app.
  - by rewrite parsePostsLoop_cons, Hs, outcome_bind, outcome_wrap, Hp.
  - rewrite !parsePostsLoop_cons. destruct (skipped entry'); [apply IH |].
    rewrite !outcome_bind.
    destruct (outcome (wrap _ (parsePost w (Name entry')))) as [[post |] |];
      auto.
Qed.

Lemma parsePosts_without_draft w before entry after :
  ReadDir w contentDir = Ok (before ++ entry :: after) →
  draftFile w entry = true →
  sameOutput (parsePosts w) (parsePosts (setEntries w (before ++ after))).
Proof.
  intros Hdir Hd. split; [| by rewrite !outputs_parsePosts].
  unfold parsePosts, readDir.
  rewrite !outcome_bind, !outcome_wrap, !outcome_call, Hdir. simpl.
  rewrite parsePostsLoop_setEntries. by apply parsePostsLoop_without_draft.
Qed.

Lemma removeEntries_setEntries w entries dir l :
  removeEntries (setEntries w entries) dir l = removeEntries w dir l.
Proof.
  induction l as [|entry rest IH]; [done |].
  cbn [removeEntries]. by rewrite IH.
Qed.

Lemma cleanDir_setEntries w entries :
  cleanDir (setEntries w entries) outputDir = cleanDir w outputDir.
Proof.
  unfold cleanDir, readDir. cbn [setEntries ReadDir].
  rewrite bool_decide_eq_false_2 by done.
  apply bind_ext; [done |]. intros [] _.
  apply bind_ext; [done |]. intros l _. apply removeEntries_setEntries.
Qed.

Lemma generatePostPages_setEntries w entries templates site posts :
  generatePostPages (setEntries w entries) templates site posts
  = generatePostPages w templates site posts.
Proof.
  induction posts as [|post rest IH]; [done |].
  rewrite !generatePostPages_cons, IH. reflexivity.
Qed.

Lemma runGenerate_without_draft w before entry after :
  ReadDir w contentDir = Ok (before ++ entry :: after) →
  draftFile w entry = true →
  sameOutput (runGenerate w) (runGenerate (setEntries w (before ++ after))).
Proof.
  intros Hdir Hd. unfold runGenerate.
  apply sameOutput_bind; [exact (sameOutput_refl _) |]. intros site _.
  rewrite cleanDir_setEntries.
  apply sameOutput_bind; [exact (sameOutput_refl _) |]. intros [] _.
  apply sameOutput_bind; [exact (sameOutput_refl _) |]. intros tmpl _.
  apply sameOutput_bind;
    [apply sameOutput_wrap, (parsePosts_without_draft _ _ _ _ Hdir Hd) |].
  intros posts _. cbv zeta. rewrite generatePostPages_setEntries.
  exact (sameOutput_refl _).
Qed.

(** C2.  A content file whose front matter says [draft: true] is
    in no output of the run: every post on a page and every item of
    the feed was built from a content file of the directory whose
    front matter does not say [draft: true], and the run writes the
    same, with the same result, as in a directory without the draft
    file. *)
Theorem drafts_are_in_no_output w :
  GoLibLaws _ →
  let tr := trace (runGenerate w) in
  (∀ post, published tr post →
     ∃ entries entry, ReadDir w contentDir = Ok entries ∧ entry ∈ entries
       ∧ builtFrom w entry post)
  ∧ (∀ item, syndicated tr item →
       ∃ site post entries entry,
         item = feedItem site post
         ∧ ReadDir w contentDir = Ok entries ∧ entry ∈ entries
         ∧ builtFrom w entry post)
  ∧ (∀ before entry after,
       ReadDir w contentDir = Ok (before ++ entry :: after) →
       draftFile w entry = true →
       sameOutput (runGenerate w)
         (runGenerate (setEntries w (before ++ after)))).
Proof.
  intros laws tr. split; [| split].
  - intros post (posts & Hposts & Hin)%(published_collection _ _ laws).
    by eapply collection_builtFrom.
  - intros item Hitem.
    apply (syndicated_collection _ _ laws) in Hitem
      as (site & posts & post & Hposts & Hin & ->).
    destruct (collection_builtFrom _ _ _ Hposts Hin)
      as (entries & entry & ? & ? & ?).
    exists site, post, entries, entry. done.
  - apply runGenerate_without_draft.
Qed.

End Drafts.

(** ** C6: the site configuration *)

Section Config.
Context `{GoLib}.
Implicit Types (w : World).

Lemma loadConfig_unreadable w msg :
  ReadFile w "site.yml" = Err msg →
  loadConfig w = ([EvReadFile "site.yml"], Err ("reading site.yml: " +:+ msg)).
Proof.
  intros Hr. unfold loadConfig, readFile, call, wrap. simpl. by rewrite Hr.
Qed.

Lemma loadConfig_parsed w data cfg :
  ReadFile w "site.yml" = Ok data → yamlUnmarshal data = Ok cfg →
  loadConfig w = ([EvReadFile "site.yml"], Ok (withDefaults cfg)).
Proof.
  intros Hr Hy. unfold loadConfig, readFile, call, wrap. simpl.
  rewrite Hr. simpl. rewrite Hy. simpl. unfold withDefaults.
  destruct cfg as [title url description]. simpl.
  repeat case_bool_decide; simpl in *; by subst.
Qed.

(** C6, as the code has it: when the configuration file cannot be
    read the run ends with that error, having done nothing else;
    the defaults stand in for a title or a URL that a file that was
    read and parsed leaves empty, and the description has none. *)
Theorem config_defaults_need_a_readable_file w :
  (∀ msg, ReadFile w "site.yml" = Err msg →
     runGenerate w
     = ([EvReadFile "site.yml"], Err ("reading site.yml: " +:+ msg)))
  ∧ (∀ data cfg,
       ReadFile w "site.yml" = Ok data → yamlUnmarshal data = Ok cfg →
       outcome (loadConfig w) = Ok (withDefaults cfg)).
Proof.
  split.
  - intros msg Hr. unfold runGenerate.
    by rewrite (loadConfig_unreadable _ _ Hr).
  - intros data cfg Hr Hy. by rewrite (loadConfig_parsed _ _ _ Hr Hy).
Qed.

End Config.

(** ** C10: what makes a draft *)

Section DraftFlag.
Context `{GoLib}.
Implicit Types (w : World) (entry : DirEntry).

Lemma Forall2_elem_of_l {A B} (R : A → B → Prop) (l : list A) (k : list B) x :
  Forall2 R l k → x ∈ l → ∃ y, y ∈ k ∧ R x y.
Proof.
  induction 1 as [|x' y l k HR _ IH]; [by intros ?%elem_of_nil |].
  intros [-> | Hin]%elem_of_cons.
  - exists y. split; [left | done].
  - destruct (IH Hin) as (y' & ? & ?). exists y'. split; [by right | done].
Qed.

(** C10.  For a content file of the directory whose front matter
    was read, in a run that collected its posts: [parsePost] skips
    the file exactly when the value of [draft] is the boolean
    [true]; with any other value ([false], a string, a number,
    nothing) or no [draft] key, the post built from the file is in
    the collection. *)
Theorem draft_only_when_literal_true w entries posts entry metaData :
  ReadDir w contentDir = Ok entries → collection w posts →
  entry ∈ entries → skipped entry = false →
  frontMatter w (Name entry) = Some metaData →
  (outcome (parsePost w (Name entry)) = Ok None
   ↔ metaData !! "draft" = Some (VBool true))
  ∧ (metaData !! "draft" ≠ Some (VBool true) →
     ∃ post, post ∈ posts
             ∧ outcome (parsePost w (Name entry)) = Ok (Some post)).
Proof.
  intros Hdir Hposts Hin Hs Hfm. split.
  - rewrite parsePost_skip, Hfm. split.
    + by intros (? & [= <-] & ?).
    + eauto.
  - intros Hnd%isDraft_false.
    apply parsePosts_Ok in Hposts as (entries' & Hdir' & Hall).
    assert (entries' = entries) as -> by congruence.
    assert (Hc : entry ∈ List.filter (contributes w) entries).
    { apply list_elem_of_In, filter_In. split; [by apply list_elem_of_In |].
      unfold contributes. by rewrite Hs, Hfm, Hnd. }
    destruct (Forall2_elem_of_l _ _ _ _ Hall Hc) as (post & Hpost & Hb).
    exists post. split; [done |]. by destruct Hb as (_ & _ & ?).
Qed.

End DraftFlag.

(** ** C9: entries that are not content files *)

Section Skipped.
Context `{GoLib}.
Implicit Types (w : World) (entry : DirEntry).

Lemma parsePostsLoop_without_skipped w before entry after acc :
  skipped entry = true →
  parsePostsLoop w (before ++ entry :: after) acc
  = parsePostsLoop w (before ++ after) acc.
Proof.
  intros Hs. revert acc.
  induction before as [|entry' before IH]; intros acc; simpl app.
  - by rewrite parsePostsLoop_cons, Hs.
  - rewrite !parsePostsLoop_cons. destruct (skipped entry'); [apply IH |].
    apply bind_ext; [done |]. intros [post |] _; apply IH.
Qed.

Lemma parsePosts_without_skipped w before entry after :
  ReadDir w contentDir = Ok (before ++ entry :: after) →
  skipped entry = true →
  parsePosts w = parsePosts (setEntries w (before ++ after)).
Proof.
  intros Hdir Hs. unfold parsePosts, readDir. cbn [setEntries ReadDir].
  rewrite bool_decide_eq_true_2, Hdir by done.
  unfold call, wrap, mbind, IO_bind. simpl.
  by rewrite parsePostsLoop_setEntries, (parsePostsLoop_without_skipped _ _ _ _ _ Hs).
Qed.

Lemma runGenerate_without_skipped w before entry after :
  ReadDir w contentDir = Ok (before ++ entry :: after) →
  skipped entry = true →
  runGenerate w = runGenerate (setEntries w (before ++ after)).
Proof.
  intros Hdir Hs. unfold runGenerate.
  apply bind_ext; [reflexivity |]. intros site _.
  rewrite cleanDir_setEntries.
  apply bind_ext; [reflexivity |]. intros [] _.
  apply bind_ext; [reflexivity |]. intros tmpl _.
  apply bind_ext;
    [by rewrite (parsePosts_without_skipped _ _ _ _ Hdir Hs) |].
  intros posts _. cbv zeta. rewrite generatePostPages_setEntries.
  reflexivity.
Qed.

Lemma only_absurd kinds (tr : list Event) e :
  only kinds tr → e ∈ tr → kind e ∉ kinds → False.
Proof.
  unfold only. rewrite Forall_forall. intros Honly Hin Hk. by apply Hk, Honly.
Qed.

(** The files that [parsePosts] reads are those of the entries that
    are not skipped. *)
Lemma parsePostsLoop_reads w entries acc path :
  EvReadFile path ∈ trace (parsePostsLoop w entries acc) →
  ∃ entry, entry ∈ entries ∧ skipped entry = false
           ∧ path = filepath.Join [contentDir; Name entry].
Proof.
  revert acc. induction entries as [|entry rest IH]; intros acc.
  - by intros ?%elem_of_nil.
  - rewrite parsePostsLoop_cons. destruct (skipped entry) eqn:Hs.
    + intros (entry' & ? & ? & ?)%IH. exists entry'. split; [by right | done].
    + intros [Hin | (post & _ & Hin)]%elem_of_trace_bind.
      * exists entry. split; [left |]. split; [done |].
        rewrite trace_wrap, parsePost_cases in Hin. simpl in Hin.
        repeat case_match; unfold trace in Hin; simpl in Hin;
          repeat (apply elem_of_cons in Hin as [Hin | Hin];
                  [by simplify_eq |]);
          by apply elem_of_nil in Hin.
      * assert (∃ entry', entry' ∈ rest ∧ skipped entry' = false
                 ∧ path = filepath.Join [contentDir; Name entry'])
          as (entry' & ? & ? & ?) by (destruct post; eapply IH, Hin).
        exists entry'. split; [by right | done].
Qed.

Lemma runGenerate_reads w entries path :
  ReadDir w contentDir = Ok entries →
  EvReadFile path ∈ trace (runGenerate w) →
  path = "site.yml"
  ∨ ∃ entry, entry ∈ entries ∧ skipped entry = false
             ∧ path = filepath.Join [contentDir; Name entry].
Proof.
  intros Hdir. unfold runGenerate. intros He.
  apply elem_of_trace_bind in He as [He | (site & _ & He)].
  { left. unfold loadConfig in He. trace_inv He; by simplify_eq. }
  apply elem_of_trace_bind in He as [He | (? & _ & He)].
  { rewrite trace_wrap in He.
    destruct (only_absurd _ _ _ (only_cleanDir w _) He). kind_out. }
  apply elem_of_trace_bind in He as [He | (tmpl & _ & He)].
  { rewrite trace_wrap in He.
    destruct (only_absurd _ _ _ (only_parseTemplates w) He). kind_out. }
  apply elem_of_trace_bind in He as [He | (posts & _ & He)].
  { right. rewrite trace_wrap in He. unfold parsePosts, readDir in He.
    apply elem_of_trace_bind in He as [He | (entries' & Hdir' & He)].
    { trace_inv He. by simplify_eq. }
    rewrite outcome_wrap, outcome_call, Hdir in Hdir'. simpl in Hdir'.
    injection Hdir' as <-. by apply parsePostsLoop_reads in He. }
  cbv zeta in He.
  apply elem_of_trace_bind in He as [He | (? & _ & He)].
  { trace_inv He. by simplify_eq. }
  apply elem_of_trace_bind in He as [He | (? & _ & He)].
  { rewrite trace_wrap in He.
    destruct (only_absurd _ _ _ (only_generatePostPages _ _ _ _) He). kind_out. }
  apply elem_of_trace_bind in He as [He | (? & _ & He)].
  { rewrite trace_wrap in He.
    destruct (only_absurd _ _ _ (only_generateHomePage _ _ _ _) He). kind_out. }
  apply elem_of_trace_bind in He as [He | (? & _ & He)].
  { rewrite trace_wrap in He.
    destruct (only_absurd _ _ _ (only_generateArchivePage _ _ _ _) He). kind_out. }
  apply elem_of_trace_bind in He as [He | (? & _ & He)].
  { rewrite trace_wrap in He.
    destruct (only_absurd _ _ _ (only_generateRSSFeed _ _ _) He). kind_out. }
  apply elem_of_trace_bind in He as [He | (? & _ & He)].
  { rewrite trace_wrap in He.
    destruct (only_absurd _ _ _ (only_copyStaticFiles _) He). kind_out. }
  apply elem_of_trace_bind in He as [He | (? & _ & He)].
  { trace_inv He. by simplify_eq. }
  trace_inv He. by simplify_eq.
Qed.

(** C9.  An entry of the content directory that is a directory, or
    whose name does not end in [.md], changes nothing: the run has
    the same effects and the same result as in a directory without
    the entry (so no post, no notice and no error come from it), and
    the only files that the run reads are the configuration file
    and the files of the other entries that are content files. *)
Theorem skipped_entries_change_nothing w before entry after :
  ReadDir w contentDir = Ok (before ++ entry :: after) →
  IsDir entry = true ∨ Str.HasSuffix (Name entry) ".md" = false →
  runGenerate w = runGenerate (setEntries w (before ++ after))
  ∧ ∀ path, EvReadFile path ∈ trace (runGenerate w) →
      path = "site.yml"
      ∨ ∃ entry', entry' ∈ before ++ after ∧ skipped entry' = false
                  ∧ path = filepath.Join [contentDir; Name entry'].
Proof.
  intros Hdir Hentry.
  assert (Hs : skipped entry = true).
  { unfold skipped. destruct Hentry as [-> | ->]; [done |].
    apply orb_true_r. }
  split; [by apply (runGenerate_without_skipped _ _ entry) |].
  intros path [-> | (entry' & Hin & Hs' & ->)]%(runGenerate_reads _ _ _ Hdir);
    [by left |].
  right. exists entry'. split; [| done].
  apply elem_of_app in Hin as [Hin | Hin]; apply elem_of_app; [by left |].
  apply elem_of_cons in Hin as [-> | Hin]; [congruence | by right].
Qed.

End Skipped.

(** ** C8: the "last build" date of the feed *)

Section LastBuild.
Context `{GoLib}.
Implicit Types (w : World) (posts : list Post).

Lemma Contains_skip a b t : Contains b t → Contains (a +:+ b) t.
Proof.
  intros (before & after & ->). exists (a +:+ before), after.
  by rewrite StrFacts.app_assoc.
Qed.

Lemma Contains_here a b t : Contains a t → Contains (a +:+ b) t.
Proof.
  intros (before & after & ->). exists before, (after +:+ b).
  by rewrite !StrFacts.app_assoc.
Qed.

Lemma Contains_refl s : Contains s s.
Proof. exists "", "". by rewrite StrFacts.app_nil_r. Qed.

Lemma Contains_prefix s a b : Contains s (a +:+ b) → Contains s a.
Proof.
  intros (before & after & ->). exists before, (b +:+ after).
  by rewrite !StrFacts.app_assoc.
Qed.

(** The document of a feed has the element for the "last build"
    date, whatever the date string is. *)
Lemma feedDocument_lastBuild feed :
  Contains (feedDocument feed)
    ("<lastBuildDate>" +:+ xmlEscape (chan_LastBuild (feed_Channel feed))
     +:+ "</lastBuildDate>").
Proof.
  unfold feedDocument, marshalFeed, marshalChannel, field. simpl.
  do 5 apply Contains_skip. apply Contains_here.
  apply Contains_skip, Contains_here.
  do 4 apply Contains_skip. apply Contains_here.
  do 7 apply Contains_skip. apply Contains_here.
  rewrite !StrFacts.app_nil_r. apply Contains_refl.
Qed.

Lemma first_is_most_recent (first : Post) rest :
  StronglySorted notOlder (first :: rest) →
  ∀ post, post ∈ first :: rest → notOlder first post.
Proof.
  intros [Hall _]%StronglySorted_cons post [-> | Hin]%elem_of_cons.
  - unfold notOlder. lia.
  - rewrite Forall_forall in Hall. auto.
Qed.

(** C8, as the code has it: the "last build" date of the feed of a
    run is the formatted date of the first post of the sorted
    collection, than which no post is more recent, and the empty
    string when there is no post; the element is in the document in
    both cases, empty in the second.  A run that succeeds has a
    feed. *)
Theorem last_build_is_first_post_or_empty w posts :
  GoLibLaws _ → collection w posts →
  (outcome (runGenerate w) = Ok () →
   ∃ feed, encoded (trace (runGenerate w)) feed)
  ∧ ∀ feed, encoded (trace (runGenerate w)) feed →
      let lastBuild := chan_LastBuild (feed_Channel feed) in
      (∀ first rest, sortSlice byDate posts = first :: rest →
         lastBuild = FormatRFC1123Z (Date first)
         ∧ ∀ post, post ∈ posts → notOlder first post)
      ∧ (posts = [] → lastBuild = "")
      ∧ Contains (feedDocument feed)
          ("<lastBuildDate>" +:+ xmlEscape lastBuild +:+ "</lastBuildDate>").
Proof.
  intros laws Hposts. split.
  { intros (site & posts' & _ & _ & Hrun)%runGenerate_Ok.
    destruct Hrun as (_ & _ & _ & Hfeed & _). eexists. exact Hfeed. }
  intros feed (site & posts' & _ & Hposts' & ->)%encoded_feed.
  rewrite <- (collection_unique _ _ _ Hposts Hposts').
  split; [| split].
  - intros first rest Hsorted. simpl. rewrite Hsorted. split; [done |].
    intros post Hin%(elem_of_sorted laws). rewrite Hsorted in Hin.
    eapply first_is_most_recent; [| done].
    rewrite <- Hsorted. apply (sorted_notOlder laws).
  - intros ->. simpl.
    assert (sortSlice byDate [] = @nil Post) as ->; [| done].
    apply Permutation_nil_r. apply (sorted_perm laws).
  - apply feedDocument_lastBuild.
Qed.

End LastBuild.

(** ** C7: the per-post pages *)

Section PagePaths.
Import Str StrFacts.

Lemma SplitSlash_plain s : noSlash s = true → SplitSlash s = [s].
Proof.
  induction s as [|c s IH]; [done |]. cbn [noSlash SplitSlash].
  intros [Hc Hs]%andb_true_iff. apply negb_true_iff in Hc.
  by rewrite Hc, (IH Hs).
Qed.

Lemma SplitSlash_app s t :
  noSlash s = true → SplitSlash (s +:+ "/" +:+ t) = s :: SplitSlash t.
Proof.
  induction s as [|c s IH]; [done |]. cbn [noSlash].
  intros [Hc Hs]%andb_true_iff. apply negb_true_iff in Hc.
  rewrite app_cons. cbn [SplitSlash]. by rewrite Hc, (IH Hs).
Qed.

Lemma step_plain rooted stack c :
  plainName c = true → filepath.step rooted stack c = c :: stack.
Proof.
  unfold plainName, filepath.step.
  intros [[[H1 H2]%andb_true_iff H3]%andb_true_iff _]%andb_true_iff.
  apply negb_true_iff in H1, H2, H3. by rewrite H1, H2, H3.
Qed.

Lemma postDir_plain slug :
  plainName slug = true → postDir slug = "docs/posts/" +:+ slug.
Proof.
  intros Hp. assert (Hns : noSlash slug = true).
  { unfold plainName in Hp. by apply andb_true_iff in Hp as [_ ?]. }
  unfold postDir, filepath.Join, outputDir. simpl.
  unfold filepath.Clean.
  change (is_byte "/" (at_ ("docs" +:+ "/" +:+ "posts" +:+ "/" +:+ slug) 0))
    with false.
  rewrite !SplitSlash_app, (SplitSlash_plain _ Hns) by done.
  cbn [foldl]. rewrite !step_plain by done.
  done.
Qed.

Lemma postPath_plain slug :
  plainName slug = true →
  postPath slug = "docs/posts/" +:+ slug +:+ "/index.html".
Proof.
  intros Hp. assert (Hns : noSlash slug = true).
  { unfold plainName in Hp. by apply andb_true_iff in Hp as [_ ?]. }
  unfold postPath. rewrite (postDir_plain _ Hp).
  unfold filepath.Join. rewrite bool_decide_eq_false_2 by done.
  cbn [Str.Join]. unfold filepath.Clean.
  change (is_byte "/" (at_ (("docs/posts/" +:+ slug) +:+ "/" +:+ "index.html") 0))
    with false.
  change (("docs/posts/" +:+ slug) +:+ "/" +:+ "index.html")
    with ("docs" +:+ "/" +:+ "posts" +:+ "/" +:+ slug +:+ "/" +:+ "index.html").
  rewrite !SplitSlash_app by done.
  change (SplitSlash "index.html") with ["index.html"].
  cbn [foldl]. rewrite !step_plain by done.
  done.
Qed.

Lemma app_inv_tail a b t : a +:+ t = b +:+ t → a = b.
Proof.
  intros Heq. assert (Hlen : len a = len b).
  { apply (f_equal len) in Heq. rewrite !len_app in Heq. lia. }
  by destruct (app_inv_len _ _ _ _ Heq Hlen).
Qed.

Lemma postPath_inj a b :
  plainName a = true → plainName b = true → postPath a = postPath b → a = b.
Proof.
  intros Ha Hb. rewrite (postPath_plain _ Ha), (postPath_plain _ Hb).
  intros Heq%String.app_inj. by apply app_inv_tail in Heq.
Qed.

End PagePaths.

Section Pages.
Context `{GoLib}.
Implicit Types (w : World) (posts : list Post) (entry : DirEntry).

Lemma length_remove_dups_le (l : list string) :
  (length (remove_dups l) ≤ length l)%nat.
Proof.
  induction l as [|x l IH]; [done |]. simpl. case_decide; simpl; lia.
Qed.

Lemma remove_dups_NoDup (l : list string) : NoDup l → remove_dups l = l.
Proof.
  induction 1 as [|x l Hx _ IH]; [done |]. simpl.
  case_decide; [done | by rewrite IH].
Qed.

Lemma builtFrom_Slug w entry post :
  builtFrom w entry post → Slug post = deriveSlug (Name entry).
Proof.
  intros (_ & _ & Hp). apply parsePost_post in Hp
    as (source & html & metaData & date & _ & _ & _ & _ & ->). done.
Qed.

Lemma collection_slugs w (files : list DirEntry) posts :
  Forall2 (builtFrom w) files posts →
  Slug <$> posts = (λ entry, deriveSlug (Name entry)) <$> files.
Proof.
  induction 1 as [|entry post files posts Hb _ IH]; [done |].
  rewrite !fmap_cons, IH. f_equal. by eapply builtFrom_Slug.
Qed.

(** C7, as the code has it: a run that succeeds writes one page for
    each content file that is not a draft, at the path of the file's
    slug; the distinct paths are as many as these files when their
    slugs are distinct plain names, and may be fewer otherwise. *)
Theorem one_page_per_post_written w entries :
  GoLibLaws _ → ReadDir w contentDir = Ok entries →
  outcome (runGenerate w) = Ok () →
  let files := List.filter (contributes w) entries in
  let slugs := (λ entry, deriveSlug (Name entry)) <$> files in
  let paths := pagePaths (trace (runGenerate w)) in
  paths ≡ₚ postPath <$> slugs
  ∧ length paths = length files
  ∧ (length (remove_dups paths) ≤ length files)%nat
  ∧ (NoDup slugs → Forall (λ slug, plainName slug = true) slugs →
     length (remove_dups paths) = length files).
Proof.
  intros laws Hdir Hok files slugs paths.
  apply runGenerate_Ok in Hok as (site & posts & _ & Hposts & Hrun).
  destruct Hrun as (_ & _ & _ & _ & Hpaths). fold paths in Hpaths.
  apply parsePosts_Ok in Hposts as (entries' & Hdir' & Hall).
  assert (entries' = entries) as -> by congruence. fold files in Hall.
  assert (Hperm : paths ≡ₚ postPath <$> slugs).
  { rewrite Hpaths, (sorted_perm laws). unfold slugs.
    rewrite <- (collection_slugs _ _ _ Hall), <- list_fmap_compose.
    reflexivity. }
  assert (Hlen : length paths = length files).
  { rewrite Hperm. unfold slugs. by rewrite !length_fmap. }
  split; [done |]. split; [done |]. split.
  - rewrite <- Hlen. apply length_remove_dups_le.
  - intros Hnd Hplain. rewrite remove_dups_NoDup; [done |].
    rewrite Hperm. apply NoDup_fmap_2_strong; [| done].
    rewrite Forall_forall in Hplain.
    intros a b Ha Hb. apply postPath_inj; auto.
Qed.

End Pages.

(** * The properties on the example site *)

Section Examples.
#[local] Existing Instance Civil.time.
#[local] Existing Instance Demo.lib.

Lemma demo_collection : collection Demo.site Demo.posts.
Proof. reflexivity. Qed.

Lemma demo_sorted : sortSlice byDate Demo.posts = Demo.sorted.
Proof. reflexivity. Qed.

Lemma demo_run : outcome (runGenerate Demo.site) = Ok ().
Proof. vm_compute. reflexivity. Qed.

(** C6 as written fails: without [site.yml] there is no
    configuration at all. *)
Lemma unreadable_config_has_no_defaults :
  ¬ defaultsWhenUnreadable Demo.unconfigured.
Proof.
  intros Hclaim. destruct Hclaim as (site & Hok & _).
  - eexists. reflexivity.
  - vm_compute in Hok. discriminate Hok.
Qed.

(** C7 as written fails: two files of the same slug are written to
    one path. *)
Lemma twins_share_a_path : ¬ onePathPerFile Demo.twins.
Proof.
  intros Hclaim. specialize (Hclaim _ eq_refl).
  assert (Hok : outcome (runGenerate Demo.twins) = Ok ())
    by (vm_compute; reflexivity).
  specialize (Hclaim Hok). vm_compute in Hclaim. discriminate Hclaim.
Qed.

(** C8 as written fails: the document of a feed without posts has
    the element, empty. *)
Lemma empty_feed_has_last_build : ¬ lastBuildOrAbsent Demo.config [].
Proof.
  intros [_ Habsent]. apply (Habsent eq_refl).
  eapply Contains_prefix, feedDocument_lastBuild.
Qed.

Lemma drafts_are_in_no_output_witness :
  GoLibLaws Demo.lib
  ∧ ReadDir Demo.site contentDir
    = Ok (take 3 Demo.entries ++ Demo.file "2024-07-01-secret.md"
            :: drop 4 Demo.entries)
  ∧ draftFile Demo.site (Demo.file "2024-07-01-secret.md") = true
  ∧ sameOutput (runGenerate Demo.site)
      (runGenerate
         (setEntries Demo.site (take 3 Demo.entries ++ drop 4 Demo.entries))).
Proof.
  split; [apply demo_laws |]. split; [reflexivity |].
  split; [vm_compute; reflexivity |].
  destruct (drafts_are_in_no_output Demo.site demo_laws) as (_ & _ & Hsame).
  apply (Hsame (take 3 Demo.entries) (Demo.file "2024-07-01-secret.md")
           (drop 4 Demo.entries)).
  - reflexivity.
  - vm_compute. reflexivity.
Defined.

Lemma home_lists_most_recent_witness :
  GoLibLaws Demo.lib ∧ collection Demo.site Demo.posts
  ∧ ∃ home, executed (trace (runGenerate Demo.site)) (CtxHome home)
      ∧ length (home_Posts home) = 4%nat
      ∧ StronglySorted notOlder (home_Posts home).
Proof.
  split; [apply demo_laws |]. split; [apply demo_collection |].
  destruct (home_lists_most_recent Demo.site Demo.posts demo_laws
              demo_collection) as [Hsome Hall].
  destruct (Hsome demo_run) as [home Hhome]. exists home.
  destruct (Hall home Hhome) as (Hlen & Hsorted & _). done.
Defined.

Lemma feed_items_are_sorted_prefix_witness :
  GoLibLaws Demo.lib ∧ collection Demo.site Demo.posts
  ∧ ∃ feed, encoded (trace (runGenerate Demo.site)) feed
      ∧ length (chan_Items (feed_Channel feed)) = 4%nat.
Proof.
  split; [apply demo_laws |]. split; [apply demo_collection |].
  destruct (feed_items_are_sorted_prefix Demo.site Demo.posts demo_laws
              demo_collection) as (_ & _ & Hsome & Hall).
  destruct (Hsome demo_run) as [feed Hfeed]. exists feed.
  destruct (Hall feed Hfeed) as (site & _ & _ & Hlen). done.
Defined.

Lemma archive_groups_partition_by_year_witness :
  GoLibLaws Demo.lib ∧ collection Demo.site Demo.posts
  ∧ ∃ archive, executed (trace (runGenerate Demo.site)) (CtxArchive archive)
      ∧ arch_Years archive ≫= yg_Posts ≡ₚ Demo.posts
      ∧ StronglySorted yearsDescend (arch_Years archive).
Proof.
  split; [apply demo_laws |]. split; [apply demo_collection |].
  destruct (archive_groups_partition_by_year Demo.site Demo.posts demo_laws
              demo_collection) as [Hsome Hall].
  destruct (Hsome demo_run) as [archive Harchive]. exists archive.
  destruct (Hall archive Harchive) as (Hperm & _ & _ & Hdesc). done.
Defined.

Lemma config_defaults_need_a_readable_file_witness :
  runGenerate Demo.unconfigured
  = ([EvReadFile "site.yml"],
     Err "reading site.yml: open site.yml: no such file or directory")
  ∧ outcome (loadConfig Demo.site) = Ok Demo.config.
Proof.
  split.
  - destruct (config_defaults_need_a_readable_file Demo.unconfigured)
      as [Herr _].
    apply (Herr "open site.yml: no such file or directory"). reflexivity.
  - destruct (config_defaults_need_a_readable_file Demo.site) as [_ Hok].
    apply (Hok "title: Demo"
             {| cfg_Title := "Demo"; cfg_URL := ""; cfg_Description := "" |});
      reflexivity.
Defined.

Lemma one_page_per_post_written_witness :
  GoLibLaws Demo.lib
  ∧ ReadDir Demo.site contentDir = Ok Demo.entries
  ∧ outcome (runGenerate Demo.site) = Ok ()
  ∧ length (pagePaths (trace (runGenerate Demo.site))) = 4%nat.
Proof.
  split; [apply demo_laws |]. split; [reflexivity |].
  split; [apply demo_run |].
  destruct (one_page_per_post_written Demo.site Demo.entries demo_laws
              eq_refl demo_run) as (_ & Hlen & _).
  rewrite Hlen. vm_compute. reflexivity.
Defined.

Lemma last_build_is_first_post_or_empty_witness :
  GoLibLaws Demo.lib ∧ collection Demo.site Demo.posts
  ∧ ∃ feed, encoded (trace (runGenerate Demo.site)) feed
      ∧ chan_LastBuild (feed_Channel feed) = "Sat, 01 Jun 2024 00:00:00 +0000".
Proof.
  split; [apply demo_laws |]. split; [apply demo_collection |].
  destruct (last_build_is_first_post_or_empty Demo.site Demo.posts demo_laws
              demo_collection) as [Hsome Hall].
  destruct (Hsome demo_run) as [feed Hfeed]. exists feed.
  destruct (Hall feed Hfeed) as (Hfirst & _ & _). split; [done |].
  destruct (Hfirst _ _ demo_sorted) as [-> _]. reflexivity.
Defined.

Lemma skipped_entries_change_nothing_witness :
  ReadDir Demo.site contentDir
  = Ok (take 4 Demo.entries ++ Demo.dir "images" :: drop 5 Demo.entries)
  ∧ IsDir (Demo.dir "images") = true
  ∧ runGenerate Demo.site
    = runGenerate
        (setEntries Demo.site (take 4 Demo.entries ++ drop 5 Demo.entries)).
Proof.
  split; [reflexivity |]. split; [reflexivity |].
  destruct (skipped_entries_change_nothing Demo.site (take 4 Demo.entries)
              (Demo.dir "images") (drop 5 Demo.entries) eq_refl
              (or_introl eq_refl)) as [Hsame _].
  exact Hsame.
Defined.

Lemma draft_only_when_literal_true_witness :
  ReadDir Demo.site contentDir = Ok Demo.entries
  ∧ collection Demo.site Demo.posts
  ∧ Demo.file "quoted.md" ∈ Demo.entries
  ∧ skipped (Demo.file "quoted.md") = false
  ∧ frontMatter Demo.site "quoted.md"
    = Some (Demo.meta "Quoted" "2022-03-04" (Some (VString "true")))
  ∧ ∃ post, post ∈ Demo.posts
      ∧ outcome (parsePost Demo.site "quoted.md") = Ok (Some post).
Proof.
  assert (Hin : Demo.file "quoted.md" ∈ Demo.entries).
  { unfold Demo.entries. do 6 apply list_elem_of_further.
    apply list_elem_of_here. }
  assert (Hfm : frontMatter Demo.site "quoted.md"
                = Some (Demo.meta "Quoted" "2022-03-04" (Some (VString "true"))))
    by reflexivity.
  split; [reflexivity |]. split; [apply demo_collection |].
  split; [exact Hin |]. split; [reflexivity |]. split; [exact Hfm |].
  destruct (draft_only_when_literal_true Demo.site Demo.entries Demo.posts
              (Demo.file "quoted.md")
              (Demo.meta "Quoted" "2022-03-04" (Some (VString "true")))
              eq_refl demo_collection Hin eq_refl Hfm) as [_ Hpost].
  apply Hpost. unfold Demo.meta. rewrite lookup_insert_eq. discriminate.
Defined.

(** The example of the specification: posts dated 2024-01-01,
    2024-06-01 and 2023-12-01 (and one more, of 2022) give the year
    groups 2024, 2023, 2022, with the posts of June and January in the
    first. *)
Example archive_of_the_example_site :
  (λ group, (yg_Year group, Slug <$> yg_Posts group))
    <$> archiveYears Demo.sorted
  = [(2024, ["summer"; "new-year"]); (2023, ["winter"]); (2022, ["quoted"])].
Proof. reflexivity. Qed.

Example home_of_the_example_site :
  Slug <$> capped postsPerPage Demo.sorted
  = ["summer"; "new-year"; "winter"; "quoted"].
Proof. reflexivity. Qed.

Example slugs_of_file_names :
  deriveSlug <$> ["2026-02-19-hello-world.md"; "hello-world.md";
                  "2026-02-19-.md"; "abcd-ef-gh-rest.md"; "draft.txt"]
  = ["hello-world"; "hello-world"; "2026-02-19-"; "rest"; "draft.txt"].
Proof. reflexivity. Qed.

End Examples.

(** * The other commands *)

(** ** [slugify] *)

Section Slugify.
Context `{GoStrings}.

Lemma isSlugByte_not_hyphen c : isSlugByte c = true → c ≠ hyphen.
Proof. intros Hc ->. vm_compute in Hc. discriminate Hc. Qed.

Lemma isSlugByte_hyphen : isSlugByte hyphen = false.
Proof. reflexivity. Qed.

Lemma hyphensApart_replaceRuns s inRun :
  hyphensApart inRun (replaceRuns inRun s) = true.
Proof.
  revert inRun. induction s as [|c s IH]; intros inRun; [done |].
  cbn [replaceRuns]. destruct (isSlugByte c) eqn:Hc.
  - cbn [hyphensApart]. rewrite Hc. apply IH.
  - destruct inRun; [apply IH |]. cbn [hyphensApart].
    rewrite isSlugByte_hyphen, bool_decide_eq_true_2 by done. apply IH.
Qed.

(** After a hyphen comes no hyphen. *)
Lemma hyphensApart_true_trimLeft s :
  hyphensApart true s = true → trimLeft s = s.
Proof.
  destruct s as [|c s]; [done |]. cbn [hyphensApart trimLeft].
  destruct (isSlugByte c) eqn:Hc.
  - intros _. by rewrite bool_decide_eq_false_2 by by apply isSlugByte_not_hyphen.
  - by rewrite andb_false_r.
Qed.

Lemma hyphensApart_trimLeft a s :
  hyphensApart a s = true → hyphensApart true (trimLeft s) = true.
Proof.
  destruct s as [|c s]; [done |]. cbn [hyphensApart trimLeft].
  destruct (isSlugByte c) eqn:Hc.
  - intros Hs. rewrite bool_decide_eq_false_2 by by apply isSlugByte_not_hyphen.
    cbn [hyphensApart]. by rewrite Hc.
  - intros [[Hh _]%andb_true_iff Hs]%andb_true_iff. rewrite Hh.
    by rewrite (hyphensApart_true_trimLeft _ Hs).
Qed.

Lemma slugShapeFrom_true_nonempty s : slugShapeFrom true s = true → s ≠ "".
Proof. by destruct s. Qed.

Lemma hyphensApart_trimRight a s :
  hyphensApart a s = true →
  trimRight s = "" ∨ slugShapeFrom a (trimRight s) = true.
Proof.
  revert a. induction s as [|c s IH]; intros a; [by left |].
  cbn [hyphensApart trimRight]. destruct (isSlugByte c) eqn:Hc.
  - intros Hs. right.
    rewrite (bool_decide_eq_false_2 (c = hyphen))
      by by apply isSlugByte_not_hyphen.
    cbn [andb slugShapeFrom]. rewrite Hc.
    destruct (IH _ Hs) as [-> | Ht]; done.
  - intros [[Hh Ha]%andb_true_iff Hs]%andb_true_iff. rewrite Hh.
    destruct (IH _ Hs) as [-> | Ht]; [by left |]. right.
    rewrite (bool_decide_eq_false_2 (trimRight s = ""))
      by by apply slugShapeFrom_true_nonempty.
    cbn [andb slugShapeFrom]. by rewrite Hc, Hh, Ha, Ht.
Qed.

(** X1.  Whatever the title, its slug is made of groups of lower-case
    letters and digits with one hyphen between two groups: it has no
    other byte, it neither starts nor ends with a hyphen, and it has no
    two hyphens in a row. *)
Theorem slugify_has_slug_shape (title : string) :
  slugShape (slugify title) = true.
Proof.
  unfold slugShape, slugify.
  pose proof (hyphensApart_replaceRuns (ToLower title) false) as Hr.
  apply hyphensApart_trimLeft in Hr.
  destruct (hyphensApart_trimRight _ _ Hr) as [-> | ->]; [done |].
  apply orb_true_r.
Qed.

Lemma slugShapeFrom_hyphensApart a s :
  slugShapeFrom a s = true → hyphensApart a s = true.
Proof.
  revert a. induction s as [|c s IH]; intros a; [done |].
  cbn [slugShapeFrom hyphensApart]. destruct (isSlugByte c); [apply IH |].
  intros [Hh Hs]%andb_true_iff. by rewrite Hh, (IH _ Hs).
Qed.

Lemma hyphensApart_replaceRuns_id a s inRun :
  hyphensApart a s = true → (inRun = true → a = true) →
  replaceRuns inRun s = s.
Proof.
  revert a inRun. induction s as [|c s IH]; intros a inRun; [done |].
  cbn [hyphensApart replaceRuns]. destruct (isSlugByte c) eqn:Hc.
  - intros Hs _. f_equal. by apply (IH false).
  - intros [[Hh Ha]%andb_true_iff Hs]%andb_true_iff Hrun.
    apply bool_decide_eq_true_1 in Hh as ->. apply negb_true_iff in Ha.
    destruct inRun; [by rewrite Hrun in Ha |].
    f_equal. by apply (IH true).
Qed.

Lemma slugShapeFrom_trimRight a s :
  slugShapeFrom a s = true → trimRight s = s.
Proof.
  revert a. induction s as [|c s IH]; intros a; [done |].
  cbn [slugShapeFrom trimRight]. destruct (isSlugByte c) eqn:Hc.
  - intros Hs. rewrite (IH _ Hs).
    by rewrite (bool_decide_eq_false_2 (c = hyphen))
      by by apply isSlugByte_not_hyphen.
  - intros [_ Hs]%andb_true_iff. rewrite (IH _ Hs).
    by rewrite (bool_decide_eq_false_2 (s = "")), andb_false_r
      by by apply slugShapeFrom_true_nonempty.
Qed.

(** X2.  A slug is its own slug, where lower-casing leaves slugs as
    they are (as it does: a slug has no upper-case letter). *)
Theorem slugify_idempotent (title : string) :
  (∀ s, slugShape s = true → ToLower s = s) →
  slugify (slugify title) = slugify title.
Proof.
  intros Hlower. pose proof (slugify_has_slug_shape title) as Hshape.
  set (slug := slugify title) in *.
  unfold slugify at 1. rewrite (Hlower _ Hshape).
  unfold slugShape in Hshape. apply orb_true_iff in Hshape as [He | Hs].
  - apply bool_decide_eq_true_1 in He. by rewrite He.
  - pose proof (slugShapeFrom_hyphensApart _ _ Hs) as Ha.
    rewrite (hyphensApart_replaceRuns_id true slug false Ha) by done.
    rewrite (hyphensApart_true_trimLeft _ Ha).
    by apply (slugShapeFrom_trimRight true).
Qed.

Lemma slugShapeFrom_noSlash a s : slugShapeFrom a s = true → noSlash s = true.
Proof.
  revert a. induction s as [|c s IH]; intros a; [done |].
  cbn [slugShapeFrom noSlash]. destruct (isSlugByte c) eqn:Hc.
  - intros Hs. rewrite (IH _ Hs), andb_true_r. apply negb_true_iff.
    apply bool_decide_eq_false_2. intros ->. vm_compute in Hc. discriminate.
  - intros [[Hh _]%andb_true_iff Hs]%andb_true_iff.
    apply bool_decide_eq_true_1 in Hh as ->. by rewrite (IH _ Hs).
Qed.

(** A slug that is not empty is one plain component of a path. *)
Lemma slugShape_plainName s : slugShape s = true → s ≠ "" → plainName s = true.
Proof.
  unfold slugShape. intros [He | Hs]%orb_true_iff Hne.
  { by apply bool_decide_eq_true_1 in He. }
  unfold plainName. rewrite (slugShapeFrom_noSlash _ _ Hs), andb_true_r.
  rewrite (bool_decide_eq_false_2 (s = "")) by done.
  destruct s as [|c s]; [done |]. cbn [slugShapeFrom] in Hs.
  destruct (isSlugByte c) eqn:Hc; [| by rewrite andb_false_r in Hs].
  rewrite !bool_decide_eq_false_2; [done | |];
    intros [= -> _]; vm_compute in Hc; discriminate.
Qed.

End Slugify.

(** ** [runNew] *)

Section NewPost.
Context `{GoTime} `{GoStrings}.
Import Str StrFacts.
Implicit Types (w : World) (host : Host) (flags : NewFlags).

Lemma trace_newBody host flags : trace (newBody host flags) = [].
Proof.
  unfold newBody. destruct (negb _); [done |]. by destruct (flag_stdin flags).
Qed.

(** [runNew] by cases on what the machine answers. *)
Lemma runNew_cases w host flags :
  let path :=
    filepath.Join [contentDir;
                   newFileName (flag_date flags) (slugify (flag_title flags))] in
  runNew w host flags =
    if bool_decide (flag_title flags = "") then ([], Err "--title is required")
    else
      match outcome (newBody host flags) with
      | Err msg => ([], Err msg)
      | Ok body =>
          let text :=
            newFileText (flag_title flags) (flag_date flags)
              (flag_description flags) body in
          match MkdirAll w contentDir with
          | Some msg =>
              ([EvMkdirAll contentDir], Err ("creating content dir: " +:+ msg))
          | None =>
              match WriteFile w path text with
              | Some msg =>
                  ([EvMkdirAll contentDir; EvWriteFile path text],
                   Err ("writing post: " +:+ msg))
              | None =>
                  ([EvMkdirAll contentDir; EvWriteFile path text;
                    EvPrint (path +:+ nl)], Ok ())
              end
          end
      end.
Proof.
  intros path. unfold runNew. fold path. case_bool_decide; [done |].
  pose proof (trace_newBody host flags) as Ht.
  destruct (newBody host flags) as [tr [body | msg]];
    unfold trace, outcome in *; simpl in *; subst tr; [| done].
  unfold mkdirAll, op, wrap, mbind, IO_bind, Println. simpl.
  destruct (MkdirAll w contentDir); simpl; [done |].
  by destruct (WriteFile w path _).
Qed.

(** X3.  [new] writes at most one file.  When it writes one, a
    title was given, the conversion of the URL or of the standard
    input (if one was asked for) gave the body, the content directory
    was there or was made, and the file is the one named by the date
    and the slug of the title, with the front matter and the body as
    its text; before it nothing but the making of the directory
    happened, and after it only the printing of the path. *)
Theorem runNew_writes_one_file w host flags path text :
  EvWriteFile path text ∈ trace (runNew w host flags) →
  flag_title flags ≠ ""
  ∧ path = filepath.Join
             [contentDir;
              newFileName (flag_date flags) (slugify (flag_title flags))]
  ∧ (∃ body, outcome (newBody host flags) = Ok body
             ∧ text = newFileText (flag_title flags) (flag_date flags)
                        (flag_description flags) body)
  ∧ MkdirAll w contentDir = None
  ∧ trace (runNew w host flags)
    = [EvMkdirAll contentDir; EvWriteFile path text]
      ++ match outcome (runNew w host flags) with
         | Ok _ => [EvPrint (path +:+ nl)]
         | Err _ => []
         end.
Proof.
  rewrite runNew_cases. cbv zeta. case_bool_decide as Ht.
  { intros []%elem_of_nil. }
  destruct (outcome (newBody host flags)) as [body | msg].
  2: { intros []%elem_of_nil. }
  destruct (MkdirAll w contentDir) as [msg |].
  { intros [=]%list_elem_of_singleton. }
  destruct (WriteFile w _ _) as [msg |]; unfold trace, outcome; simpl.
  - intros [[=] | [= -> ->]%list_elem_of_singleton]%elem_of_cons. eauto 10.
  - intros [[=] | [[= -> ->] | [=]%list_elem_of_singleton]%elem_of_cons]%elem_of_cons.
    eauto 10.
Qed.

(** X4.  Without a title, and when the conversion fails, [new]
    touches nothing: no directory is made and no file written. *)
Theorem runNew_fails_before_it_writes w host flags :
  flag_title flags = "" ∨ (∃ msg, outcome (newBody host flags) = Err msg) →
  trace (runNew w host flags) = []
  ∧ ∃ msg, outcome (runNew w host flags) = Err msg.
Proof.
  rewrite runNew_cases. cbv zeta. intros [-> | [msg Hb]]; [by eauto |].
  case_bool_decide; [by eauto |]. rewrite Hb. by eauto.
Qed.

Lemma at_app_r a b : at_ (a +:+ b) (len a) = at_ b 0.
Proof. unfold at_, len. induction a as [|c a IH]; [done | apply IH]. Qed.

Lemma isDateFlag_prefix date :
  isDateFlag date = true → isDashPrefix (date +:+ "-") = true.
Proof.
  unfold isDateFlag, isDashPrefix.
  intros [[Hlen H4]%andb_true_iff H7]%andb_true_iff.
  apply bool_decide_eq_true_1 in Hlen.
  replace (at_ (date +:+ "-") 10) with (at_ (date +:+ "-") (len date))
    by by rewrite Hlen.
  rewrite at_app_r, len_app, Hlen, !at_app_l, H4, H7 by lia. done.
Qed.

(** X5.  The file that [new] names is read back as the same post:
    with a date of the form of the default one and a title that has
    a letter or a digit, the file is a content file, [deriveSlug]
    gives the slug of the title back, and the page of the post is
    [docs/posts/<slug>/index.html]. *)
Theorem new_post_comes_back_by_its_slug (date title : string) :
  isDateFlag date = true → slugify title ≠ "" →
  let name := newFileName date (slugify title) in
  skipped {| Name := name; IsDir := false |} = false
  ∧ deriveSlug name = slugify title
  ∧ postPath (deriveSlug name)
    = "docs/posts/" +:+ slugify title +:+ "/index.html".
Proof.
  intros Hdate Hslug name.
  assert (Hname : name = (date +:+ "-") +:+ slugify title +:+ ".md").
  { unfold name, newFileName. by rewrite app_assoc. }
  assert (Hd : deriveSlug name = slugify title).
  { rewrite Hname. apply deriveSlug_prefixed; [| done].
    by apply isDateFlag_prefix. }
  split; [| split; [done |]].
  - unfold skipped. simpl. rewrite Hname, <- app_assoc, HasSuffix_app. done.
  - rewrite Hd. apply postPath_plain, slugShape_plainName; [| done].
    apply slugify_has_slug_shape.
Qed.


End NewPost.

(** ** [cleanDir] and [runClean] *)

Section Clean.
Context `{GoLib}.
Import Str StrFacts.
Implicit Types (w : World) (entry : DirEntry).

Lemma plainName_noSlash s : plainName s = true → noSlash s = true.
Proof. unfold plainName. by intros [_ ?]%andb_true_iff. Qed.

(** Two plain names are joined by a slash. *)
Lemma Join_plain dir name :
  plainName dir = true → plainName name = true →
  filepath.Join [dir; name] = dir +:+ "/" +:+ name.
Proof.
  intros Hd Hn. pose proof (plainName_noSlash _ Hd) as Hds.
  pose proof (plainName_noSlash _ Hn) as Hns.
  destruct dir as [|c dir]; [done |].
  unfold filepath.Join. rewrite bool_decide_eq_false_2 by done.
  cbn [Str.Join]. unfold filepath.Clean.
  cbn [noSlash] in Hds. apply andb_true_iff in Hds as [Hc Hds'].
  apply negb_true_iff, bool_decide_eq_false_1 in Hc.
  assert (Hroot : is_byte "/" (at_ (String c dir +:+ "/" +:+ name) 0) = false).
  { rewrite app_cons. unfold is_byte, at_. simpl.
    apply bool_decide_eq_false_2. congruence. }
  rewrite Hroot.
  rewrite SplitSlash_app, (SplitSlash_plain _ Hns)
    by by apply plainName_noSlash.
  cbn [foldl]. rewrite !step_plain by done.
  change (Str.Join (reverse [name; String c dir]) "/")
    with (String c dir +:+ "/" +:+ name).
  by rewrite app_cons, bool_decide_eq_false_2 by done.
Qed.

Lemma removeEntries_events w dir entries e :
  e ∈ trace (removeEntries w dir entries) →
  ∃ entry, entry ∈ entries ∧ e = EvRemoveAll (filepath.Join [dir; Name entry]).
Proof.
  induction entries as [|entry rest IH]; cbn [removeEntries]; intros He.
  - trace_inv He.
  - apply elem_of_trace_bind in He as [He | ([] & _ & He)].
    + trace_inv He. exists entry. split; [apply list_elem_of_here | done].
    + destruct (IH He) as (entry' & Hin & ->).
      exists entry'. split; [by apply list_elem_of_further | done].
Qed.

Lemma removeEntries_Ok w dir entries :
  outcome (removeEntries w dir entries) = Ok () →
  trace (removeEntries w dir entries)
  = (λ entry, EvRemoveAll (filepath.Join [dir; Name entry])) <$> entries.
Proof.
  induction entries as [|entry rest IH]; cbn [removeEntries]; [done |].
  intros ([] & Hrm & Hrest)%outcome_bind_Ok.
  rewrite (trace_bind_Ok _ _ _ Hrm), trace_op, (IH Hrest). done.
Qed.

Lemma cleanDir_events w dir path :
  EvRemoveAll path ∈ trace (cleanDir w dir) →
  MkdirAll w dir = None
  ∧ ∃ entries entry, ReadDir w dir = Ok entries ∧ entry ∈ entries
      ∧ path = filepath.Join [dir; Name entry].
Proof.
  unfold cleanDir, mkdirAll, readDir. intros He.
  apply elem_of_trace_bind in He as [He | ([] & Hmk & He)].
  { trace_inv He. discriminate He. }
  apply elem_of_trace_bind in He as [He | (entries & Hdir & He)].
  { trace_inv He. discriminate He. }
  rewrite outcome_call in Hdir.
  apply removeEntries_events in He as (entry & Hin & [= ->]).
  split; [| by eauto].
  unfold op, outcome in Hmk. simpl in Hmk. by destruct (MkdirAll w dir).
Qed.

Lemma cleanDir_Ok w dir :
  outcome (cleanDir w dir) = Ok () →
  ∃ entries, ReadDir w dir = Ok entries
    ∧ trace (cleanDir w dir)
      = EvMkdirAll dir :: EvReadDir dir
        :: ((λ entry, EvRemoveAll (filepath.Join [dir; Name entry])) <$> entries).
Proof.
  unfold cleanDir, mkdirAll, readDir.
  intros ([] & Hmk & (entries & Hdir & Hrm)%outcome_bind_Ok)%outcome_bind_Ok.
  exists entries. split; [by rewrite outcome_call in Hdir |].
  rewrite (trace_bind_Ok _ _ _ Hmk), (trace_bind_Ok _ _ _ Hdir), trace_op,
    trace_call, (removeEntries_Ok _ _ _ Hrm). done.
Qed.

(** X7.  A [clean] that succeeds made sure that the output
    directory is there, listed it, removed each entry of the listing
    in turn and nothing else, and printed one line.  For an entry
    with a plain name, as a listing has them, what is removed is
    [docs/<name>]. *)
Theorem runClean_empties_the_output w :
  outcome (runClean w) = Ok () →
  ∃ entries,
    ReadDir w outputDir = Ok entries
    ∧ trace (runClean w)
      = EvMkdirAll outputDir :: EvReadDir outputDir
        :: ((λ entry, EvRemoveAll (filepath.Join [outputDir; Name entry]))
              <$> entries)
        ++ [EvPrint ("Cleaned output directory" +:+ nl)]
    ∧ ∀ entry, entry ∈ entries → plainName (Name entry) = true →
        filepath.Join [outputDir; Name entry] = "docs/" +:+ Name entry.
Proof.
  unfold runClean. intros ([] & Hc & _)%outcome_bind_Ok.
  rewrite (trace_bind_Ok _ _ _ Hc), trace_wrap.
  rewrite outcome_wrap in Hc. apply wrapErr_Ok in Hc.
  destruct (cleanDir_Ok _ _ Hc) as (entries & Hdir & ->).
  exists entries. split; [done |]. split; [done |].
  intros entry _ Hp. by rewrite Join_plain.
Qed.

(** X8.  [generate] removes nothing but entries of the output
    directory, and only after the configuration was loaded: whatever
    it removes is the join of [docs] and a name that the listing of
    [docs] has, which for a plain name, as a listing has them, is
    [docs/<name>]. *)
Theorem runGenerate_removes_only_output_entries w path :
  EvRemoveAll path ∈ trace (runGenerate w) →
  (∃ site, outcome (loadConfig w) = Ok site)
  ∧ MkdirAll w outputDir = None
  ∧ ∃ entries entry,
      ReadDir w outputDir = Ok entries ∧ entry ∈ entries
      ∧ path = filepath.Join [outputDir; Name entry]
      ∧ (plainName (Name entry) = true → path = "docs/" +:+ Name entry).
Proof.
  unfold runGenerate. intros He.
  apply elem_of_trace_bind in He as [He | (site & Hsite & He)].
  { destruct (only_absurd _ _ _ (only_loadConfig w) He). kind_out. }
  split; [by eauto |].
  apply elem_of_trace_bind in He as [He | (? & _ & He)].
  { rewrite trace_wrap in He.
    apply cleanDir_events in He as (Hmk & entries & entry & Hdir & Hin & ->).
    split; [done |]. exists entries, entry.
    split; [done |]. split; [done |]. split; [done |].
    intros Hp. by rewrite Join_plain. }
  apply elem_of_trace_bind in He as [He | (tmpl & _ & He)].
  { rewrite trace_wrap in He.
    destruct (only_absurd _ _ _ (only_parseTemplates w) He). kind_out. }
  apply elem_of_trace_bind in He as [He | (posts & _ & He)].
  { rewrite trace_wrap in He.
    destruct (only_absurd _ _ _ (only_parsePosts w) He). kind_out. }
  cbv zeta in He.
  apply elem_of_trace_bind in He as [He | (? & _ & He)].
  { trace_inv He. discriminate He. }
  apply elem_of_trace_bind in He as [He | (? & _ & He)].
  { rewrite trace_wrap in He.
    destruct (only_absurd _ _ _ (only_generatePostPages _ _ _ _) He). kind_out. }
  apply elem_of_trace_bind in He as [He | (? & _ & He)].
  { rewrite trace_wrap in He.
    destruct (only_absurd _ _ _ (only_generateHomePage _ _ _ _) He). kind_out. }
  apply elem_of_trace_bind in He as [He | (? & _ & He)].
  { rewrite trace_wrap in He.
    destruct (only_absurd _ _ _ (only_generateArchivePage _ _ _ _) He). kind_out. }
  apply elem_of_trace_bind in He as [He | (? & _ & He)].
  { rewrite trace_wrap in He.
    destruct (only_absurd _ _ _ (only_generateRSSFeed _ _ _) He). kind_out. }
  apply elem_of_trace_bind in He as [He | (? & _ & He)].
  { rewrite trace_wrap in He.
    destruct (only_absurd _ _ _ (only_copyStaticFiles w) He). kind_out. }
  cbv zeta in He. trace_inv He; discriminate He.
Qed.

End Clean.

(** ** [parseTemplates] and [loadConfig] *)

Section TemplatesAndConfig.
Context `{GoLib}.
Implicit Types (w : World) (site : SiteConfig).

Lemma Execute_lookup (templates : gmap string Template) name t path ctx :
  templates !! name = Some t →
  Execute templates name path ctx = op (EvExecute path name ctx) (t ctx).
Proof. unfold Execute. by intros ->. Qed.

(** X9.  The templates of a run are the three pages, each parsed
    together with the base template from the template directory: a
    successful [parseTemplates] has a template for [home.html],
    [post.html] and [archive.html] and for no other name, so that no
    page is ever executed on a missing template; a failure names the
    page whose files did not parse. *)
Theorem parseTemplates_gives_the_three_pages w :
  match outcome (parseTemplates w) with
  | Ok templates =>
      (∀ page, page ∈ pages →
         ∃ t, ParseFiles w ["templates/base.html"; "templates/" +:+ page] = Ok t
              ∧ templates !! page = Some t
              ∧ ∀ path ctx, Execute templates page path ctx
                            = op (EvExecute path page ctx) (t ctx))
      ∧ (∀ name, is_Some (templates !! name) → name ∈ pages)
  | Err msg =>
      ∃ page cause,
        page ∈ pages
        ∧ ParseFiles w ["templates/base.html"; "templates/" +:+ page] = Err cause
        ∧ msg = "parsing " +:+ page +:+ ": " +:+ cause
  end.
Proof.
  unfold parseTemplates, pages. cbn [parseTemplatesLoop].
  change (filepath.Join [templateDir; "base.html"]) with "templates/base.html".
  change (filepath.Join [templateDir; "home.html"]) with "templates/home.html".
  change (filepath.Join [templateDir; "post.html"]) with "templates/post.html".
  change (filepath.Join [templateDir; "archive.html"])
    with "templates/archive.html".
  rewrite !outcome_bind, !outcome_wrap, !outcome_call.
  destruct (ParseFiles w ["templates/base.html"; "templates/home.html"])
    as [t1 | cause] eqn:H1; simpl.
  2: { exists "home.html", cause. split; [| done]. apply list_elem_of_here. }
  destruct (ParseFiles w ["templates/base.html"; "templates/post.html"])
    as [t2 | cause] eqn:H2; simpl.
  2: { exists "post.html", cause. split; [| done].
       apply list_elem_of_further, list_elem_of_here. }
  destruct (ParseFiles w ["templates/base.html"; "templates/archive.html"])
    as [t3 | cause] eqn:H3; simpl.
  2: { exists "archive.html", cause. split; [| done].
       do 2 apply list_elem_of_further. apply list_elem_of_here. }
  unfold outcome. simpl. split.
  - intros page Hin.
    assert (Hcases : page = "home.html" ∨ page = "post.html"
                     ∨ page = "archive.html").
    { repeat (apply elem_of_cons in Hin as [Hin | Hin]; [by eauto |]).
      by apply elem_of_nil in Hin. }
    destruct Hcases as [-> | [-> | ->]].
    + exists t1. split; [done |].
      assert (Hl : (<["archive.html" := t3]>
                      (<["post.html" := t2]> (<["home.html" := t1]> ∅))
                    : gmap string Template) !! "home.html" = Some t1).
      { rewrite !lookup_insert_ne by done. apply lookup_insert_eq. }
      split; [done |]. intros path ctx. by apply Execute_lookup.
    + exists t2. split; [done |].
      assert (Hl : (<["archive.html" := t3]>
                      (<["post.html" := t2]> (<["home.html" := t1]> ∅))
                    : gmap string Template) !! "post.html" = Some t2).
      { rewrite lookup_insert_ne by done. apply lookup_insert_eq. }
      split; [done |]. intros path ctx. by apply Execute_lookup.
    + exists t3. split; [done |].
      assert (Hl : (<["archive.html" := t3]>
                      (<["post.html" := t2]> (<["home.html" := t1]> ∅))
                    : gmap string Template) !! "archive.html" = Some t3).
      { apply lookup_insert_eq. }
      split; [done |]. intros path ctx. by apply Execute_lookup.
  - intros name Hsome.
    destruct (decide (name = "archive.html")) as [-> | Ha].
    { do 2 apply list_elem_of_further. apply list_elem_of_here. }
    rewrite lookup_insert_ne in Hsome by done.
    destruct (decide (name = "post.html")) as [-> | Hp].
    { apply list_elem_of_further, list_elem_of_here. }
    rewrite lookup_insert_ne in Hsome by done.
    destruct (decide (name = "home.html")) as [-> | Hh].
    { apply list_elem_of_here. }
    rewrite lookup_insert_ne, lookup_empty in Hsome by done.
    by destruct Hsome.
Qed.

Lemma loadConfig_unparsed w data msg :
  ReadFile w "site.yml" = Ok data → yamlUnmarshal data = Err msg →
  loadConfig w = ([EvReadFile "site.yml"], Err ("parsing site.yml: " +:+ msg)).
Proof.
  intros Hr Hy. unfold loadConfig, readFile, call, wrap. simpl.
  rewrite Hr. simpl. by rewrite Hy.
Qed.

Lemma loadConfig_Ok w site :
  outcome (loadConfig w) = Ok site →
  ∃ data cfg, ReadFile w "site.yml" = Ok data ∧ yamlUnmarshal data = Ok cfg
              ∧ site = withDefaults cfg.
Proof.
  destruct (ReadFile w "site.yml") as [data | msg] eqn:Hr.
  2: { by rewrite (loadConfig_unreadable _ _ Hr). }
  destruct (yamlUnmarshal data) as [cfg | msg] eqn:Hy.
  - rewrite (loadConfig_parsed _ _ _ Hr Hy). intros [= <-]. eauto.
  - by rewrite (loadConfig_unparsed _ _ _ Hr Hy).
Qed.

(** X10.  A configuration that was loaded has a title and a URL:
    neither is empty, for the file's own value or the default is
    there.  The description is the file's, empty or not.  A file
    that cannot be read or parsed gives no configuration, with the
    error naming which of the two failed. *)
Theorem loadConfig_has_title_and_url w :
  match outcome (loadConfig w) with
  | Ok site =>
      cfg_Title site ≠ "" ∧ cfg_URL site ≠ ""
      ∧ ∃ data cfg,
          ReadFile w "site.yml" = Ok data ∧ yamlUnmarshal data = Ok cfg
          ∧ cfg_Description site = cfg_Description cfg
          ∧ (cfg_Title cfg ≠ "" → cfg_Title site = cfg_Title cfg)
          ∧ (cfg_URL cfg ≠ "" → cfg_URL site = cfg_URL cfg)
  | Err msg =>
      (∃ cause, ReadFile w "site.yml" = Err cause
                ∧ msg = "reading site.yml: " +:+ cause)
      ∨ (∃ data cause, ReadFile w "site.yml" = Ok data
                       ∧ yamlUnmarshal data = Err cause
                       ∧ msg = "parsing site.yml: " +:+ cause)
  end.
Proof.
  destruct (ReadFile w "site.yml") as [data | cause] eqn:Hr.
  2: { rewrite (loadConfig_unreadable _ _ Hr). left. by eauto. }
  destruct (yamlUnmarshal data) as [cfg | cause] eqn:Hy.
  - rewrite (loadConfig_parsed _ _ _ Hr Hy). unfold outcome, withDefaults.
    simpl. split; [by case_bool_decide |]. split; [by case_bool_decide |].
    exists data, cfg. split; [done |]. split; [done |]. split; [done |].
    split; intros Hne; by rewrite bool_decide_eq_false_2.
  - rewrite (loadConfig_unparsed _ _ _ Hr Hy). right. by eauto.
Qed.

End TemplatesAndConfig.

(** ** The posts of the collection and the items of the feed *)

Section Collected.
Context `{GoLib}.
Implicit Types (w : World) (post : Post) (entry : DirEntry).

Lemma builtFrom_fields w entry post :
  builtFrom w entry post →
  Title post ≠ "" ∧ URL post = "/posts/" +:+ Slug post +:+ "/"
  ∧ Slug post = deriveSlug (Name entry)
  ∧ IsDir entry = false ∧ Str.HasSuffix (Name entry) ".md" = true.
Proof.
  intros (Hs & _ & Hp).
  apply parsePost_post in Hp as (source & html & md & date & _ & _ & _ & _ & ->).
  unfold skipped in Hs. apply orb_false_iff in Hs as [Hdir Hmd].
  apply negb_false_iff in Hmd. unfold mkPost. simpl.
  split; [by case_bool_decide |]. done.
Qed.

(** X11.  Every post of the collection has a title that is not
    empty, the URL [/posts/<slug>/], and the slug of a regular
    [.md] file that the content directory lists. *)
Theorem collected_post_has_title_slug_and_url w posts post :
  collection w posts → post ∈ posts →
  Title post ≠ ""
  ∧ URL post = "/posts/" +:+ Slug post +:+ "/"
  ∧ ∃ entries entry,
      ReadDir w contentDir = Ok entries ∧ entry ∈ entries
      ∧ IsDir entry = false ∧ Str.HasSuffix (Name entry) ".md" = true
      ∧ Slug post = deriveSlug (Name entry).
Proof.
  intros Hc Hin.
  destruct (collection_builtFrom _ _ _ Hc Hin) as (entries & entry & Hdir & He & Hb).
  destruct (builtFrom_fields _ _ _ Hb) as (Ht & Hu & Hs & Hd & Hmd).
  split; [done |]. split; [done |]. by eauto 10.
Qed.

(** X12.  Every item of the feed of a run is the item of a post of
    the collection: its link and its identifier are the same text,
    the URL of the site followed by [/posts/<slug>/], and its title
    is the title of the post. *)
Theorem feed_item_links_to_the_post w item :
  GoLibLaws _ → syndicated (trace (runGenerate w)) item →
  item_GUID item = item_Link item
  ∧ ∃ site posts post,
      outcome (loadConfig w) = Ok site ∧ collection w posts ∧ post ∈ posts
      ∧ item_Link item = cfg_URL site +:+ "/posts/" +:+ Slug post +:+ "/"
      ∧ item_Title item = Title post
      ∧ item_Description item = Description post
      ∧ item_PubDate item = FormatRFC1123Z (Date post).
Proof.
  intros Hlaws (feed & Henc & Hitem).
  apply encoded_feed in Henc as (site & posts & Hsite & Hc & ->).
  simpl in Hitem. apply list_elem_of_fmap in Hitem as (post & -> & Hin).
  apply elem_of_capped in Hin.
  rewrite (sortSlice_perm Hlaws) in Hin.
  split; [done |]. exists site, posts, post.
  destruct (collection_builtFrom _ _ _ Hc Hin) as (entries & entry & _ & _ & Hb).
  destruct (builtFrom_fields _ _ _ Hb) as (_ & Hu & _).
  simpl. rewrite Hu. done.
Qed.

End Collected.

(** ** Failures of [parsePosts] *)

Section ParseErrors.
Context `{GoLib}.
Implicit Types (w : World) (entry : DirEntry).

Lemma parsePostsLoop_Err w entries acc msg :
  outcome (parsePostsLoop w entries acc) = Err msg →
  ∃ before entry after cause,
    entries = before ++ entry :: after
    ∧ Forall (parses w) before
    ∧ skipped entry = false
    ∧ outcome (parsePost w (Name entry)) = Err cause
    ∧ msg = "parsing " +:+ Name entry +:+ ": " +:+ cause.
Proof.
  revert acc. induction entries as [|entry rest IH]; intros acc; [done |].
  rewrite parsePostsLoop_cons. destruct (skipped entry) eqn:Hs.
  - intros (before & bad & after & cause & -> & Hb & Hrest)%IH.
    exists (entry :: before), bad, after, cause. split; [done |].
    split; [| done]. constructor; [by left | done].
  - rewrite outcome_bind, outcome_wrap.
    destruct (outcome (parsePost w (Name entry))) as [post | cause] eqn:Hp;
      simpl.
    + intros Hrest.
      assert (Hnext : ∃ acc', outcome (parsePostsLoop w rest acc') = Err msg).
      { destruct post; eauto. }
      destruct Hnext as [acc' Hnext].
      apply IH in Hnext as (before & bad & after & cause & -> & Hb & Hbad).
      exists (entry :: before), bad, after, cause. split; [done |].
      split; [| done]. constructor; [right; by eauto | done].
    + intros [= <-]. exists [], entry, rest, cause. by eauto 10.
Qed.

(** X13.  When [parsePosts] fails, either the content directory
    could not be listed, or a content file could not be parsed; the
    error names that file, which is the first of the listing that
    fails: every entry before it was skipped or parsed. *)
Theorem parsePosts_error_names_the_first_bad_file w msg :
  outcome (parsePosts w) = Err msg →
  (∃ cause, ReadDir w contentDir = Err cause
            ∧ msg = "reading content dir: " +:+ cause)
  ∨ (∃ before entry after cause,
       ReadDir w contentDir = Ok (before ++ entry :: after)
       ∧ Forall (parses w) before
       ∧ skipped entry = false
       ∧ outcome (parsePost w (Name entry)) = Err cause
       ∧ msg = "parsing " +:+ Name entry +:+ ": " +:+ cause).
Proof.
  unfold parsePosts, readDir. rewrite outcome_bind, outcome_wrap, outcome_call.
  destruct (ReadDir w contentDir) as [entries | cause]; simpl.
  - intros (before & entry & after & cause & -> & Hrest)%parsePostsLoop_Err.
    right. exists before, entry, after, cause. done.
  - intros [= <-]. left. by eauto.
Qed.

Lemma parsePostsLoop_fails w entries entry acc cause :
  entry ∈ entries → skipped entry = false →
  outcome (parsePost w (Name entry)) = Err cause →
  ∃ msg, outcome (parsePostsLoop w entries acc) = Err msg.
Proof.
  intros Hin Hs Hp. revert acc.
  induction entries as [|first rest IH]; intros acc.
  { by apply elem_of_nil in Hin. }
  rewrite parsePostsLoop_cons.
  apply elem_of_cons in Hin as [<- | Hin].
  { rewrite Hs, outcome_bind, outcome_wrap, Hp. simpl. by eauto. }
  destruct (skipped first); [by apply IH |].
  rewrite outcome_bind, outcome_wrap.
  destruct (outcome (parsePost w (Name first))) as [[post |] | cause'];
    simpl; [by apply IH | by apply IH | by eauto].
Qed.

Lemma runGenerate_without_posts w msg :
  outcome (parsePosts w) = Err msg →
  (∃ msg', outcome (runGenerate w) = Err msg')
  ∧ Forall quiet (trace (runGenerate w)).
Proof.
  intros Hp. unfold runGenerate. split.
  - rewrite outcome_bind. destruct (outcome (loadConfig w)); [| by eauto].
    rewrite outcome_bind. destruct (outcome (wrap _ (cleanDir w _))); [| by eauto].
    rewrite outcome_bind. destruct (outcome (wrap _ (parseTemplates w)));
      [| by eauto].
    rewrite outcome_bind, outcome_wrap, Hp. simpl. by eauto.
  - apply Forall_trace_bind; [apply quiet_loadConfig |]. intros site _.
    apply Forall_trace_bind; [rewrite trace_wrap; apply quiet_cleanDir |].
    intros [] _.
    apply Forall_trace_bind; [rewrite trace_wrap; apply quiet_parseTemplates |].
    intros tmpl _.
    apply Forall_trace_bind; [rewrite trace_wrap; apply quiet_parsePosts |].
    intros posts Hok. rewrite outcome_wrap, Hp in Hok. discriminate Hok.
Qed.

(** X14.  One content file that fails stops the whole run: if an
    entry of the content directory that is not skipped cannot be
    read, converted or dated, [generate] ends in an error and has
    rendered nothing, no page and no feed, whatever the other files
    are. *)
Theorem one_bad_post_stops_the_run w entries entry cause :
  ReadDir w contentDir = Ok entries →
  entry ∈ entries → skipped entry = false →
  outcome (parsePost w (Name entry)) = Err cause →
  (∃ msg, outcome (runGenerate w) = Err msg)
  ∧ Forall quiet (trace (runGenerate w))
  ∧ pagePaths (trace (runGenerate w)) = [].
Proof.
  intros Hdir Hin Hs Hp.
  destruct (parsePostsLoop_fails w entries entry [] cause Hin Hs Hp)
    as [msg Hloop].
  assert (Hposts : outcome (parsePosts w) = Err msg).
  { unfold parsePosts, readDir.
    by rewrite outcome_bind, outcome_wrap, outcome_call, Hdir. }
  destruct (runGenerate_without_posts _ _ Hposts) as [Herr Hquiet].
  split; [done |]. split; [done |]. by apply quiet_pagePaths.
Qed.

End ParseErrors.

(** ** The steps of [runGenerate] *)

Section Steps.
Context `{GoLib}.
Implicit Types (w : World).

Lemma wrap_Err {A} context (m : IO A) msg :
  outcome (wrap context m) = Err msg →
  ∃ cause, outcome m = Err cause ∧ msg = context +:+ ": " +:+ cause.
Proof.
  rewrite outcome_wrap. destruct (outcome m) as [a | cause]; simpl; [done |].
  intros [= <-]. by eauto.
Qed.

Lemma loadConfig_Err w msg :
  outcome (loadConfig w) = Err msg →
  ∃ step cause,
    (step = "reading site.yml" ∨ step = "parsing site.yml")
    ∧ msg = step +:+ ": " +:+ cause.
Proof.
  destruct (ReadFile w "site.yml") as [data | cause] eqn:Hr.
  2: { rewrite (loadConfig_unreadable _ _ Hr). intros [= <-]. by eauto. }
  destruct (yamlUnmarshal data) as [cfg | cause] eqn:Hy.
  - by rewrite (loadConfig_parsed _ _ _ Hr Hy).
  - rewrite (loadConfig_unparsed _ _ _ Hr Hy). intros [= <-]. by eauto.
Qed.

(** X15.  Every error of [generate] says which step failed: its
    text starts with the name of one of the eleven steps, followed
    by a colon and the cause. *)
Theorem runGenerate_error_names_its_step w msg :
  outcome (runGenerate w) = Err msg →
  ∃ step cause, step ∈ generateSteps ∧ msg = step +:+ ": " +:+ cause.
Proof.
  unfold runGenerate, generateSteps. intros Herr.
  rewrite outcome_bind in Herr.
  destruct (outcome (loadConfig w)) as [site |] eqn:Hsite.
  2: { injection Herr as ->.
       apply loadConfig_Err in Hsite as (step & cause & [-> | ->] & ->);
         eexists _, cause; (split; [| done]);
         repeat first [apply list_elem_of_here | apply list_elem_of_further]. }
  repeat
    (rewrite outcome_bind in Herr;
     lazymatch type of Herr with
     | match outcome ?m with _ => _ end = _ =>
         let Hstep := fresh "Hstep" in
         destruct (outcome m) eqn:Hstep;
         [ cbv zeta in Herr
         | injection Herr as ->;
           first
             [ apply wrap_Err in Hstep as (cause & _ & ->);
               eexists _, cause; (split; [| done]);
               repeat first [apply list_elem_of_here | apply list_elem_of_further]
             | discriminate Hstep ] ]
     end).
  discriminate Herr.
Qed.

Lemma late_kind_out (e : Event) :
  (kind e = KStat ∨ kind e = KCopyDir ∨ kind e = KWriteFile) →
  ∀ kinds : list Kind,
    KStat ∉ kinds → KCopyDir ∉ kinds → KWriteFile ∉ kinds → kind e ∉ kinds.
Proof. intros [-> | [-> | ->]]; done. Qed.

(** When the steps up to the feed succeed, the whole site is
    rendered, whatever happens after. *)
Lemma runGenerate_rendered w site tmpl posts :
  outcome (loadConfig w) = Ok site →
  outcome (wrap "cleaning output dir" (cleanDir w outputDir)) = Ok () →
  outcome (wrap "parsing templates" (parseTemplates w)) = Ok tmpl →
  outcome (wrap "parsing posts" (parsePosts w)) = Ok posts →
  let sorted := sortSlice byDate posts in
  outcome (wrap "generating post pages" (generatePostPages w tmpl site sorted))
  = Ok () →
  outcome (wrap "generating home page" (generateHomePage w tmpl site sorted))
  = Ok () →
  outcome (wrap "generating archive page"
             (generateArchivePage w tmpl site sorted)) = Ok () →
  outcome (wrap "generating RSS feed" (generateRSSFeed w site sorted)) = Ok () →
  rendered w.
Proof.
  intros Hsite Hclean Htmpl Hposts sorted Hpages Hhome Harch Hfeed.
  exists site, posts. split; [done |].
  split; [by rewrite outcome_wrap in Hposts; apply wrapErr_Ok in Hposts |].
  cbv zeta. fold sorted. unfold runGenerate.
  rewrite (trace_bind_Ok _ _ _ Hsite), (trace_bind_Ok _ _ _ Hclean),
    (trace_bind_Ok _ _ _ Htmpl), (trace_bind_Ok _ _ _ Hposts).
  cbv zeta. fold sorted.
  rewrite (trace_bind_Ok (Printf _) _ () eq_refl).
  rewrite (trace_bind_Ok _ _ _ Hpages), (trace_bind_Ok _ _ _ Hhome),
    (trace_bind_Ok _ _ _ Harch), (trace_bind_Ok _ _ _ Hfeed).
  rewrite outcome_wrap in Hpages; apply wrapErr_Ok in Hpages.
  rewrite outcome_wrap in Hhome; apply wrapErr_Ok in Hhome.
  rewrite outcome_wrap in Harch; apply wrapErr_Ok in Harch.
  rewrite outcome_wrap in Hfeed; apply wrapErr_Ok in Hfeed.
  rewrite !trace_wrap.
  destruct (generatePostPages_Ok _ _ _ _ Hpages) as [Hpaths Hexec].
  destruct (generateHomePage_Ok _ _ _ _ Hhome) as [Hhx Hhp].
  destruct (generateArchivePage_Ok _ _ _ _ Harch) as [Hax Hap].
  destruct (generateRSSFeed_Ok _ _ _ Hfeed) as [Hfx Hfp].
  set (rest := trace (_ ≫= _)).
  assert (Hrest : pagePaths rest = []).
  { apply quiet_pagePaths. subst rest.
    apply Forall_trace_bind; [rewrite trace_wrap; apply quiet_copyStaticFiles |].
    intros [] _. cbv zeta. unfold Println. forall_trace; done. }
  split; [| split; [| split; [| split]]].
  - intros post Hin. do 5 apply executed_app_r. apply executed_app_l.
    by apply Hexec.
  - do 6 apply executed_app_r. by apply executed_app_l.
  - do 7 apply executed_app_r. by apply executed_app_l.
  - do 8 apply encoded_app_r. by apply encoded_app_l.
  - rewrite !pagePaths_app, Hpaths, Hhp, Hap, Hfp, Hrest.
    rewrite (quiet_pagePaths _ (quiet_loadConfig w)),
      (quiet_pagePaths _ (quiet_cleanDir w _)),
      (quiet_pagePaths _ (quiet_parseTemplates w)),
      (quiet_pagePaths _ (quiet_parsePosts w)).
    unfold Printf. rewrite !trace_op. simpl.
    by rewrite !app_nil_r.
Qed.

(** What comes after the feed: the look at the static directory, the
    copy, the marker. *)
Lemma runGenerate_late w e :
  e ∈ trace (runGenerate w) →
  kind e = KStat ∨ kind e = KCopyDir ∨ kind e = KWriteFile →
  rendered w
  ∧ (e ∈ trace (copyStaticFiles w)
     ∨ outcome (copyStaticFiles w) = Ok ()
       ∧ e = EvWriteFile (filepath.Join [outputDir; ".nojekyll"]) "").
Proof.
  intros He Hk. pose proof He as Hrun. unfold runGenerate in He.
  pose proof (late_kind_out e Hk) as Hout.
  apply elem_of_trace_bind in He as [He | (site & Hsite & He)].
  { destruct (only_absurd _ _ _ (only_loadConfig w) He). apply Hout; kind_out. }
  apply elem_of_trace_bind in He as [He | ([] & Hclean & He)].
  { rewrite trace_wrap in He.
    destruct (only_absurd _ _ _ (only_cleanDir w _) He). apply Hout; kind_out. }
  apply elem_of_trace_bind in He as [He | (tmpl & Htmpl & He)].
  { rewrite trace_wrap in He.
    destruct (only_absurd _ _ _ (only_parseTemplates w) He).
    apply Hout; kind_out. }
  apply elem_of_trace_bind in He as [He | (posts & Hposts & He)].
  { rewrite trace_wrap in He.
    destruct (only_absurd _ _ _ (only_parsePosts w) He). apply Hout; kind_out. }
  cbv zeta in He.
  apply elem_of_trace_bind in He as [He | ([] & _ & He)].
  { trace_inv He. subst e. by destruct Hk as [? | [? | ?]]. }
  apply elem_of_trace_bind in He as [He | ([] & Hpages & He)].
  { rewrite trace_wrap in He.
    destruct (only_absurd _ _ _ (only_generatePostPages _ _ _ _) He).
    apply Hout; kind_out. }
  apply elem_of_trace_bind in He as [He | ([] & Hhome & He)].
  { rewrite trace_wrap in He.
    destruct (only_absurd _ _ _ (only_generateHomePage _ _ _ _) He).
    apply Hout; kind_out. }
  apply elem_of_trace_bind in He as [He | ([] & Harch & He)].
  { rewrite trace_wrap in He.
    destruct (only_absurd _ _ _ (only_generateArchivePage _ _ _ _) He).
    apply Hout; kind_out. }
  apply elem_of_trace_bind in He as [He | ([] & Hfeed & He)].
  { rewrite trace_wrap in He.
    destruct (only_absurd _ _ _ (only_generateRSSFeed _ _ _) He).
    apply Hout; kind_out. }
  split.
  { by apply (runGenerate_rendered w site tmpl posts). }
  apply elem_of_trace_bind in He as [He | ([] & Hstatic & He)].
  { rewrite trace_wrap in He. by left. }
  right. rewrite outcome_wrap in Hstatic. apply wrapErr_Ok in Hstatic.
  split; [done |]. cbv zeta in He.
  apply elem_of_trace_bind in He as [He | ([] & _ & He)].
  { rewrite trace_wrap in He. trace_inv He. done. }
  trace_inv He. subst e. by destruct Hk as [? | [? | ?]].
Qed.

(** X16.  The marker [docs/.nojekyll] is the only file that
    [generate] writes with [os.WriteFile], it is empty, and it is
    written last: by then every page and the feed were rendered and
    the static files, if there are any, were copied. *)
Theorem marker_is_written_last w path data :
  EvWriteFile path data ∈ trace (runGenerate w) →
  path = "docs/.nojekyll" ∧ data = ""
  ∧ rendered w ∧ outcome (copyStaticFiles w) = Ok ().
Proof.
  intros He.
  destruct (runGenerate_late w _ He) as [Hr [Hs | [Hs Hm]]].
  - right. by right.
  - destruct (only_absurd _ _ _ (only_copyStaticFiles w) Hs). kind_out.
  - injection Hm as -> ->. done.
Qed.

(** X17.  The static files are copied only after the whole site was
    rendered, from [static] into [docs], and only when [os.Stat]
    finds the static directory: any error of [os.Stat] makes the run
    go on without the copy. *)
Theorem static_files_are_copied_after_the_pages w src dst :
  EvCopyDir src dst ∈ trace (runGenerate w) →
  src = "static" ∧ dst = "docs" ∧ Stat w staticDir = None ∧ rendered w.
Proof.
  intros He.
  destruct (runGenerate_late w _ He) as [Hr [Hs | [_ Hm]]].
  - right. by left.
  - unfold copyStaticFiles in Hs.
    apply elem_of_trace_bind in Hs as [Hs | ([] & _ & Hs)].
    { trace_inv Hs. discriminate Hs. }
    destruct (Stat w staticDir) as [cause |].
    { trace_inv Hs. }
    rewrite trace_wrap in Hs. trace_inv Hs. injection Hs as -> ->. done.
  - discriminate Hm.
Qed.

End Steps.

(** ** A site without posts *)

Section NoPosts.
Context `{GoLib}.
Implicit Types (w : World).

Lemma sortSlice_nil {A} (less : A → A → bool) :
  GoLibLaws _ → sortSlice less [] = [].
Proof. intros Hlaws. apply Permutation_nil_r, (sortSlice_perm Hlaws). Qed.

Lemma archiveYears_nil : GoLibLaws _ → archiveYears [] = [].
Proof.
  intros Hlaws. unfold archiveYears, groupByYear. simpl.
  assert (Hrange : rangeMap (∅ : gmap Z (list Post)) = []).
  { apply Permutation_nil_r. rewrite (rangeMap_perm Hlaws).
    by rewrite map_to_list_empty. }
  rewrite Hrange. simpl. by apply sortSlice_nil.
Qed.

(** X18.  A site without posts (no content file, or drafts only) is
    generated all the same: a run that succeeds wrote no post page,
    a home page and an archive page that list nothing, and a feed
    without items whose build date is the empty text. *)
Theorem site_without_posts_is_generated w :
  GoLibLaws _ → collection w [] → outcome (runGenerate w) = Ok () →
  let tr := trace (runGenerate w) in
  pagePaths tr = []
  ∧ ∃ site,
      outcome (loadConfig w) = Ok site
      ∧ executed tr (CtxHome {| home_Site := site; home_Posts := [] |})
      ∧ executed tr (CtxArchive {| arch_Site := site; arch_Years := [] |})
      ∧ encoded tr
          {| feed_Version := "2.0";
             feed_Channel :=
               {| chan_Title := cfg_Title site;
                  chan_Link := cfg_URL site;
                  chan_Description := cfg_Description site;
                  chan_LastBuild := "";
                  chan_Items := [] |} |}.
Proof.
  intros Hlaws Hc Hok tr.
  destruct (runGenerate_Ok _ Hok)
    as (site & posts & Hsite & Hc' & _ & Hhome & Harch & Hfeed & Hpaths).
  rewrite <- (collection_unique _ _ _ Hc Hc') in *.
  cbv zeta in *. rewrite (sortSlice_nil _ Hlaws) in *.
  subst tr. split; [done |]. exists site. split; [done |].
  unfold homeContext, archiveContext in *.
  rewrite (archiveYears_nil Hlaws) in Harch. done.
Qed.

End NoPosts.

(** ** A page that cannot be written *)

Section PartialPages.
Context `{GoLib}.
Implicit Types (w : World) (templates : gmap string Template)
  (site : SiteConfig) (posts : list Post).

(** The steps for one post either fail, whatever comes after, or
    pass on to what comes after. *)
Lemma generatePostPages_head w templates site post :
  (∃ tr msg, ∀ rest,
     generatePostPages w templates site (post :: rest) = (tr, Err msg))
  ∨ (∃ tr, ∀ rest,
       generatePostPages w templates site (post :: rest)
       = (tr ++ trace (generatePostPages w templates site rest),
          outcome (generatePostPages w templates site rest))).
Proof.
  unfold mkdirAll, create, Execute, Printf, op, wrap, mbind, IO_bind.
  cbn [generatePostPages].
  unfold mkdirAll, create, Execute, Printf, op, wrap, mbind, IO_bind.
  destruct (MkdirAll w (postDir (Slug post))) as [msg |].
  { left. eexists _, _. intros rest. reflexivity. }
  destruct (Create w (postPath (Slug post))) as [msg |].
  { left. eexists _, _. intros rest. reflexivity. }
  destruct (templates !! "post.html") as [t |].
  2: { left. eexists _, _. intros rest. reflexivity. }
  destruct (t _) as [msg |].
  { left. eexists _, _. intros rest. reflexivity. }
  right.
  exists [EvMkdirAll (postDir (Slug post)); EvCreate (postPath (Slug post));
          EvExecute (postPath (Slug post)) "post.html"
            (CtxPost {| page_Site := site; page_Post := post |});
          EvPrint ("Generated: posts/" +:+ Slug post +:+ "/index.html" +:+ nl)].
  intros rest. simpl.
  destruct (generatePostPages w templates site rest) as [tr r].
  unfold trace, outcome. simpl. reflexivity.
Qed.

(** X19.  When a post page cannot be written, [generatePostPages]
    stops there: the pages of the posts before the failing one are
    written, and the posts after it play no part, the computation
    being the same as for the list cut after the failing post. *)
Theorem generatePostPages_stops_at_the_failure w templates site posts msg :
  outcome (generatePostPages w templates site posts) = Err msg →
  ∃ before post after,
    posts = before ++ post :: after
    ∧ outcome (generatePostPages w templates site before) = Ok ()
    ∧ generatePostPages w templates site posts
      = generatePostPages w templates site (before ++ [post])
    ∧ pagePaths (trace (generatePostPages w templates site before))
      = (λ post, postPath (Slug post)) <$> before.
Proof.
  induction posts as [|post rest IH]; [done |].
  destruct (generatePostPages_head w templates site post)
    as [(tr & cause & Hfail) | (tr & Hpass)].
  - intros _. exists [], post, rest. split; [done |]. split; [done |].
    split; [| done]. change ([] ++ [post]) with [post].
    by rewrite (Hfail rest), (Hfail []).
  - rewrite (Hpass rest). intros Hrest.
    destruct (IH Hrest) as (before & bad & after & -> & Hok & Heq & _).
    exists (post :: before), bad, after. split; [done |].
    assert (Hok' : outcome (generatePostPages w templates site (post :: before))
                   = Ok ()).
    { by rewrite (Hpass before). }
    split; [done |]. split.
    + rewrite <- !app_comm_cons.
      by rewrite (Hpass (before ++ [bad])), Heq.
    + by apply generatePostPages_Ok.
Qed.

End PartialPages.

(** ** Where the page of a post is *)

Section PathOfPage.
Import Str StrFacts.

Lemma noSlash_substring s n m :
  noSlash s = true → noSlash (String.substring n m s) = true.
Proof.
  revert n m. induction s as [|c s IH]; intros n m; [by destruct n, m |].
  cbn [noSlash]. intros [Hc Hs]%andb_true_iff.
  destruct n as [|n]; destruct m as [|m]; simpl; try done.
  - by rewrite Hc, IH.
  - by apply IH.
  - by apply IH.
Qed.

Lemma deriveSlug_noSlash name :
  noSlash name = true → noSlash (deriveSlug name) = true.
Proof.
  intros Hn. unfold deriveSlug.
  assert (Ht : noSlash (TrimSuffix name ".md") = true).
  { unfold TrimSuffix. destruct (HasSuffix name ".md"); [| done].
    by apply noSlash_substring. }
  destruct (hasDashes _); [| done]. by apply noSlash_substring.
Qed.

Lemma plainName_cases s :
  noSlash s = true → s = "" ∨ s = "." ∨ s = ".." ∨ plainName s = true.
Proof.
  intros Hs. unfold plainName. rewrite Hs.
  destruct (decide (s = "")) as [-> | H1]; [by left |].
  destruct (decide (s = ".")) as [-> | H2]; [by right; left |].
  destruct (decide (s = "..")) as [-> | H3]; [by right; right; left |].
  right. right. right. by rewrite !bool_decide_eq_false_2 by done.
Qed.

(** X20.  The page of a content file is inside the output
    directory.  The name of a directory entry has no slash; then its
    slug has none, and the page is [docs/posts/<slug>/index.html],
    but for three slugs: the empty one (of the file [.md]) and [.]
    have the page [docs/posts/index.html], and [..] has
    [docs/index.html], which is the path of the home page. *)
Theorem page_of_a_content_file (name : string) :
  noSlash name = true →
  let slug := deriveSlug name in
  noSlash slug = true
  ∧ postPath slug =
      (if bool_decide (slug = "") || bool_decide (slug = ".")
       then "docs/posts/index.html"
       else if bool_decide (slug = "..")
            then filepath.Join [outputDir; "index.html"]
            else "docs/posts/" +:+ slug +:+ "/index.html").
Proof.
  intros Hn slug. pose proof (deriveSlug_noSlash _ Hn) as Hs. fold slug in Hs.
  split; [done |].
  destruct (plainName_cases _ Hs) as [-> | [-> | [-> | Hp]]]; [done.. |].
  rewrite (postPath_plain _ Hp). unfold plainName in Hp.
  apply andb_true_iff in Hp as [[[H1 H2]%andb_true_iff H3]%andb_true_iff _].
  apply negb_true_iff in H1, H2, H3. by rewrite H1, H2, H3.
Qed.

End PathOfPage.

(** ** [runInit] *)

Section Init.
Context `{GoTime}.
Implicit Types (w : World) (host : Host) (texts : Scaffold).

Lemma checkEmpty_tolerated target entries :
  Forall tolerated entries → checkEmpty target entries = mret ().
Proof.
  induction 1 as [|entry rest [Hn | Hn] _ IH]; [done | |];
    cbn [checkEmpty]; rewrite Hn; simpl; done.
Qed.

Lemma checkEmpty_refuses target entries entry :
  entry ∈ entries → ¬ tolerated entry →
  checkEmpty target entries = ([], Err (target +:+ " is not empty")).
Proof.
  intros Hin Hno. induction entries as [|first rest IH].
  { by apply elem_of_nil in Hin. }
  cbn [checkEmpty].
  destruct (bool_decide (Name first = ".git")
            || bool_decide (Name first = ".DS_Store")) eqn:Hf; [| done].
  apply elem_of_cons in Hin as [-> | Hin]; [| by apply IH].
  destruct Hno. apply orb_true_iff in Hf as [Hf | Hf];
    apply bool_decide_eq_true_1 in Hf; [by left | by right].
Qed.

Lemma checkEmpty_Ok target entries :
  outcome (checkEmpty target entries) = Ok () → Forall tolerated entries.
Proof.
  induction entries as [|first rest IH]; [constructor |].
  cbn [checkEmpty].
  destruct (bool_decide (Name first = ".git")
            || bool_decide (Name first = ".DS_Store")) eqn:Hf; [| done].
  intros Hrest. constructor; [| by apply IH].
  apply orb_true_iff in Hf as [Hf | Hf];
    apply bool_decide_eq_true_1 in Hf; [by left | by right].
Qed.

Lemma trace_checkEmpty target entries : trace (checkEmpty target entries) = [].
Proof.
  induction entries as [|first rest IH]; [done |]. cbn [checkEmpty].
  by destruct (_ || _).
Qed.

Lemma makeDirs_Ok w dirs :
  outcome (makeDirs w dirs) = Ok () →
  trace (makeDirs w dirs) = EvMkdirAll <$> dirs.
Proof.
  induction dirs as [|dir rest IH]; cbn [makeDirs]; [done |].
  intros ([] & Hmk & Hrest)%outcome_bind_Ok.
  rewrite (trace_bind_Ok _ _ _ Hmk), trace_wrap. unfold mkdirAll.
  rewrite trace_op, (IH Hrest). done.
Qed.

Lemma writeEmpty_Ok w paths :
  outcome (writeEmpty w paths) = Ok () →
  trace (writeEmpty w paths) = (λ path, EvWriteFile path "") <$> paths.
Proof.
  induction paths as [|path rest IH]; cbn [writeEmpty]; [done |].
  intros ([] & Hwr & Hrest)%outcome_bind_Ok.
  rewrite (trace_bind_Ok _ _ _ Hwr). unfold writeFile.
  rewrite trace_op, (IH Hrest). done.
Qed.

(** X21.  [init] fills no place that is in use: when the target is
    a file, or a directory with an entry other than [.git] and
    [.DS_Store], the command ends in an error after it looked at the
    target, and has made no directory and written no file. *)
Theorem runInit_refuses_a_place_in_use w host texts args :
  let target := match args with [] => "." | arg :: _ => arg end in
  (StatIsDir host target = Ok false →
   runInit w host texts args
   = ([EvStat target], Err (target +:+ " exists and is not a directory")))
  ∧ (∀ entries entry,
       StatIsDir host target = Ok true → ReadDir w target = Ok entries →
       entry ∈ entries → ¬ tolerated entry →
       runInit w host texts args
       = ([EvStat target; EvReadDir target],
          Err (target +:+ " is not empty"))).
Proof.
  intros target. split.
  - intros Hstat. unfold runInit. fold target. rewrite Hstat. reflexivity.
  - intros entries entry Hstat Hdir Hin Hno. unfold runInit. fold target.
    assert (Hg : (entries ← wrap ("reading " +:+ target) (readDir w target);
                  checkEmpty target entries)
                 = ([EvReadDir target], Err (target +:+ " is not empty"))).
    { unfold readDir. apply io_eq.
      - rewrite trace_bind, trace_wrap, outcome_wrap, trace_call, outcome_call,
          Hdir. simpl. by rewrite trace_checkEmpty.
      - rewrite outcome_bind, outcome_wrap, outcome_call, Hdir. simpl.
        by rewrite (checkEmpty_refuses _ _ _ Hin Hno). }
    rewrite Hstat. cbn [negb]. rewrite Hg. reflexivity.
Qed.

(** X22.  An [init] without argument that succeeds has, in this
    order: looked at the current directory and, if it is there,
    listed it and found nothing but [.git] and [.DS_Store]; made the
    four directories; written the configuration, the two [.gitkeep]
    files, the ignore file, the four templates and the style sheet;
    and printed its advice. *)
Theorem runInit_makes_the_scaffold w host texts :
  outcome (runInit w host texts []) = Ok () →
  ∃ guard prints,
    trace (runInit w host texts [])
    = EvStat "." :: guard
      ++ [EvMkdirAll contentDir; EvMkdirAll outputDir; EvMkdirAll templateDir;
          EvMkdirAll "static/css";
          EvWriteFile "site.yml" siteYml;
          EvWriteFile "posts/.gitkeep" "";
          EvWriteFile "docs/.gitkeep" "";
          EvWriteFile ".gitignore" gitignore;
          EvWriteFile "templates/base.html" (baseHTML texts);
          EvWriteFile "templates/home.html" (homeHTML texts);
          EvWriteFile "templates/post.html" (postHTML texts);
          EvWriteFile "templates/archive.html" (archiveHTML texts);
          EvWriteFile "static/css/style.css" (styleCSS texts)]
      ++ prints
    ∧ only [KPrint] prints
    ∧ match StatIsDir host "." with
      | Ok isDir =>
          isDir = true ∧ guard = [EvReadDir "."]
          ∧ ∃ entries, ReadDir w "." = Ok entries ∧ Forall tolerated entries
      | Err _ => guard = []
      end.
Proof.
  unfold runInit.
  intros ([] & Hstat & Hok)%outcome_bind_Ok.
  rewrite (trace_bind_Ok _ _ _ Hstat), trace_op.
  apply outcome_bind_Ok in Hok as ([] & Hguard & Hok).
  rewrite (trace_bind_Ok _ _ _ Hguard).
  apply outcome_bind_Ok in Hok as ([] & Hdirs & Hok).
  rewrite (trace_bind_Ok _ _ _ Hdirs), (makeDirs_Ok _ _ Hdirs).
  apply outcome_bind_Ok in Hok as ([] & Hsite & Hok).
  rewrite (trace_bind_Ok _ _ _ Hsite).
  apply outcome_bind_Ok in Hok as ([] & Hkeep & Hok).
  rewrite (trace_bind_Ok _ _ _ Hkeep), (writeEmpty_Ok _ _ Hkeep).
  apply outcome_bind_Ok in Hok as ([] & Hignore & Hok).
  rewrite (trace_bind_Ok _ _ _ Hignore).
  apply outcome_bind_Ok in Hok as ([] & Hbase & Hok).
  rewrite (trace_bind_Ok _ _ _ Hbase).
  apply outcome_bind_Ok in Hok as ([] & Hhome & Hok).
  rewrite (trace_bind_Ok _ _ _ Hhome).
  apply outcome_bind_Ok in Hok as ([] & Hpost & Hok).
  rewrite (trace_bind_Ok _ _ _ Hpost).
  apply outcome_bind_Ok in Hok as ([] & Harch & Hok).
  rewrite (trace_bind_Ok _ _ _ Harch).
  apply outcome_bind_Ok in Hok as ([] & Hstyle & _).
  rewrite (trace_bind_Ok _ _ _ Hstyle).
  unfold writeFile. rewrite !trace_op.
  eexists _, _. split; [| split].
  - cbn [fmap list_fmap app]. reflexivity.
  - unfold Println, Printf. rewrite bool_decide_eq_true_2 by done.
    forall_trace; kind_in.
  - destruct (StatIsDir host ".") as [[|] | cause]; [| done | done].
    cbn [negb] in Hguard |- *.
    apply outcome_bind_Ok in Hguard as Hg. destruct Hg as (entries & Hdir & Hempty).
    rewrite (trace_bind_Ok _ _ _ Hdir), trace_wrap, trace_checkEmpty.
    unfold readDir in *. rewrite trace_call.
    rewrite outcome_wrap, outcome_call in Hdir. apply wrapErr_Ok in Hdir.
    split; [done |]. split; [done |]. exists entries. split; [done |].
    by apply checkEmpty_Ok in Hempty.
Qed.

End Init.

(** ** Dates, and the files that a run creates *)

Section DatesAndFiles.
Context `{GoLib}.
Implicit Types (w : World) (entry : DirEntry).

Lemma parsePost_misdated w name metaData d cause :
  frontMatter w name = Some metaData →
  metaData !! "date" = Some (VString d) → ParseDate d = Err cause →
  outcome (parsePost w name)
  = if isDraft metaData then Ok None
    else Err ("parsing date " +:+ quote d +:+ ": " +:+ cause).
Proof.
  intros (source & html & Hr & Hc)%frontMatter_Some Hd Hp.
  rewrite parsePost_cases. cbv zeta. rewrite Hr, Hc.
  destruct (isDraft metaData); [done |].
  unfold dateField. by rewrite Hd, Hp.
Qed.

(** X23.  A date that is written as text and is not a date of the
    form [2006-01-02] is an error of its file, which stops the run
    before anything is rendered; but a draft is passed over before
    its date is read, so that a draft with such a date does no
    harm. *)
Theorem malformed_date_stops_the_run_unless_draft
    w entries entry metaData d cause :
  ReadDir w contentDir = Ok entries →
  entry ∈ entries → skipped entry = false →
  frontMatter w (Name entry) = Some metaData →
  metaData !! "date" = Some (VString d) → ParseDate d = Err cause →
  if isDraft metaData then outcome (parsePost w (Name entry)) = Ok None
  else
    outcome (parsePost w (Name entry))
    = Err ("parsing date " +:+ quote d +:+ ": " +:+ cause)
    ∧ (∃ msg, outcome (runGenerate w) = Err msg)
    ∧ Forall quiet (trace (runGenerate w)).
Proof.
  intros Hdir Hin Hs Hfm Hd Hp.
  pose proof (parsePost_misdated _ _ _ _ _ Hfm Hd Hp) as Hpost.
  destruct (isDraft metaData); [done |]. split; [done |].
  destruct (parsePostsLoop_fails w entries entry [] _ Hin Hs Hpost)
    as [msg Hloop].
  apply (runGenerate_without_posts w msg).
  unfold parsePosts, readDir.
  by rewrite outcome_bind, outcome_wrap, outcome_call, Hdir.
Qed.


End DatesAndFiles.

(** ** The properties of the commands on the example site *)

Section CommandExamples.
#[local] Existing Instance Civil.time.
#[local] Existing Instance Demo.lib.
#[local] Existing Instance Ascii7.strings.

Lemma lower_slug_byte c : isSlugByte c = true → Ascii7.lower c = c.
Proof.
  unfold isSlugByte, Ascii7.lower. cbv zeta.
  intros [Hc | Hc]%orb_true_iff; apply bool_decide_eq_true_1 in Hc;
    by rewrite bool_decide_eq_false_2 by lia.
Qed.

Lemma toLower_hyphensApart a s :
  hyphensApart a s = true → Ascii7.toLower s = s.
Proof.
  revert a. induction s as [|c s IH]; intros a; [done |].
  cbn [hyphensApart Ascii7.toLower]. destruct (isSlugByte c) eqn:Hc.
  - intros Hs. by rewrite (lower_slug_byte _ Hc), (IH _ Hs).
  - intros [[Hh _]%andb_true_iff Hs]%andb_true_iff.
    apply bool_decide_eq_true_1 in Hh as ->. by rewrite (IH _ Hs).
Qed.

(** Lower-casing ASCII text leaves a slug as it is. *)
Lemma toLower_slug s : slugShape s = true → ToLower s = s.
Proof.
  unfold slugShape. intros [He | Hs]%orb_true_iff.
  - by apply bool_decide_eq_true_1 in He as ->.
  - by apply (toLower_hyphensApart true), slugShapeFrom_hyphensApart.
Qed.

Lemma slugify_idempotent_witness :
  (∀ s, slugShape s = true → ToLower s = s)
  ∧ slugify (slugify "Hello, World!") = "hello-world".
Proof.
  split; [exact toLower_slug |].
  exact (slugify_idempotent "Hello, World!" toLower_slug).
Defined.

Lemma runNew_writes_one_file_witness :
  EvWriteFile "posts/2026-02-19-hello-world.md"
    (newFileText "Hello, World!" "2026-02-19" "" "")
  ∈ trace (runNew Demo.site Ascii7.host Ascii7.flags)
  ∧ MkdirAll Demo.site contentDir = None
  ∧ outcome (newBody Ascii7.host Ascii7.flags) = Ok "".
Proof.
  assert (Hin : EvWriteFile "posts/2026-02-19-hello-world.md"
                  (newFileText "Hello, World!" "2026-02-19" "" "")
                ∈ trace (runNew Demo.site Ascii7.host Ascii7.flags)).
  { apply (list_elem_of_lookup_2 _ 1). reflexivity. }
  split; [exact Hin |].
  destruct (runNew_writes_one_file _ _ _ _ _ Hin) as (_ & _ & _ & Hmk & _).
  split; [exact Hmk | reflexivity].
Defined.

Lemma runNew_fails_before_it_writes_witness :
  outcome (newBody Ascii7.host Cases.fetch) = Err "converting URL: curl failed"
  ∧ trace (runNew Demo.site Ascii7.host Cases.fetch) = [].
Proof.
  split; [reflexivity |].
  destruct (runNew_fails_before_it_writes Demo.site Ascii7.host Cases.fetch)
    as [Htr _]; [| exact Htr].
  right. exists "converting URL: curl failed". reflexivity.
Defined.

Lemma new_post_comes_back_by_its_slug_witness :
  isDateFlag "2026-02-19" = true
  ∧ slugify "Hello, World!" = "hello-world"
  ∧ deriveSlug "2026-02-19-hello-world.md" = "hello-world"
  ∧ postPath "hello-world" = "docs/posts/hello-world/index.html".
Proof.
  split; [reflexivity |]. split; [reflexivity |].
  assert (Hslug : slugify "Hello, World!" ≠ "").
  { intros Heq. vm_compute in Heq. discriminate Heq. }
  destruct (new_post_comes_back_by_its_slug "2026-02-19" "Hello, World!"
              eq_refl Hslug) as (_ & Hd & Hp).
  split; [exact Hd | exact Hp].
Defined.


Lemma runClean_empties_the_output_witness :
  outcome (runClean Cases.built) = Ok ()
  ∧ ∃ entries,
      ReadDir Cases.built outputDir = Ok entries
      ∧ trace (runClean Cases.built)
        = EvMkdirAll outputDir :: EvReadDir outputDir
          :: ((λ entry, EvRemoveAll (filepath.Join [outputDir; Name entry]))
                <$> entries)
          ++ [EvPrint ("Cleaned output directory" +:+ nl)].
Proof.
  assert (Hok : outcome (runClean Cases.built) = Ok ())
    by (vm_compute; reflexivity).
  split; [exact Hok |].
  destruct (runClean_empties_the_output Cases.built Hok)
    as (entries & Hdir & Htr & _).
  exists entries. split; [exact Hdir | exact Htr].
Defined.

Lemma runGenerate_removes_only_output_entries_witness :
  EvRemoveAll "docs/index.html" ∈ trace (runGenerate Cases.built)
  ∧ MkdirAll Cases.built outputDir = None
  ∧ ∃ site, outcome (loadConfig Cases.built) = Ok site.
Proof.
  assert (Hin : EvRemoveAll "docs/index.html"
                ∈ trace (runGenerate Cases.built)).
  { apply (list_elem_of_lookup_2 _ 3). reflexivity. }
  split; [exact Hin |].
  destruct (runGenerate_removes_only_output_entries Cases.built _ Hin)
    as (Hsite & Hmk & _).
  split; [exact Hmk | exact Hsite].
Defined.

Lemma collected_post_has_title_slug_and_url_witness :
  collection Demo.site Demo.posts
  ∧ ∃ post, post ∈ Demo.posts ∧ Title post ≠ ""
            ∧ URL post = "/posts/" +:+ Slug post +:+ "/".
Proof.
  split; [exact demo_collection |].
  unfold Demo.posts at 1. eexists. split; [apply list_elem_of_here |].
  lazymatch goal with
  | |- Title ?post ≠ "" ∧ _ =>
      destruct (collected_post_has_title_slug_and_url Demo.site Demo.posts post
                  demo_collection (list_elem_of_here _ _)) as (Ht & Hu & _)
  end.
  split; [exact Ht | exact Hu].
Defined.

Lemma feed_item_links_to_the_post_witness :
  GoLibLaws Demo.lib
  ∧ ∃ item, syndicated (trace (runGenerate Demo.site)) item
            ∧ item_GUID item = item_Link item.
Proof.
  split; [exact demo_laws |].
  destruct (runGenerate_Ok Demo.site demo_run)
    as (site & posts & Hsite & Hc & _ & _ & _ & Hfeed & _).
  rewrite <- (collection_unique _ _ _ demo_collection Hc) in Hfeed.
  cbv zeta in Hfeed. rewrite demo_sorted in Hfeed.
  assert (Hs : syndicated (trace (runGenerate Demo.site))
                 (feedItem site (default (mkPost "" "" ∅ zeroTime)
                                   (head Demo.sorted)))).
  { exists (buildFeed site Demo.sorted). split; [exact Hfeed |].
    apply list_elem_of_here. }
  eexists. split; [exact Hs |].
  destruct (feed_item_links_to_the_post Demo.site _ demo_laws Hs) as [Hg _].
  exact Hg.
Defined.

Lemma parsePosts_error_names_the_first_bad_file_witness :
  outcome (parsePosts Cases.broken)
  = Err "parsing missing.md: open posts/missing.md: no such file or directory"
  ∧ ∃ before entry after,
      ReadDir Cases.broken contentDir = Ok (before ++ entry :: after)
      ∧ Forall (parses Cases.broken) before
      ∧ skipped entry = false.
Proof.
  assert (Herr : outcome (parsePosts Cases.broken)
                 = Err "parsing missing.md: open posts/missing.md: no such file or directory")
    by reflexivity.
  split; [exact Herr |].
  destruct (parsePosts_error_names_the_first_bad_file Cases.broken _ Herr)
    as [(cause & Hdir & _) | (before & entry & after & cause & Hdir & Hb & Hs & _)].
  - discriminate Hdir.
  - exists before, entry, after. split; [exact Hdir |].
    split; [exact Hb | exact Hs].
Defined.

Lemma one_bad_post_stops_the_run_witness :
  ReadDir Cases.broken contentDir
  = Ok [Demo.file "2023-12-01-winter.md"; Demo.file "missing.md";
        Demo.file "2024-06-01-summer.md"]
  ∧ skipped (Demo.file "missing.md") = false
  ∧ outcome (parsePost Cases.broken "missing.md")
    = Err "open posts/missing.md: no such file or directory"
  ∧ Forall quiet (trace (runGenerate Cases.broken))
  ∧ pagePaths (trace (runGenerate Cases.broken)) = [].
Proof.
  assert (Hp : outcome (parsePost Cases.broken "missing.md")
               = Err "open posts/missing.md: no such file or directory")
    by reflexivity.
  split; [reflexivity |]. split; [reflexivity |]. split; [exact Hp |].
  destruct (one_bad_post_stops_the_run Cases.broken
              [Demo.file "2023-12-01-winter.md"; Demo.file "missing.md";
               Demo.file "2024-06-01-summer.md"]
              (Demo.file "missing.md")
              "open posts/missing.md: no such file or directory"
              eq_refl (list_elem_of_further _ _ _ (list_elem_of_here _ _))
              eq_refl Hp) as (_ & Hq & Hpaths).
  split; [exact Hq | exact Hpaths].
Defined.

Lemma runGenerate_error_names_its_step_witness :
  outcome (runGenerate Cases.broken)
  = Err "parsing posts: parsing missing.md: open posts/missing.md: no such file or directory"
  ∧ ∃ step cause,
      step ∈ generateSteps
      ∧ "parsing posts: parsing missing.md: open posts/missing.md: no such file or directory"
        = step +:+ ": " +:+ cause.
Proof.
  assert (Herr : outcome (runGenerate Cases.broken)
                 = Err "parsing posts: parsing missing.md: open posts/missing.md: no such file or directory")
    by (vm_compute; reflexivity).
  split; [exact Herr |].
  exact (runGenerate_error_names_its_step Cases.broken _ Herr).
Defined.

Lemma marker_is_written_last_witness :
  EvWriteFile "docs/.nojekyll" "" ∈ trace (runGenerate Demo.site)
  ∧ rendered Demo.site
  ∧ outcome (copyStaticFiles Demo.site) = Ok ().
Proof.
  assert (Hin : EvWriteFile "docs/.nojekyll" "" ∈ trace (runGenerate Demo.site)).
  { apply (list_elem_of_lookup_2 _ 42). reflexivity. }
  split; [exact Hin |].
  destruct (marker_is_written_last Demo.site _ _ Hin) as (_ & _ & Hr & Hs).
  split; [exact Hr | exact Hs].
Defined.

Lemma static_files_are_copied_after_the_pages_witness :
  EvCopyDir "static" "docs" ∈ trace (runGenerate Cases.built)
  ∧ Stat Cases.built staticDir = None
  ∧ rendered Cases.built.
Proof.
  assert (Hin : EvCopyDir "static" "docs" ∈ trace (runGenerate Cases.built)).
  { apply (list_elem_of_lookup_2 _ 45). reflexivity. }
  split; [exact Hin |].
  destruct (static_files_are_copied_after_the_pages Cases.built _ _ Hin)
    as (_ & _ & Hs & Hr).
  split; [exact Hs | exact Hr].
Defined.

Lemma site_without_posts_is_generated_witness :
  GoLibLaws Demo.lib
  ∧ collection Cases.blank []
  ∧ outcome (runGenerate Cases.blank) = Ok ()
  ∧ pagePaths (trace (runGenerate Cases.blank)) = []
  ∧ ∃ site,
      executed (trace (runGenerate Cases.blank))
        (CtxHome {| home_Site := site; home_Posts := [] |}).
Proof.
  assert (Hc : collection Cases.blank []) by reflexivity.
  assert (Hok : outcome (runGenerate Cases.blank) = Ok ())
    by (vm_compute; reflexivity).
  split; [exact demo_laws |]. split; [exact Hc |]. split; [exact Hok |].
  destruct (site_without_posts_is_generated Cases.blank demo_laws Hc Hok)
    as (Hpaths & site & _ & Hhome & _).
  split; [exact Hpaths |]. exists site. exact Hhome.
Defined.

Lemma generatePostPages_stops_at_the_failure_witness :
  outcome (generatePostPages Cases.guarded (<["post.html" := λ _, None]> ∅)
             Demo.config Demo.sorted) = Err "permission denied"
  ∧ ∃ before post after,
      Demo.sorted = before ++ post :: after
      ∧ outcome (generatePostPages Cases.guarded
                   (<["post.html" := λ _, None]> ∅) Demo.config before)
        = Ok ().
Proof.
  assert (Herr : outcome (generatePostPages Cases.guarded
                            (<["post.html" := λ _, None]> ∅)
                            Demo.config Demo.sorted) = Err "permission denied")
    by (vm_compute; reflexivity).
  split; [exact Herr |].
  destruct (generatePostPages_stops_at_the_failure _ _ _ _ _ Herr)
    as (before & post & after & Hsplit & Hok & _).
  exists before, post, after. split; [exact Hsplit | exact Hok].
Defined.

Lemma page_of_a_content_file_witness :
  noSlash "2024-01-01-...md" = true
  ∧ deriveSlug "2024-01-01-...md" = ".."
  ∧ postPath (deriveSlug "2024-01-01-...md")
    = filepath.Join [outputDir; "index.html"].
Proof.
  split; [reflexivity |]. split; [reflexivity |].
  destruct (page_of_a_content_file "2024-01-01-...md" eq_refl) as [_ Hp].
  exact Hp.
Defined.

Lemma runInit_refuses_a_place_in_use_witness :
  StatIsDir Cases.crowded "posts" = Ok true
  ∧ ReadDir Demo.site "posts" = Ok Demo.entries
  ∧ runInit Demo.site Cases.crowded Ascii7.texts ["posts"]
    = ([EvStat "posts"; EvReadDir "posts"], Err "posts is not empty").
Proof.
  split; [reflexivity |]. split; [reflexivity |].
  destruct (runInit_refuses_a_place_in_use Demo.site Cases.crowded
              Ascii7.texts ["posts"]) as [_ Hfull].
  apply (Hfull Demo.entries (Demo.file "2023-12-01-winter.md")).
  - reflexivity.
  - reflexivity.
  - apply list_elem_of_here.
  - intros [Hn | Hn]; discriminate Hn.
Defined.

Lemma runInit_makes_the_scaffold_witness :
  outcome (runInit Demo.site Ascii7.host Ascii7.texts []) = Ok ()
  ∧ ∃ guard prints,
      trace (runInit Demo.site Ascii7.host Ascii7.texts [])
      = EvStat "." :: guard
        ++ [EvMkdirAll contentDir; EvMkdirAll outputDir; EvMkdirAll templateDir;
            EvMkdirAll "static/css";
            EvWriteFile "site.yml" siteYml;
            EvWriteFile "posts/.gitkeep" "";
            EvWriteFile "docs/.gitkeep" "";
            EvWriteFile ".gitignore" gitignore;
            EvWriteFile "templates/base.html" (baseHTML Ascii7.texts);
            EvWriteFile "templates/home.html" (homeHTML Ascii7.texts);
            EvWriteFile "templates/post.html" (postHTML Ascii7.texts);
            EvWriteFile "templates/archive.html" (archiveHTML Ascii7.texts);
            EvWriteFile "static/css/style.css" (styleCSS Ascii7.texts)]
        ++ prints.
Proof.
  assert (Hok : outcome (runInit Demo.site Ascii7.host Ascii7.texts []) = Ok ())
    by (vm_compute; reflexivity).
  split; [exact Hok |].
  destruct (runInit_makes_the_scaffold Demo.site Ascii7.host Ascii7.texts Hok)
    as (guard & prints & Htr & _).
  exists guard, prints. exact Htr.
Defined.

Lemma malformed_date_stops_the_run_unless_draft_witness :
  ReadDir Cases.misdated contentDir = Ok [Demo.file "quoted.md"]
  ∧ @frontMatter Civil.time Cases.sloppy Cases.misdated "quoted.md"
    = Some (Demo.meta "Late" "quoted" None)
  ∧ ParseDate "quoted" = Err "cannot parse"
  ∧ ∃ msg, outcome (@runGenerate Civil.time Cases.sloppy Cases.misdated)
           = Err msg.
Proof.
  split; [reflexivity |]. split; [reflexivity |]. split; [reflexivity |].
  destruct (@malformed_date_stops_the_run_unless_draft Civil.time Cases.sloppy
              Cases.misdated [Demo.file "quoted.md"] (Demo.file "quoted.md")
              (Demo.meta "Late" "quoted" None) "quoted" "cannot parse"
              eq_refl (list_elem_of_here _ _) eq_refl eq_refl eq_refl eq_refl)
    as (_ & Herr & _).
  exact Herr.
Defined.


End CommandExamples.
